(** * Transform wiring of the voxelmorph TensorFlow networks

    A verification development for [voxelmorph/tf/networks.py].

    The Python classes of that file are Keras model builders: each
    [__init__] wires layers into a symbolic graph and hands the graph to
    [tf.keras.Model].  The embedding follows that structure.

    - A symbolic [tensor] is either a [tf.keras.Input] or the output of a
      [layer] applied to a list of tensors; a [model] is a pair of input
      and output lists.
    - Every builder is a Rocq function from its keyword arguments (a record
      with the Python names; where two classes share a name, the later
      record prefixes it) to [result]: [Ok] with the built model or [Raise]
      with the Python exception the constructor throws.
    - [eval] gives a graph its meaning over arrays of exact rationals, with
      the trained sub-networks and the numerical routines of other modules
      taken as parameters.

    Tensor entries are exact rationals ([Qc]): rounding of floating point
    arithmetic is outside this model, except in the local parameter field,
    whose weights are float32 numbers and whose division and multiplication
    round.  Keras layers are taken to accept the sizes and options they are
    given: a builder fails where the code of this file raises, or where a
    model is called on another number of tensors than it has inputs.  Layer
    names, which do not enter the computation, are kept only where they
    identify a trained network. *)

From Stdlib Require Import ZArith QArith Qcanon Qround List String Ascii Bool Lia.
From Stdlib Require Import Qabs Qpower Lqa DecimalString.
From Stdlib Require Qcabs SpecFloat.
Import ListNotations.

Set Warnings "-register-all".

(* ================================================================== *)
(** ** Python exceptions and fallible construction *)
(* ================================================================== *)

Inductive error : Type :=
| AssertionError (msg : string)
| ValueError (msg : string)
| IndexError (msg : string)
| TypeError (msg : string)
| NameError (msg : string)
| ZeroDivisionError (msg : string)
| OverflowError (msg : string)
| AttributeError (msg : string).

Inductive result (A : Type) : Type :=
| Ok (a : A)
| Raise (e : error).

Arguments Ok {A} a.
Arguments Raise {A} e.

Definition bind {A B : Type} (r : result A) (k : A -> result B) : result B :=
  match r with
  | Ok a => k a
  | Raise e => Raise e
  end.

Declare Scope py_scope.
Delimit Scope py_scope with py.
Notation "x <- r ;; k" := (bind r (fun x => k))
  (at level 61, r at next level, right associativity) : py_scope.
Notation "r ;;; k" := (bind r (fun _ => k))
  (at level 61, right associativity) : py_scope.
Open Scope py_scope.

(** [assert cond, msg] *)
Definition assert_ (cond : bool) (msg : string) : result unit :=
  if cond then Ok tt else Raise (AssertionError msg).

(** [l[0]] *)
Definition index0 {A : Type} (l : list A) : result A :=
  match l with
  | x :: _ => Ok x
  | [] => Raise (IndexError "index 0 is out of bounds")
  end.

(** The double quote character, as a string. *)
Definition dquote : string := String (ascii_of_nat 34) EmptyString.

(** ['%d' % n] for a natural number. *)
Definition fmt_d (n : nat) : string := NilEmpty.string_of_uint (Nat.to_uint n).

(** [str.lower] on the letters A to Z; every other character is kept. *)
Definition lower_ascii (c : ascii) : ascii :=
  let n := nat_of_ascii c in
  if (65 <=? n)%nat && (n <=? 90)%nat then ascii_of_nat (n + 32) else c.

Fixpoint lower (s : string) : string :=
  match s with
  | EmptyString => EmptyString
  | String c s' => String (lower_ascii c) (lower s')
  end.

(* ================================================================== *)
(** ** Symbolic tensors *)
(* ================================================================== *)

(** [tf.keras.Input(shape=...)]; the name identifies the tensor. *)
Record kinput : Type := KInput { input_name : string; input_shape : list Z }.

(** Functions wrapped in [KL.Lambda]. *)
Inductive lam : Type :=
| cast (dtype : string)                               (* tf.cast(x, dtype) *)
| barycenter_times (shift_center : bool) (shape : list Z)
    (* ne.utils.barycenter(x, axes, normalize=True, shift_center) * shape *)
| reduce_sum_spatial                                  (* tf.reduce_sum(x, axes) *)
| reduce_sum_last                                     (* tf.reduce_sum(x, axis=-1, keepdims=True) *)
| fit_affine                                          (* utils.fit_affine, on the unpacked tuple *)
| affine_matrix_to_params                             (* utils.affine_matrix_to_params *)
| make_square_affine                                  (* utils.make_square_affine *)
| sqrtm.                                              (* tf.linalg.sqrtm *)

(** Layers, with the keyword arguments the builders pass.  An argument the
    source leaves out is [None]: the layer then runs under its own default. *)
Inductive layer : Type :=
| Constant (mat : list (list Q))                      (* ne.layers.Constant(mat) *)
| Network (name : string)                             (* a trained sub-model, called as a layer *)
| Conv (filters : nat) (name : string)
| Concatenate
| Add
| SampleNormalLogVar
| Negate
| Average
| Divide
| Multiply
| GetCols (stop : nat)                                (* x[:, :stop] *)
| Lambda (f : lam)
| InvertAffine
| ParamsToAffineMatrix (ndims : nat)
| ComposeTransform (shift_center : option bool)
| SpatialTransformer (interp_method : option string) (fill_value : option Q)
                     (shape : option (list Z)) (shift_center : option bool)
| AffineToDenseShift (shape : list Z) (shift_center : option bool)
| VecInt (method : string) (int_steps : Z)
| RescaleTransform (factor : Q)
| LocalParamWithInput (shape : list Z) (mult : Q)
| MeanStream (cap : Z).

Inductive tensor : Type :=
| Input (i : kinput)
| Apply (l : layer) (args : list tensor).

Record model : Type := Model { inputs : list kinput; outputs : list tensor }.

(** Every layer of the graph below a tensor, root first. *)
Fixpoint layers_of (t : tensor) : list layer :=
  match t with
  | Input _ => []
  | Apply l args => l :: flat_map layers_of args
  end.

Definition is_VecInt (l : layer) : bool :=
  match l with VecInt _ _ => true | _ => false end.

(** No [VecInt] layer anywhere in the graph of [t]. *)
Definition no_VecInt (t : tensor) : bool :=
  forallb (fun l => negb (is_VecInt l)) (layers_of t).

(* ================================================================== *)
(** ** numpy helpers on shapes *)
(* ================================================================== *)

(** [np.round] on a rational: to the nearest integer, ties to even. *)
Definition np_round (q : Q) : Z :=
  let f := Qfloor q in
  match Qcompare (q - inject_Z f)%Q (1 # 2)%Q with
  | Lt => f
  | Gt => (f + 1)%Z
  | Eq => if Z.even f then f else (f + 1)%Z
  end.

(** [np.array_equal] on shapes. *)
Fixpoint array_equal (a b : list Z) : bool :=
  match a, b with
  | [], [] => true
  | x :: a', y :: b' => Z.eqb x y && array_equal a' b'
  | _, _ => false
  end.

(** [int(np.floor(np.log(r) / np.log(2)))]: the exact floor of the binary
    logarithm.  [np.log] of zero is minus infinity and of a negative number
    is NaN, and [int] refuses both. *)
Definition floor_log2 (r : Q) : result Z :=
  match Qcompare r 0%Q with
  | Eq => Raise (OverflowError "cannot convert float infinity to integer")
  | Lt => Raise (ValueError "cannot convert float NaN to integer")
  | Gt => if Qle_bool 1%Q r then Ok (Z.log2 (Qfloor r))
          else Ok (- Z.log2_up (Qceiling (/ r)%Q))%Z
  end.

(* ================================================================== *)
(** ** VxmDense *)
(* ================================================================== *)

(** [nb_unet_features]: an integer or the pair of encoder and decoder lists. *)
Inductive unet_features : Type :=
| FeatInt (n : Z)
| FeatLists (enc dec : list Z).

(** Keyword arguments of [Unet], as [VxmDense] passes them. *)
Record UnetArgs : Type := {
  u_input_model : model;
  u_nb_features : option unet_features;
  u_nb_levels : option Z;
  u_feat_mult : Z;
  u_nb_conv_per_level : Z;
  u_nb_upsample_skips : Z;
  u_hyp_input : option kinput;
  u_hyp_tensor : option tensor;
  u_name : string
}.

(** What [VxmDense] reads from the U-Net it builds: [unet_model.output] and
    the spatial part of its shape ([flow.shape[1:-1]], kept by the flow
    convolution, which pads with ['same']). *)
Record UnetModel : Type := {
  unet_output : tensor;
  unet_out_size : list Z
}.

Record VxmDenseArgs : Type := {
  inshape : list Z;
  nb_unet_features : option unet_features;
  nb_unet_levels : option Z;
  unet_feat_mult : Z;
  nb_unet_conv_per_level : Z;
  int_steps : Z;
  svf_resolution : Q;
  int_resolution : Q;
  int_downsize : option Q;
  bidir : bool;
  use_probs : bool;
  src_feats : Z;
  trg_feats : Z;
  unet_half_res : bool;
  input_model : option model;
  hyp_model : option (kinput * tensor);      (* hyp_model.input, hyp_model.output *)
  fill_value : option Q;
  reg_field : string;
  name : string
}.

(** [self.references] *)
Record VxmDenseRefs : Type := {
  ref_source : tensor;
  ref_target : tensor;
  ref_svf : tensor;
  ref_preint_flow : tensor;
  ref_postint_flow : tensor;
  ref_pos_flow : tensor;
  ref_neg_flow : option tensor;
  ref_y_source : tensor;
  ref_y_target : option tensor;
  ref_hyp_input : option kinput
}.

Record VxmDenseModel : Type := {
  vxm_model : model;
  references : VxmDenseRefs
}.

(** [any([hyp_input is inp for inp in inputs])] *)
Definition is_among (i : kinput) (l : list kinput) : bool :=
  existsb (fun j => String.eqb (input_name i) (input_name j)) l.

(** [[np.round(dim / res) for dim in inshape]] *)
Definition rounded_sizes (shape : list Z) (res : Q) : list Z :=
  map (fun dim => np_round (inject_Z dim / res)%Q) shape.

Section Dense.

(** The U-Net constructor.  Its convolution stack is architecture assembly
    and no property below depends on it: the dense builders are verified
    against every constructor, which may raise (as [Unet.__init__] does on an
    inconsistent feature configuration) or return its output tensor. *)
Variable Unet : UnetArgs -> result UnetModel.

(** The first part of [VxmDense.__init__], up to the two warped images: the
    model inputs, [flow_params] (under [use_probs]) and every tensor that
    [self.references] caches. *)
Definition VxmDense_tensors (a : VxmDenseArgs)
  : result (list kinput * option tensor * VxmDenseRefs) :=
  (* ensure correct dimensionality *)
  let ndims := List.length (inshape a) in
  assert_ (existsb (Nat.eqb ndims) [1; 2; 3]%nat)
          ("ndims should be one of 1, 2, or 3. found: " ++ fmt_d ndims)%string ;;;
  (* configure default input layers if an input model is not provided *)
  st <- match input_model a with
        | None =>
            let source := KInput (name a ++ "_source_input")%string (inshape a ++ [src_feats a])%list in
            let target := KInput (name a ++ "_target_input")%string (inshape a ++ [trg_feats a])%list in
            Ok (Model [source; target] [Input source; Input target], Input source, Input target)
        | Some m =>
            match outputs m with
            | s :: t :: _ => Ok (m, s, t)
            | _ => Raise (ValueError "not enough values to unpack (expected 2)")
            end
        end ;;
  let '(input_model, source, target) := st in
  (* configure inputs *)
  let '(inputs, hyp_input, hyp_tensor) :=
    match hyp_model a with
    | Some (hyp_input, hyp_tensor) =>
        (if is_among hyp_input (inputs input_model)
         then inputs input_model else (inputs input_model ++ [hyp_input])%list,
         Some hyp_input, Some hyp_tensor)
    | None => (inputs input_model, None, None)
    end in
  let int_resolution :=
    match int_downsize a with Some d => d | None => int_resolution a end in
  (* compute number of upsampling skips in the decoder *)
  let svf_resolution := if unet_half_res a then 2%Q else svf_resolution a in
  nb_upsample_skips <- floor_log2 svf_resolution ;;
  (* build core unet model and grab inputs *)
  unet_model <- Unet {| u_input_model := input_model;
                        u_nb_features := nb_unet_features a;
                        u_nb_levels := nb_unet_levels a;
                        u_feat_mult := unet_feat_mult a;
                        u_nb_conv_per_level := nb_unet_conv_per_level a;
                        u_nb_upsample_skips := nb_upsample_skips;
                        u_hyp_input := hyp_input;
                        u_hyp_tensor := hyp_tensor;
                        u_name := (name a ++ "_unet")%string |} ;;
  (* transform unet output into a flow field *)
  let flow_mean := Apply (Conv ndims (name a ++ "_flow")%string) [unet_output unet_model] in
  (* optionally include probabilities *)
  let '(flow, flow_params) :=
    if use_probs a then
      let flow_logsigma :=
        Apply (Conv ndims (name a ++ "_log_sigma")%string) [unet_output unet_model] in
      (Apply SampleNormalLogVar [flow_mean; flow_logsigma],
       Some (Apply Concatenate [flow_mean; flow_logsigma]))
    else (flow_mean, None) in
  (* rescale field to target svf resolution *)
  let pre_svf_size := unet_out_size unet_model in
  let svf_size := rounded_sizes (inshape a) svf_resolution in
  flow <- (if array_equal pre_svf_size svf_size then Ok flow
           else s0 <- index0 svf_size ;;
                p0 <- index0 pre_svf_size ;;
                Ok (Apply (RescaleTransform (inject_Z s0 / inject_Z p0)%Q) [flow])) ;;
  (* cache svf *)
  let svf := flow in
  (* rescale field to target integration resolution *)
  let resize := (0 <? int_steps a)%Z && negb (Qle_bool int_resolution 1%Q) in
  let int_size := rounded_sizes (inshape a) int_resolution in
  flow <- (if resize && negb (array_equal svf_size int_size)
           then i0 <- index0 int_size ;;
                s0 <- index0 svf_size ;;
                Ok (Apply (RescaleTransform (inject_Z i0 / inject_Z s0)%Q) [flow])
           else Ok flow) ;;
  (* cache pre-integrated flow field *)
  let preint_flow := flow in
  (* optionally negate flow for bidirectional model *)
  let pos_flow := flow in
  let neg_flow := if bidir a then Some (Apply Negate [flow]) else None in
  (* integrate to produce diffeomorphic warp *)
  let '(pos_flow, neg_flow) :=
    if (0 <? int_steps a)%Z
    then (Apply (VecInt "ss" (int_steps a)) [pos_flow],
          option_map (fun n => Apply (VecInt "ss" (int_steps a)) [n]) neg_flow)
    else (pos_flow, neg_flow) in
  (* cache the integrated flow field *)
  let postint_flow := pos_flow in
  (* resize to final resolution *)
  st <- (if resize
         then d0 <- index0 (inshape a) ;;
              i0 <- index0 int_size ;;
              let rescale_factor := (inject_Z d0 / inject_Z i0)%Q in
              Ok (Apply (RescaleTransform rescale_factor) [pos_flow],
                  option_map (fun n => Apply (RescaleTransform rescale_factor) [n]) neg_flow)
         else Ok (pos_flow, neg_flow)) ;;
  let '(pos_flow, neg_flow) := st in
  (* warp image with flow field *)
  let y_source :=
    Apply (SpatialTransformer (Some "linear"%string) (fill_value a) None None) [source; pos_flow] in
  let y_target :=
    option_map (fun n => Apply (SpatialTransformer (Some "linear"%string) (fill_value a) None None)
                               [target; n]) neg_flow in
  Ok (inputs, flow_params,
      {| ref_source := source;
         ref_target := target;
         ref_svf := svf;
         ref_preint_flow := preint_flow;
         ref_postint_flow := postint_flow;
         ref_pos_flow := pos_flow;
         ref_neg_flow := neg_flow;
         ref_y_source := y_source;
         ref_y_target := y_target;
         ref_hyp_input := hyp_input |}).

(** [VxmDense.__init__]: the tensors, then the choice of the regularization
    output. *)
Definition VxmDense (a : VxmDenseArgs) : result VxmDenseModel :=
  st <- VxmDense_tensors a ;;
  let '(inputs, flow_params, refs) := st in
  (* initialize the keras model *)
  let outputs := match ref_y_target refs with
                 | Some y_target => [ref_y_source refs; y_target]
                 | None => [ref_y_source refs]
                 end in
  (* determine regularization output *)
  let reg_field := lower (reg_field a) in
  outputs <- match flow_params with
             | Some flow_params => Ok (outputs ++ [flow_params])%list
             | None =>
                 if String.eqb reg_field "svf"
                 then Ok (outputs ++ [ref_svf refs])%list
                 else if String.eqb reg_field "preintegrated"
                 then Ok (outputs ++ [ref_preint_flow refs])%list
                 else if String.eqb reg_field "postintegrated"
                 then Ok (outputs ++ [ref_postint_flow refs])%list
                 else if String.eqb reg_field "warp"
                 then Ok (outputs ++ [ref_pos_flow refs])%list
                 else Raise (ValueError ("Unknown option " ++ dquote ++ reg_field ++ dquote
                                           ++ " for reg_field.")%string)
             end ;;
  Ok {| vxm_model := Model inputs outputs; references := refs |}.

End Dense.

(* ================================================================== *)
(** ** Meaning of a graph *)
(* ================================================================== *)

(** The value of a tensor for one batch item: a two-dimensional array of
    exact rationals (a matrix, a point list, or a field with one row per
    voxel). *)
Definition arr : Type := list (list Qc).

Fixpoint map2 {A B C : Type} (f : A -> B -> C) (u : list A) (v : list B) : list C :=
  match u, v with
  | a :: u', b :: v' => f a b :: map2 f u' v'
  | _, _ => []
  end.

Definition arr_map (f : Qc -> Qc) (x : arr) : arr := map (map f) x.
Definition arr_map2 (f : Qc -> Qc -> Qc) (x y : arr) : arr := map2 (map2 f) x y.

Definition arr_add : arr -> arr -> arr := arr_map2 Qcplus.
Definition arr_neg : arr -> arr := arr_map Qcopp.
Definition arr_zeros_like : arr -> arr := arr_map (fun _ => Q2Qc 0).

(** [KL.average]: the inputs are summed entry by entry and the sum is
    divided by their number. *)
Definition arr_average (xs : list arr) : arr :=
  match xs with
  | [] => []
  | x :: rest =>
      arr_map (fun s => Qcdiv s (Q2Qc (inject_Z (Z.of_nat (List.length xs)))))
              (fold_left arr_add rest x)
  end.

Section Eval.

(** Values fed to the inputs. *)
Variable feed : kinput -> arr.

(** The trained sub-networks and the layers defined in other modules
    ([voxelmorph.tf.layers], [voxelmorph.tf.utils], neurite, TensorFlow). *)
Variable ext : layer -> list arr -> arr.

Definition apply_layer (l : layer) (xs : list arr) : arr :=
  match l, xs with
  | Constant mat, _ => map (map Q2Qc) mat
  | Negate, [x] => arr_neg x
  | Average, _ => arr_average xs
  | GetCols stop, [x] => map (firstn stop) x
  | _, _ => ext l xs
  end.

Fixpoint eval (t : tensor) : arr :=
  match t with
  | Input i => feed i
  | Apply l args => apply_layer l (map eval args)
  end.

End Eval.

(** Keras' static shape of a tensor, without the batch axis.  For the output
    of a layer it is computed by the layer; [infer] stands for that. *)
Definition static_shape (infer : layer -> list tensor -> list Z) (t : tensor) : list Z :=
  match t with
  | Input i => input_shape i
  | Apply l args => infer l args
  end.

(** [shape[1:-1]] of a tensor: the spatial axes. *)
Definition spatial_shape (infer : layer -> list tensor -> list Z) (t : tensor) : list Z :=
  removelast (static_shape infer t).

(** Calling a model on new tensors: its graph is rebuilt with the model's
    inputs replaced, in order, by the arguments. *)
Fixpoint subst (sigma : list (kinput * tensor)) (t : tensor) : tensor :=
  match t with
  | Input i =>
      match find (fun p => String.eqb (input_name (fst p)) (input_name i)) sigma with
      | Some p => snd p
      | None => t
      end
  | Apply l args => Apply l (map (subst sigma) args)
  end.

Definition call_model (m : model) (args : list tensor) : result (list tensor) :=
  if Nat.eqb (List.length (inputs m)) (List.length args)
  then Ok (map (subst (combine (inputs m) args)) (outputs m))
  else Raise (ValueError "Layer expects a different number of inputs").

(** [out[::2]] *)
Fixpoint every_other {A : Type} (l : list A) : list A :=
  match l with
  | [] => []
  | x :: rest => x :: match rest with
                      | [] => []
                      | _ :: rest' => every_other rest'
                      end
  end.

(** [outputs=out if len(out) > 1 else out[0]] *)
Definition model_outputs (out : list tensor) : result (list tensor) :=
  match out with
  | [] => Raise (IndexError "list index out of range")
  | _ => Ok out
  end.

(* ================================================================== *)
(** ** Static transforms *)
(* ================================================================== *)

Definition eye (n : nat) : list (list Q) :=
  map (fun i => map (fun j => if Nat.eqb i j then 1%Q else 0%Q) (seq 0 n)) (seq 0 n).

(** [np.diag(d)] *)
Definition diag (d : list Q) : list (list Q) :=
  map (fun i => map (fun j => if Nat.eqb i j then nth i d 0%Q else 0%Q)
                    (seq 0 (List.length d)))
      (seq 0 (List.length d)).

(** [mat[:-1, -1] = col] *)
Fixpoint set_last_col (mat : list (list Q)) (col : list Q) : list (list Q) :=
  match mat, col with
  | row :: (_ :: _) as rest, c :: col' =>
      (removelast row ++ [c])%list :: set_last_col rest col'
  | _, _ => mat
  end.

Section StaticTransforms.

Variable num_dim : nat.

Definition cen (shape : list Z) : tensor :=
  Apply (Constant (set_last_col (eye (num_dim + 1))
                     (map (fun s => (- (1 # 2) * (inject_Z s - 1))%Q) shape))) [].

Definition un_cen (shape : list Z) : tensor :=
  Apply (Constant (set_last_col (eye (num_dim + 1))
                     (map (fun s => ((1 # 2) * (inject_Z s - 1))%Q) shape))) [].

Definition scale (fact : Q) : tensor :=
  Apply (Constant (diag (repeat fact num_dim ++ [1%Q])%list)) [].

End StaticTransforms.

(* ================================================================== *)
(** ** VxmAffineFeatureDetector *)
(* ================================================================== *)

Record AffineArgs : Type := {
  in_shape : option (list Z);
  aff_input_model : option model;
  num_chan : Z;
  num_feat : Z;
  enc_nf : list Z;
  dec_nf : list Z;
  add_nf : list Z;
  per_level : Z;
  dropout : Q;
  half_res : bool;
  weighted : bool;
  rigid : bool;
  make_dense : bool;
  aff_bidir : bool;
  return_trans_to_mid_space : bool;
  return_trans_to_half_res : bool;
  return_moved : bool;
  return_feat : bool
}.

(** [shape // 2] *)
Definition floordiv2 (shape : list Z) : list Z := map (fun s => (s / 2)%Z) shape.

(** "Least squares and average, since the fit is not symmetric." *)
Definition least_squares_and_average
    (weighted : bool) (cen_1 cen_2 weights : tensor) : tensor :=
  let fit_1 := [cen_1; cen_2] in
  let fit_2 := [cen_2; cen_1] in
  let fit_1 := if weighted then (fit_1 ++ [weights])%list else fit_1 in
  let fit_2 := if weighted then (fit_2 ++ [weights])%list else fit_2 in
  let aff_1 := Apply (Lambda fit_affine) fit_1 in
  let aff_2 := Apply (Lambda fit_affine) fit_2 in
  Apply Average [Apply InvertAffine [aff_2]; aff_1].

(** "Remove scaling and shear." *)
Definition remove_scaling_and_shear (num_dim : nat) (aff_1 : tensor) : tensor :=
  let aff_1 := Apply (Lambda affine_matrix_to_params) [aff_1] in
  let aff_1 := Apply (GetCols (num_dim * (num_dim + 1) / 2)) [aff_1] in
  Apply (ParamsToAffineMatrix num_dim) [aff_1].

(** The matrix square root taken for the mid-space, on the square form of
    the matrix. *)
Definition mid_space_root (aff : tensor) : tensor :=
  Apply (Lambda sqrtm) [Apply (Lambda make_square_affine) [aff]].

(** The feature detector [det] applied to one image, cast to single
    precision under a [float16] policy ([compute_dtype] is
    [tf.keras.mixed_precision.global_policy().compute_dtype]). *)
Definition features (compute_dtype : string) (inp : tensor) : tensor :=
  let feat := Apply (Network "det") [inp] in
  if String.eqb compute_dtype "float16"
  then Apply (Lambda (cast "float32")) [feat]
  else feat.

(** "Barycenters." *)
Definition barycenters (shape_full : list Z) (feat : tensor) : tensor :=
  Apply (Lambda (barycenter_times true shape_full)) [feat].

(** "Channel weights." *)
Definition channel_power (feat : tensor) : tensor :=
  let pow := Apply (Lambda reduce_sum_spatial) [feat] in
  Apply Divide [pow; Apply (Lambda reduce_sum_last) [pow]].

Definition channel_weights (feat_1 feat_2 : tensor) : tensor :=
  Apply Multiply [channel_power feat_1; channel_power feat_2].

(** [SpatialTransformer(fill_value=0, shape=shape_half, shift_center=False)]
    applied to an image and [scale(2)]. *)
Definition to_half_res (num_dim : nat) (shape_half : list Z) (inp : tensor) : tensor :=
  Apply (SpatialTransformer None (Some 0%Q) (Some shape_half) (Some false))
        [inp; scale num_dim 2].

(** "Original inputs.": the input model, and its first two outputs [inp_1]
    and [inp_2]. *)
Definition original_inputs (a : AffineArgs) : result (model * tensor * tensor) :=
  input_model <- match aff_input_model a with
                 | Some m => Ok m
                 | None =>
                     match in_shape a with
                     | Some s =>
                         let inp_1 := KInput "inp_1" (s ++ [num_chan a])%list in
                         let inp_2 := KInput "inp_2" (s ++ [num_chan a])%list in
                         Ok (Model [inp_1; inp_2] [Input inp_1; Input inp_2])
                     | None => Raise (TypeError "Value after * must be an iterable, not NoneType")
                     end
                 end ;;
  match outputs input_model with
  | x :: y :: _ => Ok (input_model, x, y)
  | _ => Raise (ValueError "not enough values to unpack (expected 2)")
  end.

Section Affine.

Variable compute_dtype : string.

(** Shape inference for layer outputs. *)
Variable infer : layer -> list tensor -> list Z.

Definition VxmAffineFeatureDetector (a : AffineArgs) : result model :=
  (* Original inputs. *)
  st <- original_inputs a ;;
  let '(input_model, inp_1, inp_2) := st in
  (* Dimensions. *)
  let shape_full := spatial_shape infer inp_1 in
  let shape_half := floordiv2 shape_full in
  let num_dim := List.length shape_full in
  assert_ (existsb (Nat.eqb num_dim) [2; 3]%nat) "only 2D and 3D supported" ;;;
  assert_ (negb (return_trans_to_half_res a) || half_res a) "only for `half_res=True`" ;;;
  (* Detector inputs. *)
  let '(inp_1, inp_2) :=
    if half_res a
    then (to_half_res num_dim shape_half inp_1, to_half_res num_dim shape_half inp_2)
    else (inp_1, inp_2) in
  (* Feature detector, applied to both images with shared weights.
     Always sum and fit affine with single precision. *)
  let feat_1 := features compute_dtype inp_1 in
  let feat_2 := features compute_dtype inp_2 in
  (* Barycenters. *)
  let cen_1 := barycenters shape_full feat_1 in
  let cen_2 := barycenters shape_full feat_2 in
  (* Channel weights. *)
  let weights := channel_weights feat_1 feat_2 in
  (* Least squares and average, since the fit is not symmetric. *)
  let aff_1 := least_squares_and_average (weighted a) cen_1 cen_2 weights in
  (* Remove scaling and shear. *)
  let aff_1 := if rigid a then remove_scaling_and_shear num_dim aff_1 else aff_1 in
  (* Mid-space. Before scaling at either side. *)
  let aff_2 := Apply InvertAffine [aff_1] in
  let '(aff_1, aff_2) :=
    if return_trans_to_mid_space a
    then (mid_space_root aff_1, mid_space_root aff_2)
    else (aff_1, aff_2) in
  (* Affine transform operating in index space, for full-resolution inputs. *)
  let aff_1 := Apply (ComposeTransform (Some false))
                     [un_cen num_dim shape_full; aff_1; cen num_dim shape_full] in
  let aff_2 := Apply (ComposeTransform (Some false))
                     [un_cen num_dim shape_full; aff_2; cen num_dim shape_full] in
  let out := [aff_1; aff_2] in
  let out := if return_trans_to_half_res a
             then map (fun x => Apply (ComposeTransform (Some false)) [x; scale num_dim 2]) out
             else out in
  let out := if String.eqb compute_dtype "float16"
             then map (fun x => Apply (Lambda (cast "float16")) [x]) out
             else out in
  let shape_out := if return_trans_to_half_res a then shape_half else shape_full in
  let out := if make_dense a
             then map (fun x => Apply (AffineToDenseShift shape_out (Some false)) [x]) out
             else out in
  (* Additional outputs. *)
  out <- (if return_moved a then
            match inputs input_model with
            | i1 :: i2 :: _ =>
                let mov_1 := Apply (SpatialTransformer None (Some 0%Q) (Some shape_out)
                                                       (Some false)) [Input i1; aff_1] in
                let mov_2 := Apply (SpatialTransformer None (Some 0%Q) (Some shape_out)
                                                       (Some false)) [Input i2; aff_2] in
                Ok (out ++ [mov_1; mov_2])%list
            | _ => Raise (IndexError "list index out of range")
            end
          else Ok out) ;;
  let out := if return_feat a then (out ++ [feat_1; feat_2])%list else out in
  let out := if aff_bidir a then out else every_other out in
  outs <- model_outputs out ;;
  Ok (Model (inputs input_model) outs).

End Affine.

(* ================================================================== *)
(** ** HyperVxmJoint *)
(* ================================================================== *)

Record JointArgs : Type := {
  j_in_shape : option (list Z);
  j_input_model : option model;
  j_num_chan : Z;
  hyp_num : Z;
  hyp_units : list Z;
  j_enc_nf : list Z;
  j_dec_nf : list Z;
  j_add_nf : list Z;
  j_per_level : Z;
  j_int_steps : Z;
  j_bidir : bool;
  pass_affine : bool;
  skip_affine : bool;
  skip_deform : bool;
  mid_space : bool;
  j_return_trans_to_half_res : bool;
  return_tot : bool;
  return_def : bool;
  return_aff : bool;
  return_svf : bool;
  j_return_moved : bool;
  kwargs_aff : AffineArgs;        (* the keyword arguments prefixed with 'aff.' *)
  kwargs_rest : list string       (* the names of all other keyword arguments *)
}.

(** [arg_aff.update(in_shape=..., make_dense=False, half_res=False,
    bidir=True, return_trans_to_mid_space=mid_space)] *)
Definition arg_aff_update (k : AffineArgs) (shape_half : list Z) (mid_space : bool)
  : AffineArgs :=
  {| in_shape := Some shape_half;
     aff_input_model := aff_input_model k;
     num_chan := num_chan k;
     num_feat := num_feat k;
     enc_nf := enc_nf k;
     dec_nf := dec_nf k;
     add_nf := add_nf k;
     per_level := per_level k;
     dropout := dropout k;
     half_res := false;
     weighted := weighted k;
     rigid := rigid k;
     make_dense := false;
     aff_bidir := true;
     return_trans_to_mid_space := mid_space;
     return_trans_to_half_res := return_trans_to_half_res k;
     return_moved := return_moved k;
     return_feat := return_feat k |}.

(** [*front, x, y = l] *)
Fixpoint split_last2 {A : Type} (l : list A) : result (list A * A * A) :=
  match l with
  | [x; y] => Ok ([], x, y)
  | h :: rest => st <- split_last2 rest ;;
                 let '(front, x, y) := st in Ok (h :: front, x, y)
  | [] => Raise (ValueError "not enough values to unpack (expected at least 2)")
  end.

(** A tensor used as a model input has to be an input tensor. *)
Definition as_input (t : tensor) : result kinput :=
  match t with
  | Input i => Ok i
  | Apply _ _ => Raise (ValueError "Input tensors to a Model must come from tf.keras.Input")
  end.

(** "Deformable registration. Average for symmetry, before integration."
    Returns [svf_1], [svf_2], [def_1] and [def_2]. *)
Definition deformable_registration
    (int_steps : Z) (hyp_inp : list tensor) (mov_1 mov_2 : tensor)
  : tensor * tensor * tensor * tensor :=
  let svf_1 := Apply (Network "model_def") (hyp_inp ++ [mov_1; mov_2])%list in
  let svf_2 := Apply (Network "model_def") (hyp_inp ++ [mov_2; mov_1])%list in
  let svf_1 := Apply Average [Apply Negate [svf_2]; svf_1] in
  let svf_2 := Apply Negate [svf_1] in
  let def_1 := Apply (VecInt "ss" int_steps) [svf_1] in
  let def_2 := Apply (VecInt "ss" int_steps) [svf_2] in
  let '(def_1, def_2) := if (int_steps =? 0)%Z then (svf_1, svf_2) else (def_1, def_2) in
  (svf_1, svf_2, def_1, def_2).

Section Joint.

Variable compute_dtype : string.
Variable infer : layer -> list tensor -> list Z.

Definition HyperVxmJoint (a : JointArgs) : result model :=
  (* Inputs. *)
  input_model <- match j_input_model a with
                 | Some m => Ok m
                 | None =>
                     match j_in_shape a with
                     | Some s =>
                         let hyp_inp := KInput "hyp_inp" [hyp_num a] in
                         let full_1 := KInput "full_1" (s ++ [j_num_chan a])%list in
                         let full_2 := KInput "full_2" (s ++ [j_num_chan a])%list in
                         let inputs := [full_1; full_2] in
                         let inputs := if (0 <? hyp_num a)%Z then hyp_inp :: inputs
                                       else inputs in
                         Ok (Model inputs (map Input inputs))
                     | None => Raise (TypeError "Value after * must be an iterable, not NoneType")
                     end
                 end ;;
  st <- split_last2 (outputs input_model) ;;
  let '(hyp_inp, full_1, full_2) := st in
  (* Dimensions. *)
  let shape_full := spatial_shape infer full_1 in
  let shape_half := floordiv2 shape_full in
  let num_dim := List.length shape_full in
  (* Affine network. *)
  let arg_aff := arg_aff_update (kwargs_aff a) shape_half (mid_space a) in
  model_aff <- VxmAffineFeatureDetector compute_dtype infer arg_aff ;;
  assert_ (match kwargs_rest a with [] => true | _ => false end) "unknown arguments" ;;;
  (* Affine registration at half resolution. *)
  let prop := SpatialTransformer None (Some 0%Q) (Some shape_half) (Some false) in
  let ima_1 := to_half_res num_dim shape_half full_1 in
  let ima_2 := to_half_res num_dim shape_half full_2 in
  affs <- call_model model_aff [ima_1; ima_2] ;;
  st <- match affs with
        | [x; y] => Ok (x, y)
        | _ => Raise (ValueError "too many values to unpack (expected 2)")
        end ;;
  let '(aff_1, aff_2) := st in
  st <- (if pass_affine a then
           assert_ (negb (skip_affine a)) "cannot both skip and override affine" ;;;
           let affine := KInput "affine" [Z.of_nat num_dim; Z.of_nat (num_dim + 1)] in
           let input_model :=
             Model (inputs input_model ++ [affine])%list
                   (outputs input_model ++ [Input affine])%list in
           let aff_1 := Input affine in
           let aff_1 := Apply (ComposeTransform None)
                              [scale num_dim (1 # 2); aff_1; scale num_dim 2] in
           let aff_2 := Apply InvertAffine [aff_1] in
           let '(aff_1, aff_2) :=
             if mid_space a then (mid_space_root aff_1, mid_space_root aff_2)
             else (aff_1, aff_2) in
           Ok (input_model, aff_1, aff_2)
         else Ok (input_model, aff_1, aff_2)) ;;
  let '(input_model, aff_1, aff_2) := st in
  (* Deformable input. Affine transforms from full to half resolution. *)
  let aff_1 := Apply (ComposeTransform (Some false)) [scale num_dim 2; aff_1] in
  let aff_2 := Apply (ComposeTransform (Some false)) [scale num_dim 2; aff_2] in
  let mov_1 := Apply prop [full_1; aff_1] in
  let mov_2 := if mid_space a then Apply prop [full_2; aff_2] else ima_2 in
  let '(aff_1, aff_2, mov_1, mov_2) :=
    if skip_affine a then (scale num_dim 2, scale num_dim 2, ima_1, ima_2)
    else (aff_1, aff_2, mov_1, mov_2) in
  (* Hypernetwork. *)
  (if (0 <? hyp_num a)%Z then index0 hyp_inp ;;; Ok tt else Ok tt) ;;;
  (* Deformable layers. *)
  assert_ (Nat.eqb (List.length (j_enc_nf a)) (List.length (j_dec_nf a)))
          "number of layers differs for encoder and decoder" ;;;
  (* Deformable registration. Average for symmetry, before integration. *)
  let '(svf_1, svf_2, def_1, def_2) :=
    deformable_registration (j_int_steps a) hyp_inp mov_1 mov_2 in
  st <- (if skip_deform a then
           assert_ (negb (skip_affine a)) "cannot skip both affine and deformable" ;;;
           assert_ (negb (return_svf a)) "cannot skip deformable and return SVF" ;;;
           assert_ (negb (return_def a)) "cannot skip deformable and return warp" ;;;
           i1 <- as_input full_1 ;;
           i2 <- as_input full_2 ;;
           Ok (Model [i1; i2] [full_1; full_2], scale num_dim 1, scale num_dim 1)
         else Ok (input_model, def_1, def_2)) ;;
  let '(input_model, def_1, def_2) := st in
  (* Total warps from full to half resolution. *)
  let tot_1 := [aff_1; def_1; scale num_dim (1 # 2); aff_1] in
  let tot_2 := [aff_2; def_2; scale num_dim (1 # 2); aff_2] in
  let '(tot_1, tot_2) :=
    if negb (mid_space a) || skip_affine a then (firstn 2 tot_1, firstn 2 tot_2)
    else (tot_1, tot_2) in
  let tot_1 := Apply (ComposeTransform (Some false)) tot_1 in
  let tot_2 := Apply (ComposeTransform (Some false)) tot_2 in
  (* Do not interpolate deformation fields with `fill_value=0`. *)
  let down := Apply (AffineToDenseShift shape_full (Some false)) [scale num_dim (1 # 2)] in
  let '(tot_1, tot_2, def_1, def_2, aff_1, aff_2) :=
    if negb (j_return_trans_to_half_res a) then
      (Apply (ComposeTransform None) [tot_1; down],
       Apply (ComposeTransform None) [tot_2; down],
       Apply (ComposeTransform (Some false)) [scale num_dim 2; def_1; down],
       Apply (ComposeTransform (Some false)) [scale num_dim 2; def_2; down],
       Apply (ComposeTransform (Some false)) [aff_1; scale num_dim (1 # 2)],
       Apply (ComposeTransform (Some false)) [aff_2; scale num_dim (1 # 2)])
    else (tot_1, tot_2, def_1, def_2, aff_1, aff_2) in
  (* Outputs. *)
  let out := [] in
  let out := if return_tot a then (out ++ [tot_1; tot_2])%list else out in
  let out := if return_def a then (out ++ [def_1; def_2])%list else out in
  let out := if return_aff a then (out ++ [aff_1; aff_2])%list else out in
  let out := if return_svf a then (out ++ [svf_1; svf_2])%list else out in
  let out :=
    if j_return_moved a then
      let prop := SpatialTransformer None (Some 0%Q)
                                     (Some (spatial_shape infer tot_1)) (Some false) in
      (out ++ [Apply prop [full_1; tot_1]; Apply prop [full_2; tot_2]])%list
    else out in
  let out := if j_bidir a then out else every_other out in
  outs <- model_outputs out ;;
  Ok (Model (inputs input_model) outs).

End Joint.

(* ================================================================== *)
(** ** InstanceDense and the local parameter field *)
(* ================================================================== *)

(** *** Float32 numbers

    The weights of a Keras layer are float32 numbers.  A finite one is given
    by its exact rational value. *)

(** [2 ** e] *)
Definition pow2 (e : Z) : Q := Qpower 2 e.

(** [floor(log2 |q|)] of a rational other than zero. *)
Definition Qlog2 (q : Q) : Z :=
  let k := (Z.log2 (Z.abs (Qnum q)) - Z.log2 (Zpos (Qden q)))%Z in
  if Qle_bool (pow2 k) (Qabs q) then k else (k - 1)%Z.

(** The nearest integer, ties to the even one. *)
Definition round_half_even (q : Q) : Z :=
  let f := Qfloor q in
  match Qcompare (q - inject_Z f) (1 # 2) with
  | Lt => f
  | Gt => (f + 1)%Z
  | Eq => if Z.even f then f else (f + 1)%Z
  end.

(** IEEE 754 binary32: 24 significant bits, least exponent -149 (of the
    subnormal numbers), overflow from [2 ** 128].  [f32_round q] is the
    float32 number nearest to [q], ties to even, or [None] when the result
    is infinite. *)
Definition f32_round (q : Q) : option Q :=
  if Qeq_bool q 0 then Some 0
  else
    let e := Z.max (-149) (Qlog2 q - 23) in
    let r := inject_Z (round_half_even (q / pow2 e)) * pow2 e in
    if Qle_bool (pow2 128) (Qabs r) then None else Some r.

(** [q] is zero or at least the least normal number [2 ** -126] in
    magnitude: rounding it does not underflow. *)
Definition f32_normal (q : Q) : bool :=
  Qeq_bool q 0 || (-126 <=? Qlog2 q)%Z.

(** The value of a float of Rocq's specification of IEEE 754. *)
Definition SF2Q (x : SpecFloat.spec_float) : option Q :=
  match x with
  | SpecFloat.S754_zero _ => Some 0
  | SpecFloat.S754_finite s m e => Some (inject_Z (if s then Z.neg m else Z.pos m) * pow2 e)
  | SpecFloat.S754_infinity _ | SpecFloat.S754_nan => None
  end.

(** The float32 number of an integer significand and an exponent. *)
Definition SF32 (m : Z) (e : Z) : SpecFloat.spec_float :=
  match m with
  | Z0 => SpecFloat.S754_zero false
  | Zpos p => SpecFloat.binary_round 24 128 false p e
  | Zneg p => SpecFloat.binary_round 24 128 true p e
  end.

(** The two specifications give one value on the quotient and on the
    product of two floats. *)
Definition same_value (a b : option Q) : bool :=
  match a, b with
  | Some x, Some y => Qeq_bool x y
  | None, None => true
  | _, _ => false
  end.

Definition f32_agrees (x y : SpecFloat.spec_float) : bool :=
  match SF2Q x, SF2Q y with
  | Some qx, Some qy =>
      (Qeq_bool qy 0
       || same_value (SF2Q (SpecFloat.SFdiv 24 128 x y)) (f32_round (qx / qy)))
      && same_value (SF2Q (SpecFloat.SFmul 24 128 x y)) (f32_round (qx * qy))
  | _, _ => true
  end.

(** [q] is a float32 number. *)
Definition f32_exact (q : Q) : bool :=
  match f32_round q with
  | Some r => Qeq_bool r q
  | None => false
  end.

(** A stored weight: the value of a finite float32 number, or [None] for a
    non-finite one (infinity or NaN). *)
Definition weight : Type := option Qc.

(** The float32 number nearest to a rational. *)
Definition f32 (q : Qc) : weight := option_map Q2Qc (f32_round q).

(** [x / m] on NumPy float32 numbers: the quotient is rounded, and a
    division by zero leaves a non-finite value in the array. *)
Definition np_divide (x m : Qc) : weight :=
  if Qc_eq_bool m (Q2Qc 0) then None else f32 (x / m)%Qc.

(** [x * m] on float32 tensors: the product is rounded, and a non-finite
    factor gives a non-finite product. *)
Definition f32_multiply (x : weight) (m : Qc) : weight :=
  match x with
  | Some x => f32 (x * m)%Qc
  | None => None
  end.

(** Modelled from the spec: the [LocalParamWithInput] layer of neurite, which
    is not part of this file.  Section 4.8: the state is
    [(weights, multiplier)] and [get] returns [weights * multiplier], a
    float32 tensor. *)
Record LocalParam : Type := {
  weights : list weight;
  multiplier : Qc
}.

Definition LocalParam_get (l : LocalParam) : list weight :=
  map (fun w => f32_multiply w (multiplier l)) (weights l).

Definition LocalParam_set_weights (l : LocalParam) (w : list weight) : LocalParam :=
  {| weights := w; multiplier := multiplier l |}.

Record InstanceDenseArgs : Type := {
  i_inshape : list Z;
  nb_feats : Z;
  mult : Q;
  i_int_steps : Z;
  i_int_downsize : option Q;
  i_int_resolution : Q
}.

(** The model object: the graph, [self.references], and the state of the
    flow layer. *)
Record InstanceDenseModel : Type := {
  inst_model : model;
  inst_preint_flow : tensor;
  inst_pos_flow : tensor;                (* references.pos_flow *)
  inst_mult : Q;                         (* references.mult *)
  inst_flow_layer : LocalParam           (* references.flow_layer *)
}.

(** [int(q)]: truncation towards zero. *)
Definition py_int (q : Q) : Z :=
  if Qle_bool 0%Q q then Qfloor q else Qceiling q.

(** [init] is the value the layer's initializer gives the weights. *)
Definition InstanceDense (a : InstanceDenseArgs) (init : list weight)
  : result InstanceDenseModel :=
  let int_resolution :=
    match i_int_downsize a with Some d => d | None => i_int_resolution a end in
  (* downsample warp shape *)
  ds_warp_shape <-
    (if Qeq_bool int_resolution 0%Q
     then match i_inshape a with
          | [] => Ok []
          | _ => Raise (ZeroDivisionError "float division by zero")
          end
     else Ok (map (fun dim => py_int (inject_Z dim / int_resolution)%Q) (i_inshape a))) ;;
  let source := KInput "source" (i_inshape a ++ [nb_feats a])%list in
  let flow_layer :=
    LocalParamWithInput (ds_warp_shape ++ [Z.of_nat (List.length (i_inshape a))])%list
                        (mult a) in
  let preint_flow := Apply flow_layer [Input source] in
  (* integrate to produce diffeomorphic warp *)
  let pos_flow := preint_flow in
  let pos_flow :=
    if (0 <? i_int_steps a)%Z then
      let pos_flow := Apply (VecInt "ss" (i_int_steps a)) [pos_flow] in
      (* resize to final resolution *)
      if negb (Qle_bool int_resolution 1%Q)
      then Apply (RescaleTransform int_resolution) [pos_flow]
      else pos_flow
    else pos_flow in
  (* warp image with flow field *)
  let y_source := Apply (SpatialTransformer (Some "linear"%string) None None None)
                        [Input source; pos_flow] in
  Ok {| inst_model := Model [source] [y_source; preint_flow];
        inst_preint_flow := preint_flow;
        inst_pos_flow := pos_flow;
        inst_mult := mult a;
        inst_flow_layer := {| weights := init; multiplier := Q2Qc (mult a) |} |}.

(** [set_flow]: "Sets the networks flow field weights. Scales the warp to
    accommodate the local weight multiplier."  The warp is a float32 array
    and the multiplier a float32 number, as the default 1000 is. *)
Definition set_flow (self : InstanceDenseModel) (warp : list Qc) : InstanceDenseModel :=
  let warp := map (fun x => np_divide x (Q2Qc (inst_mult self))) warp in
  {| inst_model := inst_model self;
     inst_preint_flow := inst_preint_flow self;
     inst_pos_flow := inst_pos_flow self;
     inst_mult := inst_mult self;
     inst_flow_layer := LocalParam_set_weights (inst_flow_layer self) warp |}.

(** The flow field the layer produces. *)
Definition read_flow (self : InstanceDenseModel) : list weight :=
  LocalParam_get (inst_flow_layer self).

(** The entry read after [set_flow] has written [w], at the multiplier
    [m]. *)
Definition read_back (m w : Qc) : weight := f32_multiply (np_divide w m) m.

(* ================================================================== *)
(** ** Template creation and the mean stream *)
(* ================================================================== *)

Record TemplateArgs : Type := {
  t_inshape : list Z;
  t_nb_unet_features : option unet_features;
  mean_cap : Z;
  atlas_feats : Z;
  t_src_feats : Z;
  t_kwargs : VxmDenseArgs              (* forwarded to the internal VxmDense model *)
}.

(** [VxmDense(inshape, nb_unet_features=..., bidir=True, input_model=...,
    **kwargs)] *)
Definition template_vxm_args
    (inshape : list Z) (feats : option unet_features) (warp_input_model : model)
    (k : VxmDenseArgs) : VxmDenseArgs :=
  {| inshape := inshape;
     nb_unet_features := feats;
     nb_unet_levels := nb_unet_levels k;
     unet_feat_mult := unet_feat_mult k;
     nb_unet_conv_per_level := nb_unet_conv_per_level k;
     int_steps := int_steps k;
     svf_resolution := svf_resolution k;
     int_resolution := int_resolution k;
     int_downsize := int_downsize k;
     bidir := true;
     use_probs := use_probs k;
     src_feats := src_feats k;
     trg_feats := trg_feats k;
     unet_half_res := unet_half_res k;
     input_model := Some warp_input_model;
     hyp_model := hyp_model k;
     fill_value := fill_value k;
     reg_field := reg_field k;
     name := name k |}.

Record ConditionalTemplateArgs : Type := {
  c_inshape : list Z;
  pheno_input_shape : list Z;
  c_nb_unet_features : option unet_features;
  c_src_feats : Z;
  c_atlas_feats : option Z;
  use_mean_stream : bool;
  c_mean_cap : Z;
  templcondsi : bool;
  c_kwargs : VxmDenseArgs
}.

Section Template.

Variable Unet : UnetArgs -> result UnetModel.

(** [neg_flow] of a bidirectional model. *)
Definition neg_flow_of (m : VxmDenseModel) : result tensor :=
  match ref_neg_flow (references m) with
  | Some n => Ok n
  | None => Raise (TypeError "neg_flow is None")
  end.

Definition y_target_of (m : VxmDenseModel) : result tensor :=
  match ref_y_target (references m) with
  | Some t => Ok t
  | None => Raise (TypeError "y_target is None")
  end.

Definition TemplateCreation (a : TemplateArgs) : result model :=
  (* configure inputs *)
  let source_input := KInput "source_input" (t_inshape a ++ [t_src_feats a])%list in
  (* pre-warp (atlas) model *)
  let atlas_layer := LocalParamWithInput (t_inshape a ++ [atlas_feats a])%list 1%Q in
  let atlas_tensor := Apply atlas_layer [Input source_input] in
  let warp_input_model := Model [source_input] [atlas_tensor; Input source_input] in
  (* warp model *)
  vxm_model <- VxmDense Unet (template_vxm_args (t_inshape a) (t_nb_unet_features a)
                                                warp_input_model (t_kwargs a)) ;;
  (* extract tensors from stacked model *)
  let y_source := ref_y_source (references vxm_model) in
  y_target <- y_target_of vxm_model ;;
  let pos_flow := ref_pos_flow (references vxm_model) in
  neg_flow <- neg_flow_of vxm_model ;;
  (* get mean stream of negative flow *)
  let mean_stream := Apply (MeanStream (mean_cap a)) [neg_flow] in
  (* initialize the keras model *)
  Ok (Model [source_input] [y_source; y_target; mean_stream; pos_flow]).

(** [get_output] *)
Definition get_output (y_source pos_flow neg_flow : tensor) (mean_stream : option tensor)
  : list tensor :=
  match mean_stream with
  | Some mean_stream => [y_source; mean_stream; pos_flow; pos_flow]
  | None => [y_source; pos_flow; pos_flow]
  end.

(** [getattr(KL, 'Conv%dD' % ndims)]: Keras has the layers [Conv1D],
    [Conv2D] and [Conv3D].  The message of the [AttributeError] names the
    module, which depends on the TensorFlow version; the error is recorded
    with the name of the missing attribute. *)
Definition getattr_Conv (ndims : nat) : result unit :=
  match ndims with
  | 1%nat | 2%nat | 3%nat => Ok tt
  | _ => Raise (AttributeError ("Conv" ++ fmt_d ndims ++ "D")%string)
  end.

(** The phenotype decoder and its convolutions are one trained network,
    [atlas_gen], of the phenotype input; the convolution class is looked up
    by the number of axes of [inshape] before any of the image inputs is
    made. *)
Definition ConditionalTemplateCreation (a : ConditionalTemplateArgs) : result model :=
  let atlas_feats := match c_atlas_feats a with Some f => f | None => c_src_feats a end in
  let pheno_input := KInput "pheno_input" (pheno_input_shape a) in
  (* add extra convolutions *)
  getattr_Conv (List.length (c_inshape a)) ;;;
  let atlas_gen := Apply (Network "atlas_gen") [Input pheno_input] in
  (* image input layers *)
  let atlas_input := KInput "atlas_input" (c_inshape a ++ [atlas_feats])%list in
  let source_input := KInput "source_input" (c_inshape a ++ [c_src_feats a])%list in
  atlas_tensor <- (if templcondsi a
                   then Raise (NameError "name 'pout' is not defined")
                   else Ok (Apply Add [Input atlas_input; atlas_gen])) ;;
  let inputs := [pheno_input; atlas_input; source_input] in
  let warp_input_model := Model inputs [atlas_tensor; Input source_input] in
  (* warp model *)
  vxm_model <- VxmDense Unet (template_vxm_args (c_inshape a) (c_nb_unet_features a)
                                                warp_input_model (c_kwargs a)) ;;
  (* extract tensors from stacked model *)
  let y_source := ref_y_source (references vxm_model) in
  let pos_flow := ref_pos_flow (references vxm_model) in
  neg_flow <- neg_flow_of vxm_model ;;
  let mean_stream :=
    if use_mean_stream a
    then Some (Apply (MeanStream (c_mean_cap a)) [neg_flow])  (* mean stream from negative flow *)
    else None in
  let outputs := get_output y_source pos_flow neg_flow mean_stream in
  Ok (Model inputs outputs).

End Template.

(** *** The mean accumulator *)

Section MeanAccumulator.

(** The index set of a field: one entry per voxel and component. *)
Variable voxel : Type.

Definition field : Type := voxel -> Qc.

(** Modelled from the spec: the [MeanStream] layer of neurite, which is not
    part of this file.  Section 3: the state is [(count, mean)], created
    with [count = 0]. *)
Record MeanAccumulator : Type := {
  count : N;
  mean : field
}.

Definition of_N (n : N) : Qc := Q2Qc (inject_Z (Z.of_N n)).

(** Modelled from the spec, section 4.7: "let [c' = min(count + batch_size,
    cap)].  If [count < cap]: [mean <- mean + (batch_mean - mean) *
    (batch_size / c')].  Once [count >= cap] on subsequent updates, the
    update weight for new samples is fixed at [batch_size/cap].
    [count <- c']." *)
Definition update_weight (count batch_size cap : N) : Qc :=
  let c' := N.min (count + batch_size) cap in
  if (count <? cap)%N then (of_N batch_size / of_N c')%Qc
  else (of_N batch_size / of_N cap)%Qc.

Definition update (st : MeanAccumulator) (batch_mean : field) (batch_size cap : N)
  : MeanAccumulator :=
  let c' := N.min (count st + batch_size) cap in
  {| count := c';
     mean := fun x => (mean st x
                       + (batch_mean x - mean st x) * update_weight (count st) batch_size cap)%Qc |}.

(** [read() -> mean] *)
Definition read (st : MeanAccumulator) : field := mean st.

(** A freshly created accumulator. *)
Definition created (mean0 : field) : MeanAccumulator := {| count := 0; mean := mean0 |}.

(** One [update] per training step: the same value [v], with the batch
    sizes of the list. *)
Definition feed_constant (v : field) (cap : N) (st : MeanAccumulator) (sizes : list N)
  : MeanAccumulator :=
  fold_left (fun st s => update st v s cap) sizes st.

End MeanAccumulator.

Arguments count {voxel} _.
Arguments mean {voxel} _ _.
Arguments update {voxel} st batch_mean batch_size cap.
Arguments read {voxel} st _.
Arguments created {voxel} mean0.
Arguments feed_constant {voxel} v cap st sizes.

(* ================================================================== *)
(** ** Affine matrices and the mid-space solver *)
(* ================================================================== *)

Module AffineAlgebra.

Local Open Scope Qc_scope.

Definition zero : Qc := Q2Qc 0.
Definition one : Qc := Q2Qc 1.

Definition dot (u v : list Qc) : Qc := fold_right Qcplus zero (map2 Qcmult u v).

Definition column (j : nat) (m : arr) : list Qc := map (fun row => nth j row zero) m.

Definition ncols (m : arr) : nat := List.length (hd [] m).

(** Ordinary matrix multiplication. *)
Definition matmul (a b : arr) : arr :=
  map (fun row => map (fun j => dot row (column j b)) (seq 0 (ncols b))) a.

(** The row [(0, ..., 0, 1)] under a matrix with [d] rows. *)
Definition homogeneous_row (d : nat) : list Qc := (repeat zero d ++ [one])%list.

(** Modelled from the spec: [utils.make_square_affine], which is not part of
    this file.  Section 4.6: "promote [T] to a square homogeneous
    [(D+1)x(D+1)] matrix". *)
Definition make_square_affine (t : arr) : arr :=
  (t ++ [homogeneous_row (List.length t)])%list.

(** Modelled from the spec, section 4.6: "truncate back to the [Dx(D+1)]
    affine form". *)
Definition truncate (s : arr) : arr := removelast s.

(** Modelled from the spec: composition of two affine transforms
    ([utils.compose] is not part of this file).  Section 4.4:
    "affine-into-affine composition stays in matrix form and is computed as
    ordinary homogeneous matrix multiplication". *)
Definition compose (t1 t2 : arr) : arr :=
  truncate (matmul (make_square_affine t2) (make_square_affine t1)).

(** [s] is in homogeneous form: a square matrix whose last row is
    [(0, ..., 0, 1)]. *)
Definition homogeneous (s : arr) : Prop :=
  exists rows, s = (rows ++ [homogeneous_row (List.length rows)])%list.

(** Modelled from the spec, section 4.6: [s] is the principal square root of
    the square form of [t].  The principal root is a polynomial in the
    matrix, so it keeps the homogeneous form, and it squares to the matrix. *)
Definition principal_root_of (s t : arr) : Prop :=
  homogeneous s /\ matmul s s = make_square_affine t.

(** Modelled from the spec, section 4.6: [half(T)].  "Promote [T] to a
    square homogeneous [(D+1)x(D+1)] matrix, compute its principal matrix
    square root, truncate back to the [Dx(D+1)] affine form."  [sqrtm]
    stands for [tf.linalg.sqrtm]. *)
Definition half (sqrtm : arr -> arr) (t : arr) : arr :=
  truncate (sqrtm (make_square_affine t)).

(** The entry of a matrix at row [i] and column [j]. *)
Definition entry (m : arr) (i j : nat) : Qc := nth j (nth i m []) zero.

(** [x] is an [n] by [n] matrix. *)
Definition square_shape (n : nat) (x : arr) : Prop :=
  List.length x = n /\ Forall (fun row => List.length row = n) x.

(** [r] is a square root of the square form of [t] up to rounding: it has
    the shape of that matrix, every entry of its square is within [eps] of
    the matrix, and every entry of its last row is within [delta] of the
    row [(0, ..., 0, 1)]. *)
Definition root_within (eps delta : Qc) (r t : arr) : Prop :=
  let s := make_square_affine t in
  let d := List.length t in
  square_shape (S d) r /\
  (forall i j, (i <= d)%nat -> (j <= d)%nat ->
               Qcabs.Qcabs (entry (matmul r r) i j - entry s i j) <= eps) /\
  (forall j, (j <= d)%nat -> Qcabs.Qcabs (entry r d j - entry s d j) <= delta).

(** No real matrix squares to [a]. *)
Definition no_real_root (a : arr) : Prop :=
  forall x, square_shape (List.length a) x -> matmul x x <> a.

End AffineAlgebra.

(** Running a built model on fed values: the output tensors are evaluated.
    Every layer is a total function of its inputs; none raises. *)
Definition predict (feed : kinput -> arr) (ext : layer -> list arr -> arr) (m : model)
  : result (list arr) :=
  Ok (map (eval feed ext) (outputs m)).

(* ================================================================== *)
(** ** The centering flag of the transform layers *)
(* ================================================================== *)

(** The [shift_center] argument of a layer that takes one: [Some None] when
    the call leaves it out. *)
Definition shift_center_arg (l : layer) : option (option bool) :=
  match l with
  | ComposeTransform sc => Some sc
  | SpatialTransformer _ _ _ sc => Some sc
  | AffineToDenseShift _ sc => Some sc
  | _ => None
  end.

(** The layer is not a transform layer, or it is built with an explicit
    [shift_center=False]. *)
Definition unshifted (l : layer) : bool :=
  match shift_center_arg l with
  | None => true
  | Some (Some false) => true
  | Some _ => false
  end.

(** Every transform layer below [t] is built with [shift_center=False]. *)
Definition all_unshifted (t : tensor) : bool := forallb unshifted (layers_of t).

(** The flag a layer runs under, given the default of its class. *)
Definition effective_shift_center (default : bool) (l : layer) : option bool :=
  match shift_center_arg l with
  | None => None
  | Some None => Some default
  | Some (Some b) => Some b
  end.

(* ================================================================== *)
(** ** Default arguments *)
(* ================================================================== *)

(** The defaults of [VxmDense.__init__], for an input shape. *)
Definition VxmDense_defaults (inshape : list Z) : VxmDenseArgs :=
  {| inshape := inshape;
     nb_unet_features := None;
     nb_unet_levels := None;
     unet_feat_mult := 1;
     nb_unet_conv_per_level := 1;
     int_steps := 7;
     svf_resolution := 1;
     int_resolution := 2;
     int_downsize := None;
     bidir := false;
     use_probs := false;
     src_feats := 1;
     trg_feats := 1;
     unet_half_res := false;
     input_model := None;
     hyp_model := None;
     fill_value := None;
     reg_field := "preintegrated";
     name := "vxm_dense" |}.

(** The defaults of [VxmAffineFeatureDetector.__init__]. *)
Definition Affine_defaults (in_shape : option (list Z)) : AffineArgs :=
  {| in_shape := in_shape;
     aff_input_model := None;
     num_chan := 1;
     num_feat := 64;
     enc_nf := repeat 256%Z 4;
     dec_nf := [];
     add_nf := repeat 256%Z 4;
     per_level := 1;
     dropout := 0;
     half_res := true;
     weighted := true;
     rigid := false;
     make_dense := true;
     aff_bidir := false;
     return_trans_to_mid_space := false;
     return_trans_to_half_res := false;
     return_moved := false;
     return_feat := false |}.

(** The defaults of [HyperVxmJoint.__init__]. *)
Definition Joint_defaults (in_shape : option (list Z)) : JointArgs :=
  {| j_in_shape := in_shape;
     j_input_model := None;
     j_num_chan := 1;
     hyp_num := 1;
     hyp_units := repeat 32%Z 4;
     j_enc_nf := repeat 256%Z 4;
     j_dec_nf := repeat 256%Z 4;
     j_add_nf := repeat 256%Z 4;
     j_per_level := 1;
     j_int_steps := 7;
     j_bidir := false;
     pass_affine := false;
     skip_affine := false;
     skip_deform := false;
     mid_space := false;
     j_return_trans_to_half_res := false;
     return_tot := true;
     return_def := false;
     return_aff := false;
     return_svf := false;
     j_return_moved := false;
     kwargs_aff := Affine_defaults None;
     kwargs_rest := [] |}.

(** A U-Net constructor to run the dense builders on: it accepts every
    configuration and its output has the given spatial size. *)
Definition unet_of_size (size : list Z) (a : UnetArgs) : result UnetModel :=
  Ok {| unet_output := Apply (Network (u_name a)) (outputs (u_input_model a));
        unet_out_size := size |}.

(** Shape inference that is never consulted: the examples below read
    shapes from input tensors only. *)
Definition no_infer (l : layer) (args : list tensor) : list Z := [].

(** [VxmDense(..., reg_field=rf)]: the arguments with another selector. *)
Definition with_reg_field (a : VxmDenseArgs) (rf : string) : VxmDenseArgs :=
  {| inshape := inshape a;
     nb_unet_features := nb_unet_features a;
     nb_unet_levels := nb_unet_levels a;
     unet_feat_mult := unet_feat_mult a;
     nb_unet_conv_per_level := nb_unet_conv_per_level a;
     int_steps := int_steps a;
     svf_resolution := svf_resolution a;
     int_resolution := int_resolution a;
     int_downsize := int_downsize a;
     bidir := bidir a;
     use_probs := use_probs a;
     src_feats := src_feats a;
     trg_feats := trg_feats a;
     unet_half_res := unet_half_res a;
     input_model := input_model a;
     hyp_model := hyp_model a;
     fill_value := fill_value a;
     reg_field := rf;
     name := name a |}.

(** [VxmDense(..., int_steps=n)] *)
Definition with_int_steps (a : VxmDenseArgs) (n : Z) : VxmDenseArgs :=
  {| inshape := inshape a;
     nb_unet_features := nb_unet_features a;
     nb_unet_levels := nb_unet_levels a;
     unet_feat_mult := unet_feat_mult a;
     nb_unet_conv_per_level := nb_unet_conv_per_level a;
     int_steps := n;
     svf_resolution := svf_resolution a;
     int_resolution := int_resolution a;
     int_downsize := int_downsize a;
     bidir := bidir a;
     use_probs := use_probs a;
     src_feats := src_feats a;
     trg_feats := trg_feats a;
     unet_half_res := unet_half_res a;
     input_model := input_model a;
     hyp_model := hyp_model a;
     fill_value := fill_value a;
     reg_field := reg_field a;
     name := name a |}.

(** The outputs of [VxmDense] before the regularization output is appended. *)
Definition warped_outputs (refs : VxmDenseRefs) : list tensor :=
  match ref_y_target refs with
  | Some y_target => [ref_y_source refs; y_target]
  | None => [ref_y_source refs]
  end.

(** The error of an unknown [reg_field]. *)
Definition unknown_reg_field (rf : string) : error :=
  ValueError ("Unknown option " ++ dquote ++ rf ++ dquote ++ " for reg_field.")%string.

(** Concrete arguments the theorems below are run on. *)

Definition dense_bogus_selector : VxmDenseArgs :=
  with_reg_field (VxmDense_defaults [4; 4]%Z) "Bogus".

Definition dense_zero_steps : VxmDenseArgs :=
  with_int_steps (VxmDense_defaults [4; 4]%Z) 0.

Definition instance_zero_steps : InstanceDenseArgs :=
  {| i_inshape := [4; 4]%Z;
     nb_feats := 1;
     mult := 1000;
     i_int_steps := 0;
     i_int_downsize := None;
     i_int_resolution := 2 |}.

(** [HyperVxmJoint(in_shape=(4, 4), int_steps=0, bidir=True,
    return_trans_to_half_res=True, return_tot=False, return_def=True,
    return_svf=True)] *)
Definition joint_zero_steps : JointArgs :=
  {| j_in_shape := Some [4; 4]%Z;
     j_input_model := None;
     j_num_chan := 1;
     hyp_num := 1;
     hyp_units := repeat 32%Z 4;
     j_enc_nf := repeat 256%Z 4;
     j_dec_nf := repeat 256%Z 4;
     j_add_nf := repeat 256%Z 4;
     j_per_level := 1;
     j_int_steps := 0;
     j_bidir := true;
     pass_affine := false;
     skip_affine := false;
     skip_deform := false;
     mid_space := false;
     j_return_trans_to_half_res := true;
     return_tot := false;
     return_def := true;
     return_aff := false;
     return_svf := true;
     j_return_moved := false;
     kwargs_aff := Affine_defaults None;
     kwargs_rest := [] |}.

(** *** The affine estimate inside the detector

    The tensors that [VxmAffineFeatureDetector] wires between the input
    images and its outputs, by the names of the source. *)

Section Estimate.

Variable compute_dtype : string.
Variable a : AffineArgs.
Variable shape_full : list Z.
Variables x_1 x_2 : tensor.        (* the two images of the input model *)

Let num_dim := List.length shape_full.

(** The image the feature detector sees. *)
Definition detector_input (x : tensor) : tensor :=
  if half_res a then to_half_res num_dim (floordiv2 shape_full) x else x.

Definition feat_1 : tensor := features compute_dtype (detector_input x_1).
Definition feat_2 : tensor := features compute_dtype (detector_input x_2).

(** The barycenter point sets of the two images and the channel weights. *)
Definition cen_1 : tensor := barycenters shape_full feat_1.
Definition cen_2 : tensor := barycenters shape_full feat_2.
Definition fit_weights : tensor := channel_weights feat_1 feat_2.

(** [aff_1] after "Least squares and average". *)
Definition averaged_affine : tensor :=
  least_squares_and_average (weighted a) cen_1 cen_2 fit_weights.

(** [aff_1] after "Remove scaling and shear". *)
Definition estimated_affine : tensor :=
  if rigid a then remove_scaling_and_shear num_dim averaged_affine else averaged_affine.

(** [ComposeTransform(shift_center=False)((un_cen(shape_full), t,
    cen(shape_full)))]: the transform in index space. *)
Definition index_space (t : tensor) : tensor :=
  Apply (ComposeTransform (Some false))
        [un_cen num_dim shape_full; t; cen num_dim shape_full].

(** The two matrix transforms of the detector, in index space. *)
Definition matrix_transforms : tensor * tensor :=
  let aff_1 := estimated_affine in
  let aff_2 := Apply InvertAffine [aff_1] in
  if return_trans_to_mid_space a
  then (index_space (mid_space_root aff_1), index_space (mid_space_root aff_2))
  else (index_space aff_1, index_space aff_2).

End Estimate.

(** [VxmAffineFeatureDetector(in_shape=(4, 4), make_dense=False, rigid=...,
    return_trans_to_mid_space=..., bidir=...)] *)
Definition affine_matrix_args (rigid mid bidir : bool) : AffineArgs :=
  {| in_shape := Some [4; 4]%Z;
     aff_input_model := None;
     num_chan := 1;
     num_feat := 64;
     enc_nf := repeat 256%Z 4;
     dec_nf := [];
     add_nf := repeat 256%Z 4;
     per_level := 1;
     dropout := 0;
     half_res := true;
     weighted := true;
     rigid := rigid;
     make_dense := false;
     aff_bidir := bidir;
     return_trans_to_mid_space := mid;
     return_trans_to_half_res := false;
     return_moved := false;
     return_feat := false |}.

(** The two input images of that detector. *)
Definition image_1 : tensor := Input (KInput "inp_1" [4; 4; 1]%Z).
Definition image_2 : tensor := Input (KInput "inp_2" [4; 4; 1]%Z).

(** [HyperVxmJoint(in_shape=(4, 4), bidir=True, return_tot=False,
    return_svf=True)] *)
Definition joint_svf_args : JointArgs :=
  {| j_in_shape := Some [4; 4]%Z;
     j_input_model := None;
     j_num_chan := 1;
     hyp_num := 1;
     hyp_units := repeat 32%Z 4;
     j_enc_nf := repeat 256%Z 4;
     j_dec_nf := repeat 256%Z 4;
     j_add_nf := repeat 256%Z 4;
     j_per_level := 1;
     j_int_steps := 7;
     j_bidir := true;
     pass_affine := false;
     skip_affine := false;
     skip_deform := false;
     mid_space := false;
     j_return_trans_to_half_res := false;
     return_tot := false;
     return_def := false;
     return_aff := false;
     return_svf := true;
     j_return_moved := false;
     kwargs_aff := Affine_defaults None;
     kwargs_rest := [] |}.

(** Integer entries of a matrix. *)
Definition matrix_of (rows : list (list Z)) : arr :=
  map (map (fun z => Q2Qc (inject_Z z))) rows.

Definition matrix_of_row (row : list Z) : list Qc :=
  map (fun z => Q2Qc (inject_Z z)) row.

(** The scaling by 4 and 9 with translation (3, 8), and its root. *)
Definition scaling_2d : arr := matrix_of [[4; 0; 3]; [0; 9; 8]]%Z.
Definition scaling_2d_root : arr := matrix_of [[2; 0; 1]; [0; 3; 2]; [0; 0; 1]]%Z.

(** The scaling by 2 and 9 with translation (3, 8), whose root has the
    irrational entry [sqrt 2], and a root of it up to rounding: 1393/985
    stands for [sqrt 2], and the last row is off by one millionth. *)
Definition scaling_by_two : arr := matrix_of [[2; 0; 3]; [0; 9; 8]]%Z.
Definition rounded_root : arr :=
  map (map Q2Qc)
      [[1393 # 985; 0; 2955 # 2378]; [0; 3; 2]; [0; 0; 1000001 # 1000000]]%Q.

(** The reflection of the first axis in two dimensions. *)
Definition reflection_2d : arr := matrix_of [[-1; 0; 0]; [0; 1; 0]]%Z.

(** Layers under which the detector estimates [reflection_2d]: both fits
    return the reflection, which is its own inverse; [root] stands for
    [tf.linalg.sqrtm]. *)
Definition reflecting_layers (root : arr -> arr) (l : layer) (xs : list arr) : arr :=
  match l, xs with
  | Lambda fit_affine, _ => reflection_2d
  | InvertAffine, [x] => x
  | Lambda make_square_affine, [x] => AffineAlgebra.make_square_affine x
  | Lambda sqrtm, [x] => root x
  | _, _ => hd [] xs
  end.

(** Decidable equality of arrays. *)
Fixpoint list_eqb {A : Type} (eqb : A -> A -> bool) (u v : list A) : bool :=
  match u, v with
  | [], [] => true
  | a :: u', b :: v' => eqb a b && list_eqb eqb u' v'
  | _, _ => false
  end.

Definition arr_eqb : arr -> arr -> bool := list_eqb (list_eqb Qc_eq_bool).

(** [InstanceDense(inshape=(4, 4), mult=...)], other arguments at their
    defaults. *)
Definition instance_args (mult : Q) : InstanceDenseArgs :=
  {| i_inshape := [4; 4]%Z;
     nb_feats := 1;
     mult := mult;
     i_int_steps := 7;
     i_int_downsize := None;
     i_int_resolution := 2 |}.

(** Constant fields over a single voxel, for the accumulator. *)
Definition constant_field (q : Z) : field unit := fun _ => Q2Qc (inject_Z q).

(** [HyperVxmJoint(in_shape=(4, 4), skip_deform=True)] *)
Definition joint_skip_deform : JointArgs :=
  {| j_in_shape := Some [4; 4]%Z;
     j_input_model := None;
     j_num_chan := 1;
     hyp_num := 1;
     hyp_units := repeat 32%Z 4;
     j_enc_nf := repeat 256%Z 4;
     j_dec_nf := repeat 256%Z 4;
     j_add_nf := repeat 256%Z 4;
     j_per_level := 1;
     j_int_steps := 7;
     j_bidir := false;
     pass_affine := false;
     skip_affine := false;
     skip_deform := true;
     mid_space := false;
     j_return_trans_to_half_res := false;
     return_tot := true;
     return_def := false;
     return_aff := false;
     return_svf := false;
     j_return_moved := false;
     kwargs_aff := Affine_defaults None;
     kwargs_rest := [] |}.

(** The tensor is a constant matrix or a composition of matrices: its
    value is a matrix, not a dense field. *)
Fixpoint is_matrix (t : tensor) : bool :=
  match t with
  | Input _ => false
  | Apply l args =>
      match l with
      | Constant _ => true
      | Average | InvertAffine | ParamsToAffineMatrix _ => true
      | Lambda fit_affine => true
      | ComposeTransform _ => forallb is_matrix args
      | _ => false
      end
  end.

(* ================================================================== *)
(** ** Further arguments and builders *)
(* ================================================================== *)

(** [VxmDense(..., svf_resolution=r)], [VxmDense(..., bidir=b)],
    [VxmDense(..., use_probs=b)] and [VxmDense(..., hyp_model=h)]: the
    arguments with one of them replaced. *)
Definition with_svf_resolution (a : VxmDenseArgs) (r : Q) : VxmDenseArgs :=
  {| inshape := inshape a;
     nb_unet_features := nb_unet_features a;
     nb_unet_levels := nb_unet_levels a;
     unet_feat_mult := unet_feat_mult a;
     nb_unet_conv_per_level := nb_unet_conv_per_level a;
     int_steps := int_steps a;
     svf_resolution := r;
     int_resolution := int_resolution a;
     int_downsize := int_downsize a;
     bidir := bidir a;
     use_probs := use_probs a;
     src_feats := src_feats a;
     trg_feats := trg_feats a;
     unet_half_res := unet_half_res a;
     input_model := input_model a;
     hyp_model := hyp_model a;
     fill_value := fill_value a;
     reg_field := reg_field a;
     name := name a |}.

Definition with_bidir (a : VxmDenseArgs) (b : bool) : VxmDenseArgs :=
  {| inshape := inshape a;
     nb_unet_features := nb_unet_features a;
     nb_unet_levels := nb_unet_levels a;
     unet_feat_mult := unet_feat_mult a;
     nb_unet_conv_per_level := nb_unet_conv_per_level a;
     int_steps := int_steps a;
     svf_resolution := svf_resolution a;
     int_resolution := int_resolution a;
     int_downsize := int_downsize a;
     bidir := b;
     use_probs := use_probs a;
     src_feats := src_feats a;
     trg_feats := trg_feats a;
     unet_half_res := unet_half_res a;
     input_model := input_model a;
     hyp_model := hyp_model a;
     fill_value := fill_value a;
     reg_field := reg_field a;
     name := name a |}.

Definition with_use_probs (a : VxmDenseArgs) (b : bool) : VxmDenseArgs :=
  {| inshape := inshape a;
     nb_unet_features := nb_unet_features a;
     nb_unet_levels := nb_unet_levels a;
     unet_feat_mult := unet_feat_mult a;
     nb_unet_conv_per_level := nb_unet_conv_per_level a;
     int_steps := int_steps a;
     svf_resolution := svf_resolution a;
     int_resolution := int_resolution a;
     int_downsize := int_downsize a;
     bidir := bidir a;
     use_probs := b;
     src_feats := src_feats a;
     trg_feats := trg_feats a;
     unet_half_res := unet_half_res a;
     input_model := input_model a;
     hyp_model := hyp_model a;
     fill_value := fill_value a;
     reg_field := reg_field a;
     name := name a |}.

Definition with_hyp_model (a : VxmDenseArgs) (h : option (kinput * tensor)) : VxmDenseArgs :=
  {| inshape := inshape a;
     nb_unet_features := nb_unet_features a;
     nb_unet_levels := nb_unet_levels a;
     unet_feat_mult := unet_feat_mult a;
     nb_unet_conv_per_level := nb_unet_conv_per_level a;
     int_steps := int_steps a;
     svf_resolution := svf_resolution a;
     int_resolution := int_resolution a;
     int_downsize := int_downsize a;
     bidir := bidir a;
     use_probs := use_probs a;
     src_feats := src_feats a;
     trg_feats := trg_feats a;
     unet_half_res := unet_half_res a;
     input_model := input_model a;
     hyp_model := h;
     fill_value := fill_value a;
     reg_field := reg_field a;
     name := name a |}.

(** A chain of one-input layers applied to a tensor, the outermost first. *)
Definition apply_chain (ls : list layer) (t : tensor) : tensor :=
  fold_right (fun l t => Apply l [t]) t ls.

(** The layers that resample or integrate a field. *)
Definition is_field_op (l : layer) : bool :=
  match l with
  | VecInt _ _ | RescaleTransform _ => true
  | _ => false
  end.

(** The product of the [RescaleTransform] factors of a chain. *)
Fixpoint chain_factor (ls : list layer) : Q :=
  match ls with
  | [] => 1
  | RescaleTransform f :: ls' => f * chain_factor ls'
  | _ :: ls' => chain_factor ls'
  end.

(** The resolutions [VxmDense.__init__] works with, once the deprecated
    arguments have overridden them ([int_resolution = int_downsize],
    [svf_resolution = 2] under [unet_half_res]). *)
Definition effective_int_resolution (a : VxmDenseArgs) : Q :=
  match int_downsize a with Some d => d | None => int_resolution a end.

Definition effective_svf_resolution (a : VxmDenseArgs) : Q :=
  if unet_half_res a then 2 else svf_resolution a.

(* ================================================================== *)
(** ** Prediction and the methods of VxmDense *)
(* ================================================================== *)

(** [model.predict(xs)] feeds the i-th array to the i-th input. *)
Fixpoint feed_of (ins : list kinput) (xs : list arr) (i : kinput) : arr :=
  match ins, xs with
  | j :: ins', x :: xs' =>
      if String.eqb (input_name j) (input_name i) then x else feed_of ins' xs' i
  | _, _ => []
  end.

(** [model.predict(xs)]: Keras refuses a list whose length is not the
    number of inputs of the model. *)
Definition predict_on (ext : layer -> list arr -> arr) (m : model) (xs : list arr)
  : result (list arr) :=
  if Nat.eqb (List.length (inputs m)) (List.length xs)
  then predict (feed_of (inputs m) xs) ext m
  else Raise (ValueError "Layer expects a different number of inputs").

(** The input tensors a tensor is computed from. *)
Fixpoint inputs_of (t : tensor) : list kinput :=
  match t with
  | Input i => [i]
  | Apply _ args => flat_map inputs_of args
  end.

(** The graph of [t] hangs on the inputs [ins] only. *)
Definition depends_only_on (ins : list kinput) (t : tensor) : bool :=
  forallb (fun i => is_among i ins) (inputs_of t).

(** The outputs of the model hang on its own inputs: Keras can build it. *)
Definition closed_model (m : model) : bool :=
  forallb (depends_only_on (inputs m)) (outputs m).

(** [VxmDense.get_registration_model]: "Returns a reconfigured model to
    predict only the final transform." *)
Definition get_registration_model (self : VxmDenseModel) : model :=
  Model (inputs (vxm_model self)) [ref_pos_flow (references self)].

(** [VxmDense.register]: "Predicts the transform from src to trg tensors." *)
Definition register (ext : layer -> list arr -> arr) (self : VxmDenseModel) (src trg : arr)
  : result (list arr) :=
  predict_on ext (get_registration_model self) [src; trg].

(** [VxmDense.apply_transform]: "Predicts the transform from src to trg and
    applies it to the img tensor."  [img_input] is
    [tf.keras.Input(shape=img.shape[1:])], which Keras names. *)
Definition apply_transform (ext : layer -> list arr -> arr) (self : VxmDenseModel)
    (src trg img : arr) (img_input : kinput) (interp_method : string)
  : result (list arr) :=
  let warp_model := get_registration_model self in
  output <- index0 (outputs warp_model) ;;
  let st_input := [Input img_input; output] in
  let y_img := Apply (SpatialTransformer (Some interp_method) None None None) st_input in
  predict_on ext (Model (inputs warp_model ++ [img_input])%list [y_img]) [src; trg; img].

(** The two inputs [VxmDense] creates when it is given no input model. *)
Definition default_source_input (a : VxmDenseArgs) : kinput :=
  KInput (name a ++ "_source_input")%string (inshape a ++ [src_feats a])%list.

Definition default_target_input (a : VxmDenseArgs) : kinput :=
  KInput (name a ++ "_target_input")%string (inshape a ++ [trg_feats a])%list.

(** Data the theorems are run on: a hypernetwork of one input, layers that
    pass their first argument on, and three one-entry images. *)
Definition hyper_input : kinput := KInput "hyp_input" [1%Z].

Definition dense_hyper : VxmDenseArgs :=
  with_hyp_model (VxmDense_defaults [4; 4]%Z)
                 (Some (hyper_input, Apply (Network "hypernet") [Input hyper_input])).

Definition first_argument (l : layer) (xs : list arr) : arr := hd [] xs.

Definition pixel (z : Z) : arr := [[Q2Qc (inject_Z z)]].

Definition image_input : kinput := KInput "input_1" [4; 4; 1]%Z.

(* ================================================================== *)
(** ** Transform *)
(* ================================================================== *)

(** A Python number: an [int] or a [float]. *)
Inductive number : Type :=
| PyInt (n : Z)
| PyFloat (q : Q).

Definition number_value (x : number) : Q :=
  match x with
  | PyInt n => inject_Z n
  | PyFloat q => q
  end.

(** [d / x] for an integer [d]: true division. *)
Definition truediv (d : Z) (x : number) : result Q :=
  match x with
  | PyInt n => if (n =? 0)%Z then Raise (ZeroDivisionError "division by zero")
               else Ok (inject_Z d / inject_Z n)%Q
  | PyFloat q => if Qeq_bool q 0 then Raise (ZeroDivisionError "float division by zero")
                 else Ok (inject_Z d / q)%Q
  end.

(** A list comprehension whose body may raise. *)
Fixpoint mapM {A B : Type} (f : A -> result B) (l : list A) : result (list B) :=
  match l with
  | [] => Ok []
  | x :: l' => y <- f x ;; ys <- mapM f l' ;; Ok (y :: ys)
  end.

Record TransformArgs : Type := {
  tr_inshape : list Z;
  tr_affine : bool;
  tr_interp_method : string;
  tr_rescale : option number;
  tr_fill_value : option Q;
  tr_nb_feats : Z
}.

(** [Transform.__init__]: "Simple transform model to apply dense or affine
    transforms."  The only failure of the constructor's own code is the
    division by [rescale]; what [tf.keras.Input], [RescaleTransform] and
    [SpatialTransformer] refuse (an unknown [interp_method], more than
    three axes) is not checked here, so [Ok] stands for a constructor that
    runs through provided that Keras builds every layer. *)
Definition Transform (a : TransformArgs) : result model :=
  (* configure inputs *)
  let ndims := List.length (tr_inshape a) in
  let scan_input := KInput "scan_input" (tr_inshape a ++ [tr_nb_feats a])%list in
  trf_input <-
    (if tr_affine a
     then Ok (KInput "trf_input" [Z.of_nat ndims; Z.of_nat (ndims + 1)])
     else
       trf_shape <- match tr_rescale a with
                    | None => Ok (tr_inshape a)
                    | Some rescale =>
                        mapM (fun d => q <- truediv d rescale ;; Ok (py_int q)) (tr_inshape a)
                    end ;;
       Ok (KInput "trf_input" (trf_shape ++ [Z.of_nat ndims])%list)) ;;
  let trf_scaled :=
    match tr_rescale a with
    | None => Input trf_input
    | Some rescale => Apply (RescaleTransform (number_value rescale)) [Input trf_input]
    end in
  (* transform and initialize the keras model *)
  let trf_layer := SpatialTransformer (Some (tr_interp_method a)) (tr_fill_value a) None None in
  let y_source := Apply trf_layer [Input scan_input; trf_scaled] in
  Ok (Model [scan_input; trf_input] [y_source]).

(** [InstanceDense.get_registration_model] and [InstanceDense.register]. *)
Definition instance_get_registration_model (self : InstanceDenseModel) : model :=
  Model (inputs (inst_model self)) [inst_pos_flow self].

Definition instance_register (ext : layer -> list arr -> arr) (self : InstanceDenseModel)
    (src : arr) : result (list arr) :=
  predict_on ext (instance_get_registration_model self) [src].

(* ================================================================== *)
(** ** VxmDenseSemiSupervisedSeg *)
(* ================================================================== *)

Record SegArgs : Type := {
  seg_inshape : list Z;
  nb_labels : Z;
  seg_nb_unet_features : option unet_features;
  seg_resolution : number;
  seg_downsize : option number;
  seg_bidir : bool;
  bidir_labels : bool;
  seg_name : string;
  seg_kwargs : VxmDenseArgs              (* forwarded to the internal VxmDense model *)
}.

(** [VxmDense(inshape, nb_unet_features=..., bidir=bidir, **kwargs)] *)
Definition seg_vxm_args
    (inshape : list Z) (feats : option unet_features) (bidir : bool) (k : VxmDenseArgs)
  : VxmDenseArgs :=
  {| inshape := inshape;
     nb_unet_features := feats;
     nb_unet_levels := nb_unet_levels k;
     unet_feat_mult := unet_feat_mult k;
     nb_unet_conv_per_level := nb_unet_conv_per_level k;
     int_steps := int_steps k;
     svf_resolution := svf_resolution k;
     int_resolution := int_resolution k;
     int_downsize := int_downsize k;
     bidir := bidir;
     use_probs := use_probs k;
     src_feats := src_feats k;
     trg_feats := trg_feats k;
     unet_half_res := unet_half_res k;
     input_model := input_model k;
     hyp_model := hyp_model k;
     fill_value := fill_value k;
     reg_field := reg_field k;
     name := name k |}.

(** The model object: the graph and [self.references]. *)
Record SegModel : Type := {
  seg_model : model;
  seg_vxm_model : VxmDenseModel;         (* references.vxm_model *)
  seg_pos_flow : tensor;                 (* references.pos_flow *)
  seg_neg_flow : option tensor           (* references.neg_flow *)
}.

Section SemiSupervisedSeg.

Variable Unet : UnetArgs -> result UnetModel.

(** [VxmDenseSemiSupervisedSeg.__init__].  At resolution 0 NumPy's quotient
    [np.array(inshape) / seg_resolution] is not finite and its integer cast is
    left to the platform; Python's [1 / seg_resolution] then raises. *)
Definition VxmDenseSemiSupervisedSeg (a : SegArgs) : result SegModel :=
  (* if bidir_labels, make sure bidir is also enabled *)
  let bidir := if bidir_labels a then true else seg_bidir a in
  let seg_resolution :=
    match seg_downsize a with Some d => d | None => seg_resolution a end in
  (* configure base voxelmorph network *)
  vxm <- VxmDense Unet (seg_vxm_args (seg_inshape a) (seg_nb_unet_features a)
                                           bidir (seg_kwargs a)) ;;
  (* configure downsampled seg input layer *)
  let inshape_ds :=
    map (fun d => py_int (inject_Z d / number_value seg_resolution)%Q) (seg_inshape a) in
  let seg_src := KInput (seg_name a ++ "_source_seg")%string (inshape_ds ++ [nb_labels a])%list in
  (* configure warped seg output layer *)
  factor <- truediv 1 seg_resolution ;;
  let seg_flow := Apply (RescaleTransform factor) [ref_pos_flow (references vxm)] in
  let y_seg_src := Apply (SpatialTransformer (Some "linear"%string) None None None)
                         [Input seg_src; seg_flow] in
  let inputs := (inputs (vxm_model vxm) ++ [seg_src])%list in
  let outputs := (outputs (vxm_model vxm) ++ [y_seg_src])%list in
  st <- (if bidir_labels a then
           (* target seg input *)
           let seg_trg :=
             KInput (seg_name a ++ "_target_seg")%string (inshape_ds ++ [nb_labels a])%list in
           (* warp labels bidirectionally *)
           neg_flow <- neg_flow_of vxm ;;
           let neg_seg_flow := Apply (RescaleTransform factor) [neg_flow] in
           let y_seg_trg := Apply (SpatialTransformer (Some "linear"%string) None None None)
                                  [Input seg_trg; neg_seg_flow] in
           Ok ((inputs ++ [seg_trg])%list, (outputs ++ [y_seg_trg])%list)
         else Ok (inputs, outputs)) ;;
  let '(inputs, outputs) := st in
  (* initialize the keras model *)
  Ok {| seg_model := Model inputs outputs;
        seg_vxm_model := vxm;
        seg_pos_flow := ref_pos_flow (references vxm);
        seg_neg_flow := ref_neg_flow (references vxm) |}.

End SemiSupervisedSeg.

(** [VxmDenseSemiSupervisedSeg.get_registration_model]: the model on
    [self.inputs[:2]]. *)
Definition seg_get_registration_model (self : SegModel) : model :=
  Model (firstn 2 (inputs (seg_model self))) [seg_pos_flow self].

(** [Transform(inshape, rescale=x, nb_feats=nb_feats)]: a dense transform
    with the default interpolation and no fill value. *)
Definition dense_transform_args (inshape : list Z) (x : number) (nb_feats : Z)
  : TransformArgs :=
  {| tr_inshape := inshape;
     tr_affine := false;
     tr_interp_method := "linear";
     tr_rescale := Some x;
     tr_fill_value := None;
     tr_nb_feats := nb_feats |}.

(** The resolution [InstanceDense.__init__] works with. *)
Definition instance_resolution (a : InstanceDenseArgs) : Q :=
  match i_int_downsize a with Some d => d | None => i_int_resolution a end.



(** [VxmDenseSemiSupervisedSeg((4, 4), nb_labels=3, bidir_labels=True)] *)
Definition seg_bidir_labels : SegArgs :=
  {| seg_inshape := [4; 4]%Z;
     nb_labels := 3;
     seg_nb_unet_features := None;
     seg_resolution := PyInt 2;
     seg_downsize := None;
     seg_bidir := false;
     bidir_labels := true;
     seg_name := "vxm_dense";
     seg_kwargs := VxmDense_defaults [4; 4]%Z |}.

(* ================================================================== *)
(** ** Methods and parts of the template models *)
(* ================================================================== *)

(** The input, the atlas and the stacked input model of
    [TemplateCreation.__init__]. *)
Definition template_source_input (a : TemplateArgs) : kinput :=
  KInput "source_input" (t_inshape a ++ [t_src_feats a])%list.

Definition template_atlas_tensor (a : TemplateArgs) : tensor :=
  Apply (LocalParamWithInput (t_inshape a ++ [atlas_feats a])%list 1%Q)
        [Input (template_source_input a)].

Definition template_inner_args (a : TemplateArgs) : VxmDenseArgs :=
  template_vxm_args (t_inshape a) (t_nb_unet_features a)
    (Model [template_source_input a]
           [template_atlas_tensor a; Input (template_source_input a)])
    (t_kwargs a).

(** [TemplateCreation.get_registration_model] and
    [TemplateCreation.register]; [pos_flow] is [self.references.pos_flow]. *)
Definition template_get_registration_model (self : model) (pos_flow : tensor) : model :=
  Model (inputs self) [pos_flow].

Definition template_register (ext : layer -> list arr -> arr) (self : model)
    (pos_flow : tensor) (src trg : arr) : result (list arr) :=
  predict_on ext (template_get_registration_model self pos_flow) [src; trg].

(** The inputs and the stacked input model of
    [ConditionalTemplateCreation.__init__]. *)
Definition conditional_inputs (a : ConditionalTemplateArgs) : list kinput :=
  let atlas_feats := match c_atlas_feats a with Some f => f | None => c_src_feats a end in
  [KInput "pheno_input" (pheno_input_shape a);
   KInput "atlas_input" (c_inshape a ++ [atlas_feats])%list;
   KInput "source_input" (c_inshape a ++ [c_src_feats a])%list].

Definition conditional_inner_args (a : ConditionalTemplateArgs) : VxmDenseArgs :=
  let atlas_feats := match c_atlas_feats a with Some f => f | None => c_src_feats a end in
  let atlas_input := KInput "atlas_input" (c_inshape a ++ [atlas_feats])%list in
  let source_input := KInput "source_input" (c_inshape a ++ [c_src_feats a])%list in
  let atlas_gen := Apply (Network "atlas_gen") [Input (KInput "pheno_input" (pheno_input_shape a))] in
  template_vxm_args (c_inshape a) (c_nb_unet_features a)
    (Model (conditional_inputs a)
           [Apply Add [Input atlas_input; atlas_gen]; Input source_input])
    (c_kwargs a).

(** [TemplateCreation((4, 4))] and [ConditionalTemplateCreation((4, 4), (2,))]
    with their defaults. *)
Definition template_defaults : TemplateArgs :=
  {| t_inshape := [4; 4]%Z;
     t_nb_unet_features := None;
     mean_cap := 100;
     atlas_feats := 1;
     t_src_feats := 1;
     t_kwargs := VxmDense_defaults [4; 4]%Z |}.

Definition conditional_defaults (templcondsi : bool) : ConditionalTemplateArgs :=
  {| c_inshape := [4; 4]%Z;
     pheno_input_shape := [2]%Z;
     c_nb_unet_features := None;
     c_src_feats := 1;
     c_atlas_feats := None;
     use_mean_stream := true;
     c_mean_cap := 100;
     templcondsi := templcondsi;
     c_kwargs := VxmDense_defaults [4; 4]%Z |}.

(** [ConditionalTemplateCreation((4, 4, 4, 4), (2,))] *)
Definition conditional_four_axes : ConditionalTemplateArgs :=
  {| c_inshape := [4; 4; 4; 4]%Z;
     pheno_input_shape := [2]%Z;
     c_nb_unet_features := None;
     c_src_feats := 1;
     c_atlas_feats := None;
     use_mean_stream := true;
     c_mean_cap := 100;
     templcondsi := false;
     c_kwargs := VxmDense_defaults [4; 4; 4; 4]%Z |}.

(* ================================================================== *)
(** ** Arguments of the affine and joint models *)
(* ================================================================== *)

(** [VxmAffineFeatureDetector(..., bidir=b)]: the arguments with another
    [bidir]. *)
Definition with_aff_bidir (a : AffineArgs) (b : bool) : AffineArgs :=
  {| in_shape := in_shape a;
     aff_input_model := aff_input_model a;
     num_chan := num_chan a;
     num_feat := num_feat a;
     enc_nf := enc_nf a;
     dec_nf := dec_nf a;
     add_nf := add_nf a;
     per_level := per_level a;
     dropout := dropout a;
     half_res := half_res a;
     weighted := weighted a;
     rigid := rigid a;
     make_dense := make_dense a;
     aff_bidir := b;
     return_trans_to_mid_space := return_trans_to_mid_space a;
     return_trans_to_half_res := return_trans_to_half_res a;
     return_moved := return_moved a;
     return_feat := return_feat a |}.

(** The number of output pairs: the transforms, the moved images and the
    feature maps. *)
Definition affine_output_pairs (a : AffineArgs) : nat :=
  1 + (if return_moved a then 1 else 0) + (if return_feat a then 1 else 0).

(* ================================================================== *)
(** ** Unet and its blocks *)
(* ================================================================== *)

(** The layers of the U-Net, with the arguments the blocks pass.  The
    convolutions have [kernel_size=3] and [padding='same']; [strides] is 1
    where the call leaves it out. *)
Inductive klayer : Type :=
| KConv (ndims : Z) (nfeat : Z) (strides : Z) (name : option string)
        (kernel_initializer : string)          (* KL.Conv%dD(nfeat, kernel_size=3, padding='same') *)
| KHyperConv (ndims : Z) (nfeat : Z) (strides : Z) (name : option string)
                                               (* ne.layers.HyperConv%dDFromDense *)
| KResAdd                                      (* KL.Lambda(lambda x: x[0] + x[1]) *)
| KLeakyReLU (alpha : Q) (name : option string)
| KMaxPooling (ndims : Z) (pool_size : Z) (name : string)
| KUpSampling (ndims : Z) (size : Z) (name : option string)
| KConcatenate (name : option string)
| KActivation (activation : string) (name : string).

(** The tensors of the U-Net: its own input, a tensor of the input model or
    of the hypernetwork, and layer outputs. *)
Inductive knode : Type :=
| KIn (i : kinput)
| KOuter (t : tensor)
| KApply (l : klayer) (args : list knode).

Section KerasShapes.

(** Shape inference for the tensors of the input model. *)
Variable infer : layer -> list tensor -> list Z.

(** [len(x.get_shape())]: every layer of the U-Net keeps the rank of its
    first argument. *)
Fixpoint rank (x : knode) : nat :=
  match x with
  | KIn i => S (List.length (input_shape i))
  | KOuter t => S (List.length (static_shape infer t))
  | KApply _ args =>
      match args with
      | x' :: _ => rank x'
      | [] => 0
      end
  end.

(** [x.get_shape().as_list()[-1]]: a convolution has [nfeat] channels, a
    concatenation the sum of the channels of its arguments, every other layer
    those of its first argument. *)
Fixpoint channels (x : knode) : Z :=
  match x with
  | KIn i => last (input_shape i) 0%Z
  | KOuter t => last (static_shape infer t) 0%Z
  | KApply l args =>
      match l with
      | KConv _ nfeat _ _ _ | KHyperConv _ nfeat _ _ => nfeat
      | KConcatenate _ => fold_right Z.add 0%Z (map channels args)
      | _ => match args with
             | x' :: _ => channels x'
             | [] => 0%Z
             end
      end
  end.

(** ['%d' % n] for an integer. *)
Definition fmt_dZ (n : Z) : string :=
  if (n <? 0)%Z then ("-" ++ fmt_d (Z.to_nat (- n)))%string else fmt_d (Z.to_nat n).

(** [len(x.get_shape()) - 2] and the assertion the blocks and [Unet] share. *)
Definition ndims_of (x : knode) : result Z :=
  let ndims := (Z.of_nat (rank x) - 2)%Z in
  assert_ (existsb (Z.eqb ndims) [1; 2; 3]%Z)
          ("ndims should be one of 1, 2, or 3. found: " ++ fmt_dZ ndims)%string ;;;
  Ok ndims.

(** [name + suffix if name else None] *)
Definition name_with (name : option string) (suffix : string) : option string :=
  match name with
  | Some n => if String.eqb n EmptyString then None else Some (n ++ suffix)%string
  | None => None
  end.

(** [_conv_block]: "Specific convolutional block followed by leakyrelu for
    unet." *)
Definition _conv_block (x : knode) (nfeat : Z) (strides : Z) (name : option string)
    (do_res : bool) (hyp_tensor : option tensor) (include_activation : bool)
    (kernel_initializer : string) : result knode :=
  ndims <- ndims_of x ;;
  let Conv strides name :=
    match hyp_tensor with
    | Some _ => KHyperConv ndims nfeat strides name
    | None => KConv ndims nfeat strides name kernel_initializer
    end in
  let conv_inputs :=
    match hyp_tensor with
    | Some hyp_tensor => [x; KOuter hyp_tensor]
    | None => [x]
    end in
  let convolved := KApply (Conv strides name) conv_inputs in
  convolved <-
    (if do_res then
       add_layer <-
         (if negb (nfeat =? channels x)%Z then
            match name with
            | Some n => Ok (KApply (Conv 1%Z (Some ("resfix_" ++ n)%string)) conv_inputs)
            | None => Raise (TypeError ("can only concatenate str (not " ++ dquote ++ "NoneType"
                                          ++ dquote ++ ") to str")%string)
            end
          else Ok x) ;;
       Ok (KApply KResAdd [add_layer; convolved])
     else Ok convolved) ;;
  if include_activation
  then Ok (KApply (KLeakyReLU (2 # 10) (name_with name "_activation")) [convolved])
  else Ok convolved.

(** [_upsample_block]: "Specific upsampling and concatenation layer for
    unet." *)
Definition _upsample_block (x connection : knode) (factor : Z) (name : option string)
  : result knode :=
  ndims <- ndims_of x ;;
  let upsampled := KApply (KUpSampling ndims factor name) [x] in
  Ok (KApply (KConcatenate (name_with name "_concat")) [upsampled; connection]).

(** [max_pool]: an integer or a list. *)
Inductive pool_arg : Type :=
| PoolInt (n : Z)
| PoolList (l : list Z).

(** The parameters of [Unet.__init__]. *)
Record UnetParams : Type := {
  p_inshape : option (list Z);
  p_input_model : option model;
  p_nb_features : option unet_features;
  p_nb_levels : option Z;
  p_max_pool : pool_arg;
  p_feat_mult : Z;
  p_nb_conv_per_level : Z;
  p_do_res : bool;
  p_nb_upsample_skips : Z;
  p_hyp_input : option kinput;
  p_hyp_tensor : option tensor;
  p_final_activation_function : option string;
  p_kernel_initializer : string;
  p_name : string
}.

(** The model [Unet] builds: its inputs and its output tensor. *)
Record UnetGraph : Type := {
  ug_inputs : list kinput;
  ug_output : knode
}.

(** The default features, from the class documentation: "encoder: [16, 32,
    32, 32], decoder: [32, 32, 32, 32, 32, 16, 16]"
    ([default_unet_features] is in another module). *)
Definition default_unet_features : list Z * list Z :=
  ([16; 32; 32; 32]%Z, [32; 32; 32; 32; 32; 16; 16]%Z).

(** [range(n)] *)
Definition range (n : Z) : list nat := seq 0 (Z.to_nat n).

(** A loop whose body may raise. *)
Fixpoint foldM {S A : Type} (f : S -> A -> result S) (l : list A) (s : S) : result S :=
  match l with
  | [] => Ok s
  | x :: l' => s' <- f s x ;; foldM f l' s'
  end.

(** [l[i]] for a non-negative index. *)
Definition item {A : Type} (l : list A) (i : nat) : result A :=
  match nth_error l i with
  | Some x => Ok x
  | None => Raise (IndexError "list index out of range")
  end.

(** [l.pop()]: the last element and the list without it. *)
Definition pop {A : Type} (l : list A) : result (A * list A) :=
  match rev l with
  | x :: _ => Ok (x, removelast l)
  | [] => Raise (IndexError "pop from empty list")
  end.

(** NumPy's 64-bit integers: their range, and the wrap-around of their
    arithmetic. *)
Definition in_int64 (z : Z) : bool := ((- 2 ^ 63 <=? z) && (z <? 2 ^ 63))%Z.

Definition wrap64 (z : Z) : Z :=
  ((z + 2 ^ 63) mod 2 ^ 64 - 2 ^ 63)%Z.

(** [np.repeat(a, n)] *)
Definition np_repeat (a : list Z) (n : Z) : result (list Z) :=
  if (n <? 0)%Z then Raise (ValueError "repeats may not contain negative values.")
  else Ok (flat_map (fun x => repeat x (Z.to_nat n)) a).

(** [[nb_features * feat_mult ** i for i in np.arange(nb_levels)]], on
    64-bit integers. *)
Definition level_features (nb_features feat_mult nb_levels : Z) : list Z :=
  map (fun i => wrap64 (nb_features * wrap64 (feat_mult ^ Z.of_nat i))) (range nb_levels).

(** The encoder and decoder features [Unet.__init__] works with. *)
Definition unet_feature_lists (p : UnetParams) : result (list Z * list Z) :=
  (* default encoder and decoder layer features if nothing provided *)
  let nb_features :=
    match p_nb_features p with
    | Some f => f
    | None => FeatLists (fst default_unet_features) (snd default_unet_features)
    end in
  (* build feature list automatically *)
  match nb_features with
  | FeatInt nb_features =>
      match p_nb_levels p with
      | None => Raise (ValueError "must provide unet nb_levels if nb_features is an integer")
      | Some nb_levels =>
          (if in_int64 nb_features && in_int64 (p_feat_mult p) then Ok tt
           else Raise (OverflowError "Python int too large to convert to C long")) ;;;
          let feats := level_features nb_features (p_feat_mult p) nb_levels in
          enc <- np_repeat (removelast feats) (p_nb_conv_per_level p) ;;
          dec <- np_repeat (rev feats) (p_nb_conv_per_level p) ;;
          Ok (enc, dec)
      end
  | FeatLists enc dec =>
      match p_nb_levels p with
      | Some _ => Raise (ValueError "cannot use nb_levels if nb_features is not an integer")
      | None => Ok (enc, dec)
      end
  end.

(** The state of the encoder and decoder loops: [last] and [enc_layers]. *)
Definition unet_state : Type := (knode * list knode)%type.

(** "have the option of specifying input shape or input model": the input
    tensor of the U-Net and the inputs of the model. *)
Definition unet_input_of (p : UnetParams) : result (knode * list kinput) :=
  match p_input_model p with
  | None =>
      match p_inshape p with
      | None => Raise (ValueError "inshape must be supplied if input_model is None")
      | Some inshape =>
          let unet_input := KInput (p_name p ++ "_input")%string inshape in
          Ok (KIn unet_input, [unet_input])
      end
  | Some input_model =>
      match outputs input_model with
      | [output] => Ok (KOuter output, inputs input_model)
      | outs =>
          Ok (KApply (KConcatenate (Some (p_name p ++ "_input_concat")%string))
                     (map KOuter outs),
              inputs input_model)
      end
  end.

(** "configure encoder (down-sampling path)" *)
Definition unet_encoder (p : UnetParams) (ndims : Z) (enc_nf max_pool : list Z)
    (nb_levels : Z) (unet_input : knode) : result unet_state :=
  let nb_conv_per_level := Z.to_nat (p_nb_conv_per_level p) in
  foldM
    (fun (st : unet_state) level =>
       let '(last, enc_layers) := st in
       last <- foldM
                 (fun last conv =>
                    nf <- item enc_nf (level * nb_conv_per_level + conv) ;;
                    let layer_name :=
                      (p_name p ++ "_enc_conv_" ++ fmt_d level ++ "_" ++ fmt_d conv)%string in
                    _conv_block last nf 1 (Some layer_name) (p_do_res p)
                                (p_hyp_tensor p) true (p_kernel_initializer p))
                 (range (p_nb_conv_per_level p)) last ;;
       let enc_layers := (enc_layers ++ [last])%list in
       (* temporarily use maxpool since downsampling doesn't exist in keras *)
       pool_size <- item max_pool level ;;
       let last :=
         KApply (KMaxPooling ndims pool_size
                             (p_name p ++ "_enc_pooling_" ++ fmt_d level)%string) [last] in
       Ok (last, enc_layers))
    (range (nb_levels - 1)) (unet_input, []).

(** "configure decoder (up-sampling path)" *)
Definition unet_decoder (p : UnetParams) (dec_nf final_convs max_pool : list Z)
    (nb_levels : Z) (st : unet_state) : result unet_state :=
  let nb_conv_per_level := Z.to_nat (p_nb_conv_per_level p) in
  (* if final_activation_function is set, we need to build a utility that checks
     which layer is truly the last, so we know not to apply the activation there *)
  let activate (lvl conv : nat) : bool :=
    match p_final_activation_function p, final_convs with
    | Some _, [] =>
        negb ((Z.of_nat lvl =? nb_levels - 2)%Z
              && (Z.of_nat conv =? p_nb_conv_per_level p - 1)%Z)
    | _, _ => true
    end in
  foldM
    (fun (st : unet_state) level =>
       let '(last, enc_layers) := st in
       let real_level := (nb_levels - Z.of_nat level - 2)%Z in
       last <- foldM
                 (fun last conv =>
                    nf <- item dec_nf (level * nb_conv_per_level + conv) ;;
                    let layer_name :=
                      (p_name p ++ "_dec_conv_" ++ fmt_dZ real_level ++ "_"
                       ++ fmt_d conv)%string in
                    _conv_block last nf 1 (Some layer_name) (p_do_res p)
                                (p_hyp_tensor p) (activate level conv)
                                (p_kernel_initializer p))
                 (range (p_nb_conv_per_level p)) last ;;
       (* upsample *)
       if (Z.of_nat level <? nb_levels - 1 - p_nb_upsample_skips p)%Z then
         let layer_name := (p_name p ++ "_dec_upsample_" ++ fmt_dZ real_level)%string in
         popped <- pop enc_layers ;;
         let '(connection, enc_layers) := popped in
         factor <- item max_pool (Z.to_nat real_level) ;;
         last <- _upsample_block last connection factor (Some layer_name) ;;
         Ok (last, enc_layers)
       else Ok (last, enc_layers))
    (range (nb_levels - 1)) st.

(** "now we take care of any remaining convolutions" *)
Definition unet_final_convs (p : UnetParams) (final_convs : list Z) (last : knode)
  : result knode :=
  (* now build function to check which of the 'final convs' is really the last *)
  let activate (n : nat) : bool :=
    match p_final_activation_function p with
    | Some _ => negb (Nat.eqb (S n) (List.length final_convs))
    | None => true
    end in
  foldM
    (fun last numbered =>
       let '(num, nf) := numbered in
       let layer_name := (p_name p ++ "_dec_final_conv_" ++ fmt_d num)%string in
       _conv_block last nf 1 (Some layer_name) false (p_hyp_tensor p)
                   (activate num) (p_kernel_initializer p))
    (combine (seq 0 (List.length final_convs)) final_convs) last.

(** [Unet.__init__].  The result is [Raise] where the code of the
    constructor and of the two blocks raises: a division, an index, an
    assertion.  The Keras layers are taken to accept what they are given:
    the sizes that pooling, upsampling and concatenation require of their
    inputs are not checked here, so [Ok] stands for a constructor that runs
    through provided that Keras builds every layer. *)
Definition Unet_init (p : UnetParams) : result UnetGraph :=
  st <- unet_input_of p ;;
  let '(unet_input, model_inputs) := st in
  (* add hyp_input tensor if provided *)
  let model_inputs :=
    match p_hyp_input p with
    | Some hyp_input =>
        if negb (is_among hyp_input model_inputs)
        then (model_inputs ++ [hyp_input])%list else model_inputs
    | None => model_inputs
    end in
  nb_features <- unet_feature_lists p ;;
  ndims <- ndims_of unet_input ;;
  (* extract any surplus (full resolution) decoder convolutions *)
  let '(enc_nf, dec_nf) := nb_features in
  let nb_dec_convs := List.length enc_nf in
  let final_convs := skipn nb_dec_convs dec_nf in
  let dec_nf := firstn nb_dec_convs dec_nf in
  quotient <- truediv (Z.of_nat nb_dec_convs) (PyInt (p_nb_conv_per_level p)) ;;
  let nb_levels := (py_int quotient + 1)%Z in
  let max_pool :=
    match p_max_pool p with
    | PoolInt n => repeat n (Z.to_nat nb_levels)
    | PoolList l => l
    end in
  st <- unet_encoder p ndims enc_nf max_pool nb_levels unet_input ;;
  st <- unet_decoder p dec_nf final_convs max_pool nb_levels st ;;
  let '(last, _) := st in
  last <- unet_final_convs p final_convs last ;;
  (* add the final activation function is set *)
  let last :=
    match p_final_activation_function p with
    | Some f => KApply (KActivation f (p_name p ++ "_final_activation")%string) [last]
    | None => last
    end in
  Ok {| ug_inputs := model_inputs; ug_output := last |}.

End KerasShapes.

(** [Unet(input_model=..., nb_features=..., nb_levels=..., feat_mult=...,
    nb_conv_per_level=..., nb_upsample_skips=..., hyp_input=...,
    hyp_tensor=..., name=...)]: the call of [VxmDense], every other
    parameter at its default. *)
Definition unet_call (a : UnetArgs) : UnetParams :=
  {| p_inshape := None;
     p_input_model := Some (u_input_model a);
     p_nb_features := u_nb_features a;
     p_nb_levels := u_nb_levels a;
     p_max_pool := PoolInt 2;
     p_feat_mult := u_feat_mult a;
     p_nb_conv_per_level := u_nb_conv_per_level a;
     p_do_res := false;
     p_nb_upsample_skips := u_nb_upsample_skips a;
     p_hyp_input := u_hyp_input a;
     p_hyp_tensor := u_hyp_tensor a;
     p_final_activation_function := None;
     p_kernel_initializer := "he_normal";
     p_name := u_name a |}.

(** *** Resolution levels *)

Definition option_Z_eqb (a b : option Z) : bool :=
  match a, b with
  | Some x, Some y => Z.eqb x y
  | None, None => true
  | _, _ => false
  end.

(** The common value of a list of levels, if they agree. *)
Definition agree (levels : list (option Z)) : option Z :=
  match levels with
  | l :: rest => if forallb (option_Z_eqb l) rest then l else None
  | [] => None
  end.

(** The resolution level of a U-Net tensor: the number of poolings minus the
    number of upsamplings between the input and the tensor, defined when
    every concatenation and residual sum on the way joins tensors of one
    level.  A hyper-convolution is at the level of the tensor it convolves. *)
Fixpoint level (x : knode) : option Z :=
  match x with
  | KIn _ | KOuter _ => Some 0%Z
  | KApply l args =>
      let levels := map level args in
      match l with
      | KMaxPooling _ _ _ => option_map Z.succ (hd None levels)
      | KUpSampling _ _ _ => option_map Z.pred (hd None levels)
      | KConcatenate _ | KResAdd => agree levels
      | _ => hd None levels
      end
  end.

(** The depth of the U-Net: the number of encoder levels that are pooled,
    [nb_levels - 1] when positive. *)
Definition unet_depth (enc_nf : list Z) (nb_conv_per_level : Z) : Z :=
  Z.max 0 (py_int (inject_Z (Z.of_nat (List.length enc_nf)) / inject_Z nb_conv_per_level)%Q).

(** The levels [0, ..., k - 1], those of the encoder outputs kept for the
    skip connections. *)
Definition levels_below (k : nat) : list (option Z) :=
  map (fun i => Some (Z.of_nat i)) (seq 0 k).

(** The pooling sizes are there for [depth] levels. *)
Definition pool_sizes_cover (max_pool : pool_arg) (depth : Z) : Prop :=
  match max_pool with
  | PoolInt _ => True
  | PoolList l => (depth <= Z.of_nat (List.length l))%Z
  end.

(** A U-Net for two 8 by 8 images, as [VxmDense] calls it: two encoder
    levels of one convolution, one surplus decoder convolution, and one
    upsampling skipped. *)
Definition small_input_model : model :=
  Model [KInput "source" [8; 8; 1]%Z; KInput "target" [8; 8; 1]%Z]
        [Input (KInput "source" [8; 8; 1]%Z); Input (KInput "target" [8; 8; 1]%Z)].

Definition small_unet : UnetArgs :=
  {| u_input_model := small_input_model;
     u_nb_features := Some (FeatLists [4; 8]%Z [8; 4; 2]%Z);
     u_nb_levels := None;
     u_feat_mult := 1;
     u_nb_conv_per_level := 1;
     u_nb_upsample_skips := 1;
     u_hyp_input := None;
     u_hyp_tensor := None;
     u_name := "unet" |}.

(** [Unet(..., nb_features=4, nb_levels=3, feat_mult=2,
    nb_conv_per_level=2)] on the small input model. *)
Definition integer_unet : UnetArgs :=
  {| u_input_model := small_input_model;
     u_nb_features := Some (FeatInt 4);
     u_nb_levels := Some 3%Z;
     u_feat_mult := 2;
     u_nb_conv_per_level := 2;
     u_nb_upsample_skips := 0;
     u_hyp_input := None;
     u_hyp_tensor := None;
     u_name := "unet" |}.

(* ================================================================== *)
(** * Theorems *)
(* ================================================================== *)

(** ** Inversion of the builders *)

Ltac bind_inv H :=
  repeat match type of H with
  | bind ?r _ = Ok _ =>
      let E := fresh "E" in destruct r eqn:E; cbn [bind] in H; [ | discriminate H ]
  end.

Ltac build_inv H :=
  repeat first
    [ progress bind_inv H
    | match type of H with
      | context [let '(_, _) := ?p in _] => destruct p
      end ].

Lemma VxmDense_inv {Unet a m} :
  VxmDense Unet a = Ok m ->
  exists inputs fp, VxmDense_tensors Unet a = Ok (inputs, fp, references m).
Proof.
  unfold VxmDense. intros H. build_inv H.
  injection H as <-. cbn. eauto.
Qed.

Lemma tensors_no_probs {Unet a inputs fp refs} :
  VxmDense_tensors Unet a = Ok (inputs, fp, refs) ->
  use_probs a = false -> fp = None.
Proof.
  intros H Hp. unfold VxmDense_tensors in H. rewrite Hp in H.
  build_inv H. injection H as _ <- _. reflexivity.
Qed.

Lemma tensors_zero_steps {Unet a inputs fp refs} :
  VxmDense_tensors Unet a = Ok (inputs, fp, refs) ->
  int_steps a = 0%Z ->
  ref_preint_flow refs = ref_svf refs /\
  ref_postint_flow refs = ref_svf refs /\
  ref_pos_flow refs = ref_svf refs /\
  ref_neg_flow refs = (if bidir a then Some (Apply Negate [ref_svf refs]) else None) /\
  ref_y_source refs =
    Apply (SpatialTransformer (Some "linear"%string) (fill_value a) None None)
          [ref_source refs; ref_svf refs].
Proof.
  intros H Hs. unfold VxmDense_tensors in H. rewrite Hs in H.
  cbn [Z.ltb Z.compare andb] in H.
  build_inv H.
  injection H as _ _ <-. cbn. auto.
Qed.

Lemma no_VecInt_apply (l : layer) (args : list tensor) :
  no_VecInt (Apply l args) = negb (is_VecInt l) && forallb no_VecInt args.
Proof.
  unfold no_VecInt. cbn [layers_of forallb]. f_equal.
  induction args as [ | t args IH ]; cbn; [ reflexivity | ].
  rewrite forallb_app, IH. reflexivity.
Qed.

Lemma select_unknown {rf : string} :
  rf <> "svf"%string -> rf <> "preintegrated"%string ->
  rf <> "postintegrated"%string -> rf <> "warp"%string ->
  String.eqb rf "svf" = false /\ String.eqb rf "preintegrated" = false /\
  String.eqb rf "postintegrated" = false /\ String.eqb rf "warp" = false.
Proof. intros. repeat split; apply String.eqb_neq; assumption. Qed.

(** ** The output-field selector of VxmDense *)

(** C7.  With [use_probs=False], a [reg_field] whose lower-cased value is
    none of ['svf'], ['preintegrated'], ['postintegrated'], ['warp'] never
    yields a model: once the graph is built, the constructor raises the
    [ValueError] that names the lower-cased option.  For the four valid
    values the model's outputs are the warped images followed by exactly the
    cached field of that name ([svf], [preint_flow], [postint_flow],
    [pos_flow]). *)
Theorem VxmDense_reg_field_selector :
  forall (Unet : UnetArgs -> result UnetModel) (a : VxmDenseArgs),
    use_probs a = false ->
    let rf := lower (reg_field a) in
    (rf <> "svf"%string -> rf <> "preintegrated"%string ->
     rf <> "postintegrated"%string -> rf <> "warp"%string ->
       (forall m, VxmDense Unet a <> Ok m) /\
       (forall inputs fp refs,
           VxmDense_tensors Unet a = Ok (inputs, fp, refs) ->
           VxmDense Unet a = Raise (unknown_reg_field rf))) /\
    (forall inputs fp refs,
        VxmDense_tensors Unet a = Ok (inputs, fp, refs) ->
        let built field :=
          Ok {| vxm_model := Model inputs (warped_outputs refs ++ [field]);
                references := refs |} in
        (rf = "svf"%string -> VxmDense Unet a = built (ref_svf refs)) /\
        (rf = "preintegrated"%string -> VxmDense Unet a = built (ref_preint_flow refs)) /\
        (rf = "postintegrated"%string -> VxmDense Unet a = built (ref_postint_flow refs)) /\
        (rf = "warp"%string -> VxmDense Unet a = built (ref_pos_flow refs))).
Proof.
  intros Unet a Hp rf. split.
  - intros H1 H2 H3 H4.
    destruct (select_unknown H1 H2 H3 H4) as (E1 & E2 & E3 & E4).
    assert (Hraise : forall inputs fp refs,
               VxmDense_tensors Unet a = Ok (inputs, fp, refs) ->
               VxmDense Unet a = Raise (unknown_reg_field rf)).
    { intros inputs fp refs Ht.
      pose proof (tensors_no_probs Ht Hp) as ->.
      unfold VxmDense. rewrite Ht. cbn [bind].
      fold rf. rewrite E1, E2, E3, E4. reflexivity. }
    split; [ | exact Hraise ].
    intros m Hm. destruct (VxmDense_inv Hm) as (inputs & fp & Ht).
    rewrite (Hraise _ _ _ Ht) in Hm. discriminate Hm.
  - intros inputs fp refs Ht built.
    pose proof (tensors_no_probs Ht Hp) as ->.
    unfold VxmDense. rewrite Ht. cbn [bind]. fold rf.
    repeat split; intros ->; reflexivity.
Qed.

(** The selector theorem at [reg_field='Bogus'] and at [reg_field='WARP'],
    on a 4 by 4 input. *)
Lemma VxmDense_reg_field_selector_witness :
  VxmDense (unet_of_size [4; 4]%Z) dense_bogus_selector
    = Raise (unknown_reg_field "bogus")
  /\ exists inputs fp refs,
       VxmDense_tensors (unet_of_size [4; 4]%Z)
                        (with_reg_field (VxmDense_defaults [4; 4]%Z) "WARP")
         = Ok (inputs, fp, refs)
       /\ VxmDense (unet_of_size [4; 4]%Z)
                   (with_reg_field (VxmDense_defaults [4; 4]%Z) "WARP")
          = Ok {| vxm_model := Model inputs (warped_outputs refs ++ [ref_pos_flow refs]);
                  references := refs |}.
Proof.
  split.
  - destruct (VxmDense_reg_field_selector (unet_of_size [4; 4]%Z) dense_bogus_selector
                eq_refl) as [Hbad _].
    destruct Hbad as [_ Hraise]; try (vm_compute; discriminate).
    eapply Hraise. vm_compute. reflexivity.
  - do 3 eexists. split; [ vm_compute; reflexivity | ].
    destruct (VxmDense_reg_field_selector (unet_of_size [4; 4]%Z)
                (with_reg_field (VxmDense_defaults [4; 4]%Z) "WARP") eq_refl)
      as [_ Hgood].
    eapply Hgood; vm_compute; reflexivity.
Defined.

(** ** Integration at zero steps *)

Lemma InstanceDense_zero_steps {a init m} :
  InstanceDense a init = Ok m ->
  i_int_steps a = 0%Z ->
  inst_pos_flow m = inst_preint_flow m /\
  forallb no_VecInt (outputs (inst_model m)) = true.
Proof.
  unfold InstanceDense. intros H Hs. rewrite Hs in H. cbn [Z.ltb Z.compare] in H.
  build_inv H. injection H as <-. split; reflexivity.
Qed.

Lemma HyperVxmJoint_zero_steps {dtype infer a m} :
  HyperVxmJoint dtype infer a = Ok m ->
  j_int_steps a = 0%Z ->
  j_return_trans_to_half_res a = true ->
  return_tot a = false -> return_def a = true -> return_aff a = false ->
  return_svf a = true -> j_return_moved a = false -> j_bidir a = true ->
  exists hyp_inp mov_1 mov_2,
    let '(svf_1, svf_2, def_1, def_2) := deformable_registration 0 hyp_inp mov_1 mov_2 in
    outputs m = [def_1; def_2; svf_1; svf_2] /\ def_1 = svf_1 /\ def_2 = svf_2.
Proof.
  unfold HyperVxmJoint. intros H Hs H1 H2 H3 H4 H5 H6 H7.
  rewrite Hs, H1, H2, H3, H4, H5, H6, H7 in H.
  destruct (pass_affine a), (skip_affine a), (skip_deform a), (mid_space a);
    cbn in H; build_inv H; try discriminate H.
  all: try (cbn in H; build_inv H; try discriminate H).
  all: injection H as <-; cbn; eexists _, _, _; repeat split.
Qed.

(** C2.  With an integration step count of 0 the displacement field is the
    velocity field itself.  In [VxmDense] the cached pre-integrated field,
    the integrated field and the final warp are all the tensor [svf], and
    the source is warped with it; in [InstanceDense] the warp is the output
    of the local parameter layer; in [HyperVxmJoint] [def_1] is [svf_1] and
    [def_2] is [svf_2], and these are the returned deformations.  No
    [VecInt] layer sits between the velocity field and the warp, so the two
    have the same value under every interpretation of the layers. *)
Theorem integration_passthrough_at_zero_steps :
  (forall Unet a m,
      VxmDense Unet a = Ok m -> int_steps a = 0%Z ->
      let r := references m in
      ref_preint_flow r = ref_svf r /\
      ref_postint_flow r = ref_svf r /\
      ref_pos_flow r = ref_svf r /\
      ref_neg_flow r = (if bidir a then Some (Apply Negate [ref_svf r]) else None) /\
      ref_y_source r = Apply (SpatialTransformer (Some "linear"%string) (fill_value a) None None)
                             [ref_source r; ref_svf r] /\
      (no_VecInt (ref_source r) = true -> no_VecInt (ref_svf r) = true ->
       no_VecInt (ref_y_source r) = true) /\
      forall feed ext, eval feed ext (ref_pos_flow r) = eval feed ext (ref_svf r)) /\
  (forall a init m,
      InstanceDense a init = Ok m -> i_int_steps a = 0%Z ->
      inst_pos_flow m = inst_preint_flow m /\
      forallb no_VecInt (outputs (inst_model m)) = true /\
      forall feed ext,
        eval feed ext (inst_pos_flow m) = eval feed ext (inst_preint_flow m)) /\
  (forall hyp_inp mov_1 mov_2,
      let '(svf_1, svf_2, def_1, def_2) :=
        deformable_registration 0 hyp_inp mov_1 mov_2 in
      def_1 = svf_1 /\ def_2 = svf_2) /\
  (forall dtype infer a m,
      HyperVxmJoint dtype infer a = Ok m ->
      j_int_steps a = 0%Z ->
      j_return_trans_to_half_res a = true ->
      return_tot a = false -> return_def a = true -> return_aff a = false ->
      return_svf a = true -> j_return_moved a = false -> j_bidir a = true ->
      exists svf_1 svf_2, outputs m = [svf_1; svf_2; svf_1; svf_2]).
Proof.
  split; [ | split; [ | split ] ].
  - intros Unet a m H Hs r. subst r.
    destruct (VxmDense_inv H) as (i & fp & Ht).
    destruct (tensors_zero_steps Ht Hs) as (H1 & H2 & H3 & H4 & H5).
    repeat (split; [ assumption | ]).
    split.
    + intros Hsrc Hsvf. rewrite H5, no_VecInt_apply. cbn [is_VecInt negb forallb andb].
      rewrite Hsrc, Hsvf. reflexivity.
    + intros feed ext. rewrite H3. reflexivity.
  - intros a init m H Hs.
    destruct (InstanceDense_zero_steps H Hs) as [Hpos Hout].
    split; [ exact Hpos | ]. split; [ exact Hout | ].
    intros feed ext. rewrite Hpos. reflexivity.
  - intros hyp_inp mov_1 mov_2. cbn. split; reflexivity.
  - intros dtype infer a m H Hs H1 H2 H3 H4 H5 H6 H7.
    destruct (HyperVxmJoint_zero_steps H Hs H1 H2 H3 H4 H5 H6 H7)
      as (hyp_inp & mov_1 & mov_2 & Hout).
    cbn in Hout. destruct Hout as (Hout & _ & _).
    eexists _, _. exact Hout.
Qed.

(** The passthrough theorem on 4 by 4 inputs with [int_steps=0]. *)
Lemma integration_passthrough_at_zero_steps_witness :
  (exists m, VxmDense (unet_of_size [4; 4]%Z) dense_zero_steps = Ok m /\
             ref_pos_flow (references m) = ref_svf (references m)) /\
  (exists m, InstanceDense instance_zero_steps [] = Ok m /\
             inst_pos_flow m = inst_preint_flow m) /\
  (exists m svf_1 svf_2,
      HyperVxmJoint "float32" no_infer joint_zero_steps = Ok m /\
      outputs m = [svf_1; svf_2; svf_1; svf_2]).
Proof.
  destruct integration_passthrough_at_zero_steps as (Hd & Hi & _ & Hj).
  split; [ | split ].
  - destruct (VxmDense (unet_of_size [4; 4]%Z) dense_zero_steps) as [m | e] eqn:E;
      [ | vm_compute in E; discriminate E ].
    exists m. split; [ reflexivity | ].
    exact (proj1 (proj2 (proj2 (Hd _ _ _ E eq_refl)))).
  - destruct (InstanceDense instance_zero_steps []) as [m | e] eqn:E;
      [ | vm_compute in E; discriminate E ].
    exists m. split; [ reflexivity | ].
    exact (proj1 (Hi _ _ _ E eq_refl)).
  - destruct (HyperVxmJoint "float32" no_infer joint_zero_steps) as [m | e] eqn:E;
      [ | vm_compute in E; discriminate E ].
    destruct (Hj _ _ _ _ E eq_refl eq_refl eq_refl eq_refl eq_refl eq_refl eq_refl eq_refl)
      as (s1 & s2 & Hout).
    exists m, s1, s2. split; [ reflexivity | exact Hout ].
Defined.

(** ** The affine feature detector *)

(** With matrix outputs only, the detector returns the transforms of
    [matrix_transforms]: both of them under [bidir], else the first. *)
Lemma detector_matrix_outputs {dtype infer a m im x_1 x_2} :
  VxmAffineFeatureDetector dtype infer a = Ok m ->
  original_inputs a = Ok (im, x_1, x_2) ->
  String.eqb dtype "float16" = false ->
  make_dense a = false ->
  return_trans_to_half_res a = false ->
  return_moved a = false ->
  return_feat a = false ->
  let '(t_1, t_2) := matrix_transforms dtype a (spatial_shape infer x_1) x_1 x_2 in
  outputs m = if aff_bidir a then [t_1; t_2] else [t_1].
Proof.
  unfold VxmAffineFeatureDetector. intros H Hin Hd H1 H2 H3 H4.
  rewrite Hin in H. cbn [bind] in H.
  rewrite Hd, H1, H2, H3, H4 in H.
  unfold matrix_transforms, estimated_affine, averaged_affine, fit_weights,
    cen_1, cen_2, feat_1, feat_2, detector_input.
  destruct (half_res a), (rigid a), (return_trans_to_mid_space a), (aff_bidir a);
    cbn in H; build_inv H; cbn in H; injection H as <-; reflexivity.
Qed.

Lemma list_eqb_eq {A : Type} (eqb : A -> A -> bool) :
  (forall a b, eqb a b = true -> a = b) ->
  forall u v, list_eqb eqb u v = true -> u = v.
Proof.
  intros Heq. induction u as [ | a u IH ]; intros [ | b v ] H; cbn in H;
    try discriminate H; [ reflexivity | ].
  apply andb_prop in H as [Hab Huv].
  f_equal; [ apply Heq, Hab | apply IH, Huv ].
Qed.

Lemma arr_eqb_eq (x y : arr) : arr_eqb x y = true -> x = y.
Proof.
  apply list_eqb_eq, list_eqb_eq. exact Qc_eq_bool_correct.
Qed.

(** [KL.average] of two arrays is the entry-wise mean. *)
Lemma arr_average_pair (x y : arr) :
  arr_average [x; y] = arr_map2 (fun p q => ((p + q) / Q2Qc 2)%Qc) x y.
Proof.
  unfold arr_average, arr_add, arr_map, arr_map2. cbn [fold_left List.length].
  revert y. induction x as [ | r x IH ]; intros [ | s y ]; cbn; try reflexivity.
  f_equal; [ | apply IH ].
  clear. revert s. induction r as [ | p r IH ]; intros [ | q s ]; cbn; try reflexivity.
  f_equal. apply IH.
Qed.

Lemma arr_add_neg (x : arr) : arr_add x (arr_neg x) = arr_zeros_like x.
Proof.
  unfold arr_add, arr_neg, arr_zeros_like, arr_map, arr_map2.
  induction x as [ | r x IH ]; cbn; [ reflexivity | ].
  f_equal; [ | exact IH ].
  clear. induction r as [ | p r IH ]; cbn; [ reflexivity | ].
  f_equal; [ apply Qcplus_opp_r | exact IH ].
Qed.

(** C1.  The affine estimate of [VxmAffineFeatureDetector] is the
    entry-wise average of the least-squares fit from the barycenters of
    image 1 to those of image 2 and the inverse of a second least-squares
    fit, computed on its own from the barycenters of image 2 to those of
    image 1; both fits take the same channel weights (under [weighted]) or
    none.  The returned matrix transform is this estimate between the
    centering matrices, [un_cen . estimate . cen]. *)
Theorem symmetrized_affine_fit :
  (forall feed ext (weighted : bool) (cen_1 cen_2 weights : tensor),
      let value := eval feed ext in
      let fit points := ext (Lambda fit_affine) points in
      let inverse mat := ext InvertAffine [mat] in
      let shared := if weighted then [value weights] else [] in
      value (least_squares_and_average weighted cen_1 cen_2 weights)
      = arr_map2 (fun p q => ((p + q) / Q2Qc 2)%Qc)
                 (inverse (fit ([value cen_2; value cen_1] ++ shared)))
                 (fit ([value cen_1; value cen_2] ++ shared))) /\
  (forall dtype infer a m im x_1 x_2,
      VxmAffineFeatureDetector dtype infer a = Ok m ->
      original_inputs a = Ok (im, x_1, x_2) ->
      String.eqb dtype "float16" = false ->
      rigid a = false ->
      return_trans_to_mid_space a = false ->
      make_dense a = false ->
      return_trans_to_half_res a = false ->
      return_moved a = false ->
      return_feat a = false ->
      let shape_full := spatial_shape infer x_1 in
      hd_error (outputs m)
      = Some (index_space shape_full (averaged_affine dtype a shape_full x_1 x_2))).
Proof.
  split.
  - intros feed ext weighted c1 c2 w value fit inverse shared. subst value.
    unfold least_squares_and_average.
    cbn [eval map apply_layer]. rewrite arr_average_pair.
    destruct weighted; reflexivity.
  - intros dtype infer a m im x_1 x_2 H Hin Hd Hr Hm H1 H2 H3 H4 shape_full.
    pose proof (detector_matrix_outputs H Hin Hd H1 H2 H3 H4) as Hout.
    unfold matrix_transforms, estimated_affine in Hout. rewrite Hr, Hm in Hout.
    rewrite Hout. destruct (aff_bidir a); reflexivity.
Qed.

(** The symmetrized fit on two 4 by 4 images with matrix outputs. *)
Lemma symmetrized_affine_fit_witness :
  exists m,
    VxmAffineFeatureDetector "float32" no_infer (affine_matrix_args false false false) = Ok m /\
    hd_error (outputs m)
    = Some (index_space (spatial_shape no_infer image_1)
              (averaged_affine "float32" (affine_matrix_args false false false)
                               (spatial_shape no_infer image_1) image_1 image_2)).
Proof.
  destruct (VxmAffineFeatureDetector "float32" no_infer (affine_matrix_args false false false))
    as [m | e] eqn:E; [ | vm_compute in E; discriminate E ].
  exists m. split; [ reflexivity | ].
  exact (proj2 symmetrized_affine_fit "float32"%string no_infer _ m _ image_1 image_2 E
               eq_refl eq_refl eq_refl eq_refl eq_refl eq_refl eq_refl eq_refl).
Defined.

(** ** Rigid projection *)

Lemma rigid_block_length (d : nat) : (d * (d + 1) / 2 = d + d * (d - 1) / 2)%nat.
Proof.
  replace (d * (d + 1))%nat with (d * (d - 1) + d * 2)%nat by nia.
  rewrite Nat.div_add by discriminate. lia.
Qed.

(** C5.  With [rigid=True] the averaged affine matrix is converted to its
    parameter vector, the vector is cut to its first [D(D+1)/2] components,
    and the matrix is rebuilt from them.  In the order (translation,
    rotation, scale, shear), with [D] translations and [D(D-1)/2] rotation
    angles, those components are exactly the translation and the rotation:
    scale and shear are dropped.  The returned transform is that rebuilt
    matrix between the centering matrices; no other operation (such as an
    orthogonal projection) takes part. *)
Theorem rigid_by_parameter_truncation :
  (forall feed ext num_dim aff_1,
      eval feed ext (remove_scaling_and_shear num_dim aff_1)
      = ext (ParamsToAffineMatrix num_dim)
            [map (firstn (num_dim * (num_dim + 1) / 2))
                 (ext (Lambda affine_matrix_to_params) [eval feed ext aff_1])]) /\
  (forall (d : nat) (translation rotation scale_shear : list Qc),
      List.length translation = d ->
      List.length rotation = (d * (d - 1) / 2)%nat ->
      firstn (d * (d + 1) / 2) (translation ++ rotation ++ scale_shear)
      = (translation ++ rotation)%list) /\
  (forall dtype infer a m im x_1 x_2,
      VxmAffineFeatureDetector dtype infer a = Ok m ->
      original_inputs a = Ok (im, x_1, x_2) ->
      String.eqb dtype "float16" = false ->
      rigid a = true ->
      return_trans_to_mid_space a = false ->
      make_dense a = false ->
      return_trans_to_half_res a = false ->
      return_moved a = false ->
      return_feat a = false ->
      let shape_full := spatial_shape infer x_1 in
      hd_error (outputs m)
      = Some (index_space shape_full
                (remove_scaling_and_shear (List.length shape_full)
                   (averaged_affine dtype a shape_full x_1 x_2)))).
Proof.
  split; [ | split ].
  - intros. reflexivity.
  - intros d tr rot rest Ht Hr.
    rewrite rigid_block_length, app_assoc.
    rewrite firstn_app.
    replace (d + d * (d - 1) / 2 - List.length (tr ++ rot))%nat with 0%nat
      by (rewrite length_app; lia).
    rewrite firstn_all2 by (rewrite length_app; lia).
    cbn. apply app_nil_r.
  - intros dtype infer a m im x_1 x_2 H Hin Hd Hr Hm H1 H2 H3 H4 shape_full.
    pose proof (detector_matrix_outputs H Hin Hd H1 H2 H3 H4) as Hout.
    unfold matrix_transforms, estimated_affine in Hout. rewrite Hr, Hm in Hout.
    rewrite Hout. destruct (aff_bidir a); reflexivity.
Qed.

(** The rigid projection on two 4 by 4 images, and the cut of a
    two-dimensional parameter vector (2 translations, 1 angle, 2 scales,
    1 shear). *)
Lemma rigid_by_parameter_truncation_witness :
  (exists m,
      VxmAffineFeatureDetector "float32" no_infer (affine_matrix_args true false false) = Ok m /\
      hd_error (outputs m)
      = Some (index_space (spatial_shape no_infer image_1)
                (remove_scaling_and_shear 2
                   (averaged_affine "float32" (affine_matrix_args true false false)
                      (spatial_shape no_infer image_1) image_1 image_2)))) /\
  firstn (2 * (2 + 1) / 2)
         (matrix_of_row [5; 7]%Z ++ matrix_of_row [1]%Z ++ matrix_of_row [2; 3; 4]%Z)
  = (matrix_of_row [5; 7]%Z ++ matrix_of_row [1]%Z)%list.
Proof.
  destruct rigid_by_parameter_truncation as (_ & Hcut & Hm).
  split.
  - destruct (VxmAffineFeatureDetector "float32" no_infer (affine_matrix_args true false false))
      as [m | e] eqn:E; [ | vm_compute in E; discriminate E ].
    exists m. split; [ reflexivity | ].
    exact (Hm "float32"%string no_infer _ m _ image_1 image_2 E
              eq_refl eq_refl eq_refl eq_refl eq_refl eq_refl eq_refl eq_refl).
  - apply (Hcut 2%nat); reflexivity.
Defined.

(** ** Antisymmetry of the velocity fields *)

Lemma HyperVxmJoint_svf_outputs {dtype infer a m} :
  HyperVxmJoint dtype infer a = Ok m ->
  return_tot a = false -> return_def a = false -> return_aff a = false ->
  return_svf a = true -> j_return_moved a = false -> j_bidir a = true ->
  exists hyp_inp mov_1 mov_2,
    let '(svf_1, svf_2, _, _) :=
      deformable_registration (j_int_steps a) hyp_inp mov_1 mov_2 in
    outputs m = [svf_1; svf_2].
Proof.
  unfold HyperVxmJoint, deformable_registration. intros H H2 H3 H4 H5 H6 H7.
  rewrite H2, H3, H4, H5, H6, H7 in H.
  destruct (j_int_steps a =? 0)%Z.
  all: destruct (pass_affine a), (skip_affine a), (skip_deform a), (mid_space a),
    (j_return_trans_to_half_res a);
    cbn in H; build_inv H; try discriminate H.
  all: try (cbn in H; build_inv H; try discriminate H).
  all: injection H as <-; cbn; eexists _, _, _; reflexivity.
Qed.

(** C10.  In [HyperVxmJoint] the forward velocity field is the average of
    the forward prediction of the network and the negated reverse
    prediction, and the reverse velocity field is the negation of the
    forward one.  So for all inputs and all trained weights the values
    satisfy [svf_2 = - svf_1] and their sum is zero at every entry, before
    any integration; these two tensors are the velocity fields the model
    returns. *)
Theorem svf_antisymmetry :
  (forall int_steps hyp_inp mov_1 mov_2,
      let forward := Apply (Network "model_def") (hyp_inp ++ [mov_1; mov_2]) in
      let reverse := Apply (Network "model_def") (hyp_inp ++ [mov_2; mov_1]) in
      let '(svf_1, svf_2, _, _) :=
        deformable_registration int_steps hyp_inp mov_1 mov_2 in
      svf_1 = Apply Average [Apply Negate [reverse]; forward] /\
      svf_2 = Apply Negate [svf_1] /\
      forall feed ext,
        let value := eval feed ext in
        value svf_1
          = arr_map2 (fun p q => ((p + q) / Q2Qc 2)%Qc)
                     (arr_neg (value reverse)) (value forward) /\
        value svf_2 = arr_neg (value svf_1) /\
        arr_add (value svf_1) (value svf_2) = arr_zeros_like (value svf_1)) /\
  (forall dtype infer a m,
      HyperVxmJoint dtype infer a = Ok m ->
      return_tot a = false -> return_def a = false -> return_aff a = false ->
      return_svf a = true -> j_return_moved a = false -> j_bidir a = true ->
      exists hyp_inp mov_1 mov_2,
        let '(svf_1, svf_2, _, _) :=
          deformable_registration (j_int_steps a) hyp_inp mov_1 mov_2 in
        outputs m = [svf_1; svf_2]).
Proof.
  split.
  - intros int_steps hyp_inp mov_1 mov_2 forward reverse.
    unfold deformable_registration. subst forward reverse.
    destruct (int_steps =? 0)%Z; cbv beta iota zeta.
    all: split; [ reflexivity | split; [ reflexivity | ] ].
    all: intros feed ext.
    all: cbn [eval map apply_layer]; rewrite arr_average_pair.
    all: split; [ reflexivity | split; [ reflexivity | apply arr_add_neg ] ].
  - intros dtype infer a m H H2 H3 H4 H5 H6 H7.
    exact (HyperVxmJoint_svf_outputs H H2 H3 H4 H5 H6 H7).
Qed.

(** The antisymmetry on two 4 by 4 images, returning the velocity fields. *)
Lemma svf_antisymmetry_witness :
  exists m hyp_inp mov_1 mov_2,
    HyperVxmJoint "float32" no_infer joint_svf_args = Ok m /\
    let '(svf_1, svf_2, _, _) := deformable_registration 7 hyp_inp mov_1 mov_2 in
    outputs m = [svf_1; svf_2].
Proof.
  destruct (HyperVxmJoint "float32" no_infer joint_svf_args) as [m | e] eqn:E;
    [ | vm_compute in E; discriminate E ].
  destruct (proj2 svf_antisymmetry _ _ _ _ E eq_refl eq_refl eq_refl eq_refl eq_refl eq_refl)
    as (hyp_inp & mov_1 & mov_2 & Hout).
  exists m, hyp_inp, mov_1, mov_2. split; [ reflexivity | exact Hout ].
Defined.

(** ** The mid-space solver *)

Lemma truncate_make_square (t : arr) :
  AffineAlgebra.truncate (AffineAlgebra.make_square_affine t) = t.
Proof.
  unfold AffineAlgebra.truncate, AffineAlgebra.make_square_affine.
  apply removelast_last.
Qed.

Lemma make_square_truncate {s : arr} :
  AffineAlgebra.homogeneous s ->
  AffineAlgebra.make_square_affine (AffineAlgebra.truncate s) = s.
Proof.
  intros [rows ->]. unfold AffineAlgebra.truncate. rewrite removelast_last. reflexivity.
Qed.

(** Entries of a matrix product. *)
Lemma entry_matmul (a b : arr) (i j : nat) :
  (i < List.length a)%nat ->
  (j < AffineAlgebra.ncols b)%nat ->
  AffineAlgebra.entry (AffineAlgebra.matmul a b) i j
  = AffineAlgebra.dot (nth i a []) (AffineAlgebra.column j b).
Proof.
  intros Hi Hj. unfold AffineAlgebra.entry, AffineAlgebra.matmul.
  set (F := fun row : list Qc => map _ _).
  rewrite (nth_indep _ [] (F [])) by (rewrite length_map; exact Hi).
  rewrite map_nth. unfold F.
  set (G := fun k : nat => AffineAlgebra.dot _ _).
  rewrite (nth_indep _ AffineAlgebra.zero (G 0%nat))
    by (rewrite length_map, length_seq; exact Hj).
  rewrite map_nth, seq_nth by exact Hj. reflexivity.
Qed.

(** Two columns that differ in their last entry. *)
Lemma dot_last_entry (c u : list Qc) (y1 y2 : Qc) :
  (AffineAlgebra.dot u (c ++ [y1]) - AffineAlgebra.dot u (c ++ [y2]))%Qc
  = (nth (List.length c) u AffineAlgebra.zero * (y1 - y2))%Qc.
Proof.
  unfold AffineAlgebra.dot, AffineAlgebra.zero.
  revert u. induction c as [ | b c IH ]; intros [ | x u ]; cbn [app map2 fold_right List.length nth].
  - ring.
  - destruct u; cbn [map2 fold_right]; ring.
  - ring.
  - rewrite <- (IH u). ring.
Qed.

Lemma column_app (j : nat) (m : arr) (row : list Qc) :
  AffineAlgebra.column j (m ++ [row])
  = (AffineAlgebra.column j m ++ [nth j row AffineAlgebra.zero])%list.
Proof. unfold AffineAlgebra.column. rewrite map_app. reflexivity. Qed.

Lemma length_column (j : nat) (m : arr) : List.length (AffineAlgebra.column j m) = List.length m.
Proof. apply length_map. Qed.

Lemma ncols_app (m : arr) (row1 row2 : list Qc) :
  m <> [] -> AffineAlgebra.ncols (m ++ [row1]) = AffineAlgebra.ncols (m ++ [row2]).
Proof. destruct m; [ congruence | reflexivity ]. Qed.

(** The rows of a product with the last row of the left factor cut off. *)
Lemma truncate_matmul (h : arr) (row : list Qc) (b : arr) :
  AffineAlgebra.truncate (AffineAlgebra.matmul (h ++ [row]) b) = AffineAlgebra.matmul h b.
Proof.
  unfold AffineAlgebra.truncate, AffineAlgebra.matmul.
  rewrite map_app. cbn [map]. apply removelast_last.
Qed.

(** The composition of the half transform with itself, entry by entry:
    the square of the computed root, with the error of its last row taken
    out. *)
Lemma compose_half_entry (h : arr) (l : list Qc) (i j : nat) :
  let d := List.length h in
  Forall (fun row => List.length row = S d) (h ++ [l]) ->
  (i < d)%nat -> (j <= d)%nat ->
  (AffineAlgebra.entry (AffineAlgebra.compose h h) i j
   - AffineAlgebra.entry (AffineAlgebra.matmul (h ++ [l]) (h ++ [l])) i j)%Qc
  = (AffineAlgebra.entry h i d
     * (nth j (AffineAlgebra.homogeneous_row d) AffineAlgebra.zero
        - nth j l AffineAlgebra.zero))%Qc.
Proof.
  intros d Hrows Hi Hj.
  assert (Hne : h <> []) by (intros ->; cbn in d; lia).
  assert (Hc : AffineAlgebra.ncols (h ++ [l]) = S d).
  { unfold AffineAlgebra.ncols. destruct h as [ | row h' ]; [ congruence | ].
    cbn [app hd]. inversion Hrows; assumption. }
  unfold AffineAlgebra.compose, AffineAlgebra.make_square_affine. fold d.
  rewrite truncate_matmul.
  rewrite entry_matmul
    by (try exact Hi; rewrite (ncols_app h _ l Hne), Hc; lia).
  rewrite entry_matmul by (rewrite ?length_app, ?Hc; cbn [List.length]; lia).
  rewrite (app_nth1 h [l] [] Hi), !column_app, dot_last_entry, length_column.
  reflexivity.
Qed.

(** C3.  The mid-space transform [h] of an affine matrix [t] is the root
    that [sqrtm] computes of the square homogeneous form of [t], cut back
    to the affine form.  If the computed root is the principal square
    root, then [h] composed with itself is [t].  If it is a root up to
    rounding (its square is within [eps] of the square form and its last
    row within [delta] of [(0, ..., 0, 1)]) then every entry of the
    composition is within [eps + |h[i][D]| * delta] of the entry of [t]:
    the tolerance is that of the root.  The [sqrtm] layer of the graph
    computes this root; the composition is in exact arithmetic. *)
Theorem mid_space_half_transform :
  (forall (root : arr -> arr) (t : arr),
      AffineAlgebra.principal_root_of (root (AffineAlgebra.make_square_affine t)) t ->
      let h := AffineAlgebra.half root t in
      AffineAlgebra.compose h h = t) /\
  (forall (root : arr -> arr) (t : arr) (eps delta : Qc),
      AffineAlgebra.root_within eps delta (root (AffineAlgebra.make_square_affine t)) t ->
      let h := AffineAlgebra.half root t in
      let d := List.length t in
      forall i j, (i < d)%nat -> (j <= d)%nat ->
        (Qcabs.Qcabs (AffineAlgebra.entry (AffineAlgebra.compose h h) i j
                      - AffineAlgebra.entry t i j)
         <= eps + Qcabs.Qcabs (AffineAlgebra.entry h i d) * delta)%Qc) /\
  (forall feed ext aff (root : arr -> arr),
      (forall x, ext (Lambda sqrtm) [x] = root x) ->
      (forall x, ext (Lambda make_square_affine) [x] = AffineAlgebra.make_square_affine x) ->
      AffineAlgebra.truncate (eval feed ext (mid_space_root aff))
      = AffineAlgebra.half root (eval feed ext aff)).
Proof.
  split; [ | split ].
  - intros root t [Hh Hs] h. unfold h, AffineAlgebra.compose, AffineAlgebra.half.
    rewrite (make_square_truncate Hh), Hs. apply truncate_make_square.
  - intros root t eps delta (Hshape & Hsq & Hlast) h d i j Hi Hj.
    cbv zeta in Hshape, Hsq, Hlast. fold d in Hshape, Hsq, Hlast.
    unfold AffineAlgebra.half in h.
    set (r := root (AffineAlgebra.make_square_affine t)) in *.
    destruct Hshape as [Hlen Hrows].
    assert (Hr : r = (h ++ [last r []])%list).
    { unfold h, AffineAlgebra.truncate. apply app_removelast_last.
      intros E. rewrite E in Hlen. discriminate Hlen. }
    assert (Hd : List.length h = d).
    { apply (f_equal (@List.length _)) in Hr.
      rewrite length_app, Hlen in Hr. cbn [List.length] in Hr. lia. }
    set (l := last r []) in *.
    pose proof (compose_half_entry h l i j) as Hc. cbv zeta in Hc.
    rewrite Hd, <- Hr in Hc. specialize (Hc Hrows Hi Hj).
    assert (Hs : forall k, AffineAlgebra.entry (AffineAlgebra.make_square_affine t) k j
                           = if (k <? d)%nat then AffineAlgebra.entry t k j
                             else nth j (nth (k - d) [AffineAlgebra.homogeneous_row d] [])
                                      AffineAlgebra.zero).
    { intros k. unfold AffineAlgebra.entry, AffineAlgebra.make_square_affine. fold d.
      destruct (Nat.ltb_spec k d) as [ Hk | Hk ].
      - rewrite app_nth1 by exact Hk. reflexivity.
      - rewrite app_nth2 by exact Hk. reflexivity. }
    specialize (Hsq i j ltac:(lia) Hj). rewrite (Hs i) in Hsq.
    destruct (Nat.ltb_spec i d) as [ _ | ]; [ | lia ].
    specialize (Hlast j Hj). rewrite (Hs d) in Hlast.
    destruct (Nat.ltb_spec d d) as [ | _ ]; [ lia | ].
    rewrite Nat.sub_diag in Hlast. cbn [nth] in Hlast.
    assert (Hl : AffineAlgebra.entry r d j = nth j l AffineAlgebra.zero).
    { unfold AffineAlgebra.entry. rewrite Hr, app_nth2 by lia.
      rewrite Hd, Nat.sub_diag. reflexivity. }
    rewrite Hl, Qcabs.Qcabs_Qcminus in Hlast.
    set (x := AffineAlgebra.entry (AffineAlgebra.compose h h) i j) in *.
    set (y := AffineAlgebra.entry (AffineAlgebra.matmul r r) i j) in *.
    set (z := AffineAlgebra.entry t i j) in *.
    replace (x - z)%Qc with ((y - z) + (x - y))%Qc by ring.
    eapply Qcle_trans; [ apply Qcabs.Qcabs_triangle | ].
    apply Qcplus_le_compat; [ exact Hsq | ].
    rewrite Hc, Qcabs.Qcabs_Qcmult, !(Qcmult_comm (Qcabs.Qcabs (AffineAlgebra.entry h i d))).
    apply Qcmult_le_compat_r; [ exact Hlast | apply Qcabs.Qcabs_nonneg ].
  - intros feed ext aff root Hroot Hsquare. unfold mid_space_root, AffineAlgebra.half.
    cbn [eval map apply_layer]. rewrite Hsquare, Hroot. reflexivity.
Qed.

(** The half transform of the scaling by (4, 9) with translation (3, 8) is
    the scaling by (2, 3) with translation (1, 2), exactly.  For the scaling
    by (2, 9) the computed root is rounded, within a hundred-thousandth in
    its square and a millionth in its last row, and so is the
    composition. *)
Lemma mid_space_half_transform_witness :
  let eps := Q2Qc (1 # 100000) in
  let delta := Q2Qc (1 # 1000000) in
  let h := AffineAlgebra.half (fun _ => rounded_root) scaling_by_two in
  let h' := AffineAlgebra.half (fun _ => scaling_2d_root) scaling_2d in
  AffineAlgebra.principal_root_of scaling_2d_root scaling_2d /\
  AffineAlgebra.compose h' h' = scaling_2d /\
  AffineAlgebra.root_within eps delta rounded_root scaling_by_two /\
  (Qcabs.Qcabs (AffineAlgebra.entry (AffineAlgebra.compose h h) 0 2
                - AffineAlgebra.entry scaling_by_two 0 2)
   <= eps + Qcabs.Qcabs (AffineAlgebra.entry h 0 2) * delta)%Qc.
Proof.
  intros eps delta h h'.
  assert (Hroot : AffineAlgebra.principal_root_of scaling_2d_root scaling_2d).
  { split.
    - exists (matrix_of [[2; 0; 1]; [0; 3; 2]]%Z). reflexivity.
    - vm_compute. reflexivity. }
  assert (Hwithin : AffineAlgebra.root_within eps delta rounded_root scaling_by_two).
  { split; [ split; [ reflexivity | repeat constructor ] | split ].
    - intros [ | [ | [ | i ] ] ] [ | [ | [ | j ] ] ] Hi Hj; cbn in Hi, Hj; try lia;
        unfold Qcle; vm_compute; intros H; discriminate H.
    - intros [ | [ | [ | j ] ] ] Hj; cbn in Hj; try lia;
        unfold Qcle; vm_compute; intros H; discriminate H. }
  split; [ exact Hroot | ]. split; [ | split; [ exact Hwithin | ] ].
  - exact (proj1 mid_space_half_transform (fun _ => scaling_2d_root) scaling_2d Hroot).
  - exact (proj1 (proj2 mid_space_half_transform) (fun _ => rounded_root) scaling_by_two
             eps delta Hwithin 0%nat 2%nat ltac:(cbn; lia) ltac:(cbn; lia)).
Defined.

(** *** Matrices without a real square root *)

Lemma Qc_square_not_minus_one (q : Qc) : (q * q)%Qc <> Q2Qc (-1).
Proof.
  intros H. apply (f_equal this) in H.
  assert (Hq : (this (q * q)%Qc == this q * this q)%Q) by apply Qred_correct.
  rewrite H in Hq. cbn in Hq.
  destruct q as [[n d] Hc]. cbn in Hq. unfold Qeq in Hq. cbn in Hq. nia.
Qed.

Lemma three_by_three (x : arr) :
  AffineAlgebra.square_shape 3 x ->
  exists a b c d e f g h i, x = [[a; b; c]; [d; e; f]; [g; h; i]].
Proof.
  intros [Hl Hr].
  destruct x as [ | r1 [ | r2 [ | r3 [ | ? ? ] ] ] ]; try discriminate Hl.
  inversion Hr as [ | ? ? H1 Hr1 ]; subst.
  inversion Hr1 as [ | ? ? H2 Hr2 ]; subst.
  inversion Hr2 as [ | ? ? H3 _ ]; subst.
  destruct r1 as [ | a [ | b [ | c [ | ? ? ] ] ] ]; try discriminate H1.
  destruct r2 as [ | d [ | e [ | f [ | ? ? ] ] ] ]; try discriminate H2.
  destruct r3 as [ | g [ | h [ | i [ | ? ? ] ] ] ]; try discriminate H3.
  do 9 eexists. reflexivity.
Qed.

(** The square of a real matrix has a determinant that is a square, and the
    determinant of the reflection is -1. *)
Lemma reflection_has_no_real_root :
  AffineAlgebra.no_real_root (AffineAlgebra.make_square_affine reflection_2d).
Proof.
  intros x Hs Hx.
  destruct (three_by_three x Hs) as (a & b & c & d & e & f & g & h & i & ->).
  unfold AffineAlgebra.matmul, AffineAlgebra.ncols, AffineAlgebra.column,
    AffineAlgebra.dot, AffineAlgebra.make_square_affine, reflection_2d, matrix_of,
    AffineAlgebra.homogeneous_row in Hx.
  cbn [map seq nth hd List.length fold_right map2 app repeat] in Hx.
  pose (zero := AffineAlgebra.zero).
  pose proof (f_equal (fun m => nth 0 (nth 0 m []) zero) Hx) as H11.
  pose proof (f_equal (fun m => nth 1 (nth 0 m []) zero) Hx) as H12.
  pose proof (f_equal (fun m => nth 2 (nth 0 m []) zero) Hx) as H13.
  pose proof (f_equal (fun m => nth 0 (nth 1 m []) zero) Hx) as H21.
  pose proof (f_equal (fun m => nth 1 (nth 1 m []) zero) Hx) as H22.
  pose proof (f_equal (fun m => nth 2 (nth 1 m []) zero) Hx) as H23.
  pose proof (f_equal (fun m => nth 0 (nth 2 m []) zero) Hx) as H31.
  pose proof (f_equal (fun m => nth 1 (nth 2 m []) zero) Hx) as H32.
  pose proof (f_equal (fun m => nth 2 (nth 2 m []) zero) Hx) as H33.
  cbn [nth] in H11, H12, H13, H21, H22, H23, H31, H32, H33.
  clear Hx Hs. fold zero in H11, H12, H13, H21, H22, H23, H31, H32, H33.
  set (det := (a * (e * i - f * h) - b * (d * i - f * g) + c * (d * h - e * g))%Qc).
  apply (Qc_square_not_minus_one det).
  transitivity
    ((a * a + (b * d + (c * g + zero)))
     * ((d * b + (e * e + (f * h + zero))) * (g * c + (h * f + (i * i + zero)))
        - (d * c + (e * f + (f * i + zero))) * (g * b + (h * e + (i * h + zero))))
     - (a * b + (b * e + (c * h + zero)))
       * ((d * a + (e * d + (f * g + zero))) * (g * c + (h * f + (i * i + zero)))
          - (d * c + (e * f + (f * i + zero))) * (g * a + (h * d + (i * g + zero))))
     + (a * c + (b * f + (c * i + zero)))
       * ((d * a + (e * d + (f * g + zero))) * (g * b + (h * e + (i * h + zero)))
          - (d * b + (e * e + (f * h + zero))) * (g * a + (h * d + (i * g + zero)))))%Qc.
  - unfold det, zero, AffineAlgebra.zero. ring.
  - rewrite H11, H12, H13, H21, H22, H23, H31, H32, H33.
    apply Qc_is_canon. reflexivity.
Qed.

(** C4, amended.  With [return_trans_to_mid_space=True] the
    detector applies [tf.linalg.sqrtm] to the square form of the estimate and
    of its inverse without any condition: the two layers sit directly under
    the composition with the centering matrices, the value handed on is
    whatever [sqrtm] returns for that matrix, whether or not a real
    principal root exists, and a prediction raises nothing.
    [HyperVxmJoint] builds the same detector with
    [return_trans_to_mid_space=mid_space]. *)
Theorem mid_space_root_is_unchecked :
  (forall dtype infer a m im x_1 x_2,
      VxmAffineFeatureDetector dtype infer a = Ok m ->
      original_inputs a = Ok (im, x_1, x_2) ->
      String.eqb dtype "float16" = false ->
      return_trans_to_mid_space a = true ->
      make_dense a = false ->
      return_trans_to_half_res a = false ->
      return_moved a = false ->
      return_feat a = false ->
      let shape_full := spatial_shape infer x_1 in
      let aff_1 := estimated_affine dtype a shape_full x_1 x_2 in
      let aff_2 := Apply InvertAffine [aff_1] in
      outputs m = (if aff_bidir a
                   then [index_space shape_full (mid_space_root aff_1);
                         index_space shape_full (mid_space_root aff_2)]
                   else [index_space shape_full (mid_space_root aff_1)]) /\
      forall feed ext,
        eval feed ext (mid_space_root aff_1)
          = ext (Lambda sqrtm) [ext (Lambda make_square_affine) [eval feed ext aff_1]] /\
        eval feed ext (mid_space_root aff_2)
          = ext (Lambda sqrtm) [ext (Lambda make_square_affine) [eval feed ext aff_2]] /\
        predict feed ext m = Ok (map (eval feed ext) (outputs m))) /\
  (forall k shape_half mid,
      return_trans_to_mid_space (arg_aff_update k shape_half mid) = mid).
Proof.
  split; [ | reflexivity ].
  intros dtype infer a m im x_1 x_2 H Hin Hd Hm H1 H2 H3 H4 shape_full aff_1 aff_2.
  pose proof (detector_matrix_outputs H Hin Hd H1 H2 H3 H4) as Hout.
  unfold matrix_transforms in Hout. rewrite Hm in Hout.
  split; [ exact Hout | ].
  intros feed ext. repeat split.
Qed.

(** The mid-space detector on two 4 by 4 images. *)
Lemma mid_space_root_is_unchecked_witness :
  exists m,
    VxmAffineFeatureDetector "float32" no_infer (affine_matrix_args false true true) = Ok m /\
    let shape_full := spatial_shape no_infer image_1 in
    let aff_1 := estimated_affine "float32" (affine_matrix_args false true true)
                                  shape_full image_1 image_2 in
    outputs m = [index_space shape_full (mid_space_root aff_1);
                 index_space shape_full (mid_space_root (Apply InvertAffine [aff_1]))].
Proof.
  destruct (VxmAffineFeatureDetector "float32" no_infer (affine_matrix_args false true true))
    as [m | e] eqn:E; [ | vm_compute in E; discriminate E ].
  exists m. split; [ reflexivity | ].
  exact (proj1 (proj1 mid_space_root_is_unchecked "float32"%string no_infer _ m _
                      image_1 image_2 E
                      eq_refl eq_refl eq_refl eq_refl eq_refl eq_refl eq_refl)).
Defined.

(** C4, as stated, fails.  The reflection of one axis has no real square
    root.  A detector built for the mid-space whose two fits return this
    reflection estimates it, hands its square form to [sqrtm], takes the
    answer [root] gives, and the prediction returns a value: no failure is
    detected or reported. *)
Lemma mid_space_failure_counterexample :
  AffineAlgebra.no_real_root (AffineAlgebra.make_square_affine reflection_2d) /\
  exists m,
    VxmAffineFeatureDetector "float32" no_infer (affine_matrix_args false true true) = Ok m /\
    forall feed root,
      let ext := reflecting_layers root in
      let aff_1 := estimated_affine "float32" (affine_matrix_args false true true)
                                    (spatial_shape no_infer image_1) image_1 image_2 in
      eval feed ext aff_1 = reflection_2d /\
      eval feed ext (mid_space_root aff_1)
        = root (AffineAlgebra.make_square_affine reflection_2d) /\
      exists out, predict feed ext m = Ok out /\
                  forall e, predict feed ext m <> Raise e.
Proof.
  split; [ exact reflection_has_no_real_root | ].
  destruct (VxmAffineFeatureDetector "float32" no_infer (affine_matrix_args false true true))
    as [m | e] eqn:E; [ | vm_compute in E; discriminate E ].
  exists m. split; [ reflexivity | ].
  intros feed root ext aff_1.
  assert (Hest : eval feed ext aff_1 = reflection_2d).
  { subst aff_1 ext. unfold estimated_affine, averaged_affine, least_squares_and_average.
    cbn [affine_matrix_args rigid weighted app eval map apply_layer reflecting_layers].
    rewrite arr_average_pair. apply arr_eqb_eq. vm_compute. reflexivity. }
  split; [ exact Hest | ]. split.
  - unfold mid_space_root. cbn [eval map apply_layer]. rewrite Hest. reflexivity.
  - eexists. split; [ reflexivity | ]. intros e He. discriminate He.
Qed.

(** ** The centering convention *)

(** Every composition, resampling and matrix-to-field conversion that
    [VxmAffineFeatureDetector] adds to the graph carries an explicit
    [shift_center=False]; centering enters through the matrices [cen] and
    [un_cen] only.  (The barycenters are taken with [shift_center=True]:
    that is the centered frame the two matrices lead into and out of.) *)
Lemma VxmAffineFeatureDetector_unshifted {dtype infer a m} :
  VxmAffineFeatureDetector dtype infer a = Ok m ->
  aff_input_model a = None ->
  forallb all_unshifted (outputs m) = true.
Proof.
  unfold VxmAffineFeatureDetector, original_inputs. intros H Hin. rewrite Hin in H.
  destruct (in_shape a) as [s | ]; [ | discriminate H ].
  cbn [bind outputs inputs] in H.
  unfold features in H.
  destruct (String.eqb dtype "float16"),
    (half_res a), (weighted a), (rigid a), (return_trans_to_mid_space a),
    (return_trans_to_half_res a), (make_dense a), (return_moved a), (return_feat a),
    (aff_bidir a);
    cbn in H; build_inv H; try discriminate H; injection H as <-; reflexivity.
Qed.

(** C6 at [HyperVxmJoint(in_shape=(4, 4))], all other arguments at their
    defaults, and at [HyperVxmJoint(in_shape=(4, 4), skip_deform=True)].
    Each model is built and its one output, the total transform brought to
    full resolution, is a [ComposeTransform] built without a [shift_center]
    argument, over a graph whose other transform layers all carry
    [shift_center=False]: this last composition of a pipeline that changes
    resolution runs under the default of the layer class, the centered
    convention.  With [skip_deform=True] its first argument is a matrix and
    the second a dense field, so the flag decides how the matrix is turned
    into a field. *)
Theorem HyperVxmJoint_compose_without_shift_center :
  (exists m tot_1 down,
      HyperVxmJoint "float32" no_infer (Joint_defaults (Some [4; 4]%Z)) = Ok m /\
      outputs m = [Apply (ComposeTransform None) [tot_1; down]] /\
      all_unshifted tot_1 = true /\
      all_unshifted down = true /\
      forallb all_unshifted (outputs m) = false) /\
  (exists m tot_1 down,
      HyperVxmJoint "float32" no_infer joint_skip_deform = Ok m /\
      outputs m = [Apply (ComposeTransform None) [tot_1; down]] /\
      is_matrix tot_1 = true /\
      is_matrix down = false /\
      forallb all_unshifted (outputs m) = false) /\
  effective_shift_center true (ComposeTransform None) = Some true.
Proof.
  split; [ | split; [ | reflexivity ] ].
  - destruct (HyperVxmJoint "float32" no_infer (Joint_defaults (Some [4; 4]%Z)))
      as [m | e] eqn:E; [ | vm_compute in E; discriminate E ].
    vm_compute in E. injection E as <-.
    eexists _, _, _. split; [ reflexivity | ].
    split; [ reflexivity | ]. repeat split.
  - destruct (HyperVxmJoint "float32" no_infer joint_skip_deform)
      as [m | e] eqn:E; [ | vm_compute in E; discriminate E ].
    vm_compute in E. injection E as <-.
    eexists _, _, _. split; [ reflexivity | ].
    split; [ reflexivity | ]. repeat split.
Qed.

(** ** The mean accumulator *)

Section MeanAccumulatorFacts.

Variable voxel : Type.

Local Open Scope Qc_scope.

Lemma of_N_nonzero (n : N) : (0 < n)%N -> of_N n <> Q2Qc 0.
Proof.
  intros Hn H. unfold of_N in H.
  apply (f_equal this) in H. cbn [this Q2Qc] in H.
  assert (Hq : (inject_Z (Z.of_N n) == 0)%Q).
  { rewrite <- (Qred_correct (inject_Z (Z.of_N n))), H. apply Qred_correct. }
  unfold Qeq in Hq. cbn in Hq. lia.
Qed.

Lemma of_N_add (n p : N) : of_N (n + p) = of_N n + of_N p.
Proof.
  unfold of_N, Qcplus. apply Q2Qc_eq_iff. cbn [this Q2Qc].
  rewrite !Qred_correct, N2Z.inj_add, inject_Z_plus. reflexivity.
Qed.

(** The first update of a fresh accumulator with a batch no larger than the
    cap has weight 1. *)
Lemma first_update_weight (s cap : N) :
  (0 < s)%N -> (s <= cap)%N -> update_weight 0 s cap = Q2Qc 1.
Proof.
  intros Hs Hc. unfold update_weight.
  assert (Hlt : (0 <? cap)%N = true) by (apply N.ltb_lt; lia).
  rewrite Hlt, N.add_0_l, N.min_l by exact Hc.
  field. apply of_N_nonzero, Hs.
Qed.

Lemma update_fixpoint (st : MeanAccumulator voxel) (v : field voxel) (s cap : N) :
  (forall x, mean st x = v x) ->
  forall x, mean (update st v s cap) x = v x.
Proof.
  intros H x. unfold update. cbn [mean]. rewrite H. ring.
Qed.

Lemma feed_constant_fixpoint (v : field voxel) (cap : N) (sizes : list N) :
  forall st : MeanAccumulator voxel,
    (forall x, mean st x = v x) ->
    forall x, mean (feed_constant v cap st sizes) x = v x.
Proof.
  induction sizes as [ | s sizes IH ]; intros st H x; cbn.
  - apply H.
  - apply IH. apply update_fixpoint, H.
Qed.

(** C8, amended.  (1) While [count < cap],
    an update with batch mean [b] and batch size [s] gives
    [mean + (b - mean) * (s / min(count + s, cap))] and the count
    [min(count + s, cap)]; as long as the cap is not reached this is the exact
    running average, [mean' * (count + s) = mean * count + b * s].  (2) Once
    [count >= cap], every update has the weight [s / cap] and the count stays
    at [cap].  (3) Feeding the constant field [v] to a freshly created
    accumulator gives [mean = v] after the first update and after every
    later one, provided the first batch size [s] satisfies
    [0 < s <= cap]. *)
Theorem mean_accumulator_update :
  (forall (st : MeanAccumulator voxel) (b : field voxel) (s cap : N),
      (count st < cap)%N ->
      let c' := N.min (count st + s) cap in
      count (update st b s cap) = c' /\
      (forall x, mean (update st b s cap) x
                 = mean st x + (b x - mean st x) * (of_N s / of_N c')) /\
      ((0 < count st + s)%N -> (count st + s <= cap)%N ->
       forall x, mean (update st b s cap) x * of_N (count st + s)
                 = mean st x * of_N (count st) + b x * of_N s)) /\
  (forall (st : MeanAccumulator voxel) (b : field voxel) (s cap : N),
      (cap <= count st)%N ->
      count (update st b s cap) = cap /\
      forall x, mean (update st b s cap) x
                = mean st x + (b x - mean st x) * (of_N s / of_N cap)) /\
  (forall (v mean0 : field voxel) (cap s : N) (sizes : list N),
      (0 < s)%N -> (s <= cap)%N ->
      forall x,
        read (update (created mean0) v s cap) x = v x /\
        read (feed_constant v cap (created mean0) (s :: sizes)) x = v x).
Proof.
  split; [ | split ].
  - intros st b s cap Hlt c'.
    assert (Hb : (count st <? cap)%N = true) by (apply N.ltb_lt; exact Hlt).
    split; [ reflexivity | ]. split.
    + intros x. unfold update, update_weight. cbn [mean]. rewrite Hb. reflexivity.
    + intros Hpos Hle x. unfold update, update_weight. cbn [mean]. rewrite Hb.
      rewrite N.min_l by exact Hle.
      rewrite of_N_add. field.
      rewrite <- of_N_add. apply of_N_nonzero, Hpos.
  - intros st b s cap Hge.
    assert (Hb : (count st <? cap)%N = false) by (apply N.ltb_ge; exact Hge).
    split.
    + unfold update. cbn [count]. apply N.min_r. lia.
    + intros x. unfold update, update_weight. cbn [mean]. rewrite Hb. reflexivity.
  - intros v mean0 cap s sizes Hs Hc.
    assert (Hfirst : forall x, mean (update (created mean0) v s cap) x = v x).
    { intros x. unfold update, created. cbn [mean count].
      rewrite (first_update_weight s cap Hs Hc). ring. }
    intros x. split; [ apply Hfirst | ].
    unfold read. cbn [feed_constant fold_left].
    apply feed_constant_fixpoint, Hfirst.
Qed.

End MeanAccumulatorFacts.

(** The update rule on a one-voxel field: a fresh accumulator fed the
    constant 5 in batches of 4, 4 and 300, with the cap 100 of
    [TemplateCreation]. *)
Lemma mean_accumulator_update_witness :
  read (feed_constant (constant_field 5) 100 (created (constant_field 0)) [4; 4; 300]%N) tt
  = constant_field 5 tt.
Proof.
  refine (proj2 (proj2 (proj2 (mean_accumulator_update unit))
                   (constant_field 5) (constant_field 0) 100%N 4%N [4; 300]%N _ _ tt)).
  - reflexivity.
  - discriminate.
Defined.

(** C8, as stated, fails in its last part: a first batch larger than the cap
    has a weight above 1.  With [cap = 1], a fresh accumulator at 0 fed the
    constant 1 in a batch of size 2 holds the mean 2.  For the same reason
    an update that crosses the cap is not the exact running average: from
    [count = 1] and mean 0, a batch of 2 with mean 3 under [cap = 2] gives
    the mean 3, and the average of the three samples is 2. *)
Lemma mean_accumulator_constant_counterexample :
  (read (update (created (constant_field 0)) (constant_field 1) 2 1) tt = Q2Qc 2 /\
   read (update (created (constant_field 0)) (constant_field 1) 2 1) tt
     <> constant_field 1 tt) /\
  (let st := {| count := 1; mean := constant_field 0 |} in
   (count st < 2)%N /\
   read (update st (constant_field 3) 2 2) tt = Q2Qc 3 /\
   (read (update st (constant_field 3) 2 2) tt * of_N (count st + 2))%Qc
     <> (mean st tt * of_N (count st) + constant_field 3 tt * of_N 2)%Qc).
Proof.
  split; [ split | split; [ | split ] ].
  - apply Qc_is_canon. reflexivity.
  - intros H. apply (f_equal this) in H. vm_compute in H. discriminate H.
  - reflexivity.
  - apply Qc_is_canon. reflexivity.
  - intros H. apply (f_equal this) in H. vm_compute in H. discriminate H.
Qed.

(** ** The local parameter field *)

Lemma InstanceDense_flow_layer {a init m} :
  InstanceDense a init = Ok m ->
  inst_mult m = mult a /\
  multiplier (inst_flow_layer m) = Q2Qc (mult a) /\
  exists shape, inst_preint_flow m
                = Apply (LocalParamWithInput shape (mult a))
                        [Input (KInput "source" (i_inshape a ++ [nb_feats a]))].
Proof.
  unfold InstanceDense. intros H. build_inv H. injection H as <-. cbn.
  repeat split. eexists. reflexivity.
Qed.

(** *** Rounding to float32 *)

Lemma pow2_pos (e : Z) : 0 < pow2 e.
Proof. unfold pow2. apply Qpower_0_lt. reflexivity. Qed.

Lemma pow2_add (a b : Z) : pow2 (a + b) == pow2 a * pow2 b.
Proof. unfold pow2. apply Qpower_plus. discriminate. Qed.

Lemma pow2_Z (a : Z) : (0 <= a)%Z -> pow2 a == inject_Z (2 ^ a).
Proof. intros H. unfold pow2. symmetry. apply (Zpower_Qpower 2 a H). Qed.

Lemma round_half_even_error (q : Q) :
  Qabs (inject_Z (round_half_even q) - q) <= 1 # 2.
Proof.
  pose proof (Qfloor_le q) as Hlo. pose proof (Qlt_floor q) as Hhi.
  rewrite inject_Z_plus in Hhi. change (inject_Z 1) with 1 in Hhi.
  unfold round_half_even. apply Qabs_Qle_condition.
  destruct (Qcompare (q - inject_Z (Qfloor q)) (1 # 2)) eqn:Hc.
  - apply Qeq_alt in Hc. destruct (Z.even (Qfloor q));
      [ | rewrite inject_Z_plus; change (inject_Z 1) with 1 ]; split; lra.
  - apply Qlt_alt in Hc. split; lra.
  - apply Qgt_alt in Hc. rewrite inject_Z_plus. change (inject_Z 1) with 1. split; lra.
Qed.

(** [Qlog2] is the logarithm rounded down. *)
Lemma Qlog2_spec (q : Q) :
  ~ q == 0 -> pow2 (Qlog2 q) <= Qabs q /\ Qabs q < pow2 (Qlog2 q + 1).
Proof.
  intros Hq. unfold Qlog2.
  destruct q as [n d]. cbn [Qnum Qden].
  assert (Hn : (0 < Z.abs n)%Z).
  { destruct n; [ exfalso; apply Hq; reflexivity | reflexivity | reflexivity ]. }
  set (a := Z.log2 (Z.abs n)). set (b := Z.log2 (Z.pos d)).
  assert (Ha : (0 <= a)%Z) by apply Z.log2_nonneg.
  assert (Hb : (0 <= b)%Z) by apply Z.log2_nonneg.
  destruct (Z.log2_spec (Z.abs n) Hn) as [Hna Hna']. fold a in Hna, Hna'.
  destruct (Z.log2_spec (Z.pos d) eq_refl) as [Hdb Hdb']. fold b in Hdb, Hdb'.
  assert (Habs : Qabs (n # d) == inject_Z (Z.abs n) / inject_Z (Z.pos d)).
  { rewrite <- Zabs_Qabs. apply Qmake_Qdiv. }
  assert (Hd0 : 0 < inject_Z (Z.pos d)) by reflexivity.
  destruct (Qle_bool _ _) eqn:Ht.
  - apply Qle_bool_iff in Ht. split; [ exact Ht | ].
    (* n < 2^(a+1) and 2^b <= d *)
    rewrite Habs. apply Qlt_shift_div_r; [ exact Hd0 | ].
    assert (Hp : pow2 (a - b + 1) * inject_Z (2 ^ b) == inject_Z (2 ^ (a + 1))).
    { rewrite <- !pow2_Z by lia. rewrite <- pow2_add.
      replace (a - b + 1 + b)%Z with (a + 1)%Z by lia. reflexivity. }
    apply Qlt_le_trans with (inject_Z (2 ^ (a + 1))).
    + rewrite <- Zlt_Qlt. replace (a + 1)%Z with (Z.succ a) by lia. exact Hna'.
    + rewrite <- Hp. apply Qmult_le_l; [ apply pow2_pos | ].
      rewrite <- Zle_Qle. exact Hdb.
  - split.
    + rewrite Habs. apply Qle_shift_div_l; [ exact Hd0 | ].
      assert (Hp : pow2 (a - b - 1) * inject_Z (2 ^ (b + 1)) == inject_Z (2 ^ a)).
      { rewrite <- !pow2_Z by lia. rewrite <- pow2_add.
        replace (a - b - 1 + (b + 1))%Z with a by lia. reflexivity. }
      apply Qle_trans with (pow2 (a - b - 1) * inject_Z (2 ^ (b + 1))).
      * apply Qmult_le_l; [ apply pow2_pos | ].
        rewrite <- Zle_Qle. replace (b + 1)%Z with (Z.succ b) by lia. lia.
      * rewrite Hp. rewrite <- Zle_Qle. exact Hna.
    + replace (a - b - 1 + 1)%Z with (a - b)%Z by lia.
      apply Qnot_le_lt. intros H. apply Qle_bool_iff in H. congruence.
Qed.

(** The rounding error of a number that does not underflow is at most half
    a unit in the last place: a relative error of [2 ** -24]. *)
Lemma f32_round_error (q r : Q) :
  f32_round q = Some r ->
  f32_normal q = true ->
  Qabs (r - q) <= Qabs q * pow2 (-24).
Proof.
  intros Hr Hn. unfold f32_round in Hr. unfold f32_normal in Hn.
  destruct (Qeq_bool q 0) eqn:Hz.
  - apply Qeq_bool_iff in Hz. injection Hr as <-.
    rewrite Hz. change (Qabs (0 - 0)) with 0. change (Qabs 0) with 0. lra.
  - cbn [orb] in Hn. apply Z.leb_le in Hn.
    assert (Hq : ~ q == 0). { intros H. apply Qeq_bool_iff in H. congruence. }
    replace (Z.max (-149) (Qlog2 q - 23)) with (Qlog2 q - 23)%Z in Hr by lia.
    set (e := (Qlog2 q - 23)%Z) in *.
    destruct (Qle_bool _ _); [ discriminate Hr | injection Hr as <- ].
    pose proof (round_half_even_error (q / pow2 e)) as Herr.
    pose proof (pow2_pos e) as He.
    set (m := inject_Z (round_half_even (q / pow2 e))) in *.
    assert (Hd : m * pow2 e - q == (m - q / pow2 e) * pow2 e).
    { field. intros H. rewrite H in He. apply (Qlt_irrefl 0), He. }
    rewrite Hd, Qabs_Qmult, (Qabs_pos (pow2 e)) by (apply Qlt_le_weak, He).
    pose proof (proj1 (Qlog2_spec q Hq)) as Hl.
    assert (Hs : pow2 (Qlog2 q) == pow2 e * pow2 23).
    { rewrite <- pow2_add. unfold e. replace (Qlog2 q - 23 + 23)%Z with (Qlog2 q) by lia.
      reflexivity. }
    rewrite Hs in Hl.
    change (pow2 23) with (8388608 # 1) in Hl. change (pow2 (-24)) with (1 # 16777216).
    apply Qle_trans with ((1 # 2) * pow2 e).
    + apply Qmult_le_compat_r; [ exact Herr | apply Qlt_le_weak, He ].
    + lra.
Qed.

(** Dividing by a multiplier and multiplying by it again, each rounded to
    float32 without underflow, returns the number up to a relative error of
    [2 ** -23 + 2 ** -48]. *)
Lemma f32_round_trip_error (w m q s p r : Q) :
  ~ m == 0 ->
  q == w / m ->
  f32_round q = Some s -> f32_normal q = true ->
  p == s * m ->
  f32_round p = Some r -> f32_normal p = true ->
  Qabs (r - w) <= Qabs w * (pow2 (-23) + pow2 (-48)).
Proof.
  intros Hm Hq Hs Hqn Hp Hr Hpn.
  pose proof (f32_round_error q s Hs Hqn) as E1.
  pose proof (f32_round_error p r Hr Hpn) as E2.
  change (pow2 (-24)) with (1 # 16777216) in E1, E2.
  change (pow2 (-23)) with (1 # 8388608). change (pow2 (-48)) with (1 # 281474976710656).
  assert (Hsm : Qabs (p - w) <= Qabs w * (1 # 16777216)).
  { assert (Hd : p - w == (s - q) * m) by (rewrite Hp, Hq; field; exact Hm).
    assert (Hw : Qabs w == Qabs q * Qabs m).
    { rewrite <- Qabs_Qmult. apply Qabs_wd. rewrite Hq. field. exact Hm. }
    rewrite Hd, Qabs_Qmult, Hw.
    setoid_replace (Qabs q * Qabs m * (1 # 16777216))
      with (Qabs q * (1 # 16777216) * Qabs m) by ring.
    apply Qmult_le_compat_r; [ exact E1 | apply Qabs_nonneg ]. }
  assert (Hpa : Qabs p <= Qabs w + Qabs (p - w)).
  { setoid_replace p with (w + (p - w)) at 1 by ring. apply Qabs_triangle. }
  assert (Hra : Qabs (r - w) <= Qabs (r - p) + Qabs (p - w)).
  { setoid_replace (r - w) with ((r - p) + (p - w)) by ring. apply Qabs_triangle. }
  pose proof (Qabs_nonneg w).
  lra.
Qed.

(** The rounding above and Rocq's specification of IEEE 754 arithmetic, at
    24 bits of precision and the exponent range of binary32, agree on
    quotients and products that round up and down, on ties, on underflow
    to a subnormal number and to zero, and on overflow. *)
Lemma f32_round_agrees_with_SpecFloat :
  forallb (fun xy => f32_agrees (fst xy) (snd xy))
          [(SF32 127 0, SF32 1000 0); (SF32 1 0, SF32 3 0); (SF32 (-7) 0, SF32 1000 0);
           (SF32 1999 0, SF32 1000 0); (SF32 1 (-149), SF32 2 0); (SF32 3 (-149), SF32 2 0);
           (SF32 5 (-149), SF32 (-4) 0); (SF32 16777215 104, SF32 1 (-1));
           (SF32 16777215 104, SF32 3 0); (SF32 (-16777215) 104, SF32 16777215 (-24));
           (SF32 8388609 0, SF32 3 0); (SF32 8388609 (-149), SF32 8388607 (-23));
           (SF32 1 (-126), SF32 16777215 (-24)); (SF32 12345 (-140), SF32 54321 7)]
  = true.
Proof. vm_compute. reflexivity. Qed.

Lemma f32_of_exact (q : Qc) : f32_exact q = true -> f32 q = Some q.
Proof.
  unfold f32_exact, f32. destruct (f32_round q) as [ r | ]; [ | discriminate ].
  intros H. apply Qeq_bool_iff in H. cbn [option_map]. f_equal.
  apply Qc_is_canon. cbn [this Q2Qc]. rewrite Qred_correct. exact H.
Qed.

Lemma f32_value (q : Qc) (r : Qc) :
  f32 q = Some r -> exists r0, f32_round q = Some r0 /\ (r == r0)%Q.
Proof.
  unfold f32. destruct (f32_round q) as [ r0 | ]; [ | discriminate ].
  cbn [option_map]. intros H. injection H as <-. exists r0.
  split; [ reflexivity | apply Qred_correct ].
Qed.

Lemma np_divide_nonzero (x m : Qc) : m <> Q2Qc 0 -> np_divide x m = f32 (x / m)%Qc.
Proof.
  intros Hm. unfold np_divide.
  destruct (Qc_eq_bool m (Q2Qc 0)) eqn:E; [ | reflexivity ].
  apply Qc_eq_bool_correct in E. contradiction.
Qed.

(** Without rounding, division and multiplication cancel. *)
Lemma read_back_exact (m w : Qc) :
  m <> Q2Qc 0 ->
  f32_exact w = true ->
  f32_exact (w / m)%Qc = true ->
  read_back m w = Some w.
Proof.
  intros Hm Hw Hq. unfold read_back. rewrite (np_divide_nonzero _ _ Hm).
  rewrite (f32_of_exact _ Hq). cbn [f32_multiply].
  replace (w / m * m)%Qc with w by (field; exact Hm).
  apply f32_of_exact, Hw.
Qed.

(** With rounding, they cancel up to two roundings. *)
Lemma read_back_error (m w s r : Qc) :
  m <> Q2Qc 0 ->
  f32 (w / m)%Qc = Some s ->
  read_back m w = Some r ->
  f32_normal (w / m)%Qc = true ->
  f32_normal (s * m)%Qc = true ->
  (Qabs (r - w) <= Qabs w * (pow2 (-23) + pow2 (-48)))%Q.
Proof.
  intros Hm Hs Hr Hqn Hpn. unfold read_back in Hr.
  rewrite (np_divide_nonzero _ _ Hm), Hs in Hr. cbn [f32_multiply] in Hr.
  destruct (f32_value _ _ Hs) as (s0 & Hs0 & Es).
  destruct (f32_value _ _ Hr) as (r0 & Hr0 & Er).
  assert (Hm0 : ~ (m == 0)%Q).
  { intros E. apply Hm. apply Qc_is_canon. exact E. }
  rewrite Er.
  apply (f32_round_trip_error w m (w / m)%Qc s0 (s * m)%Qc r0 Hm0).
  - cbn [this Qcdiv Qcmult Qcinv Q2Qc]. rewrite !Qred_correct. reflexivity.
  - exact Hs0.
  - exact Hqn.
  - cbn [this Qcmult Q2Qc]. rewrite Qred_correct, Es. reflexivity.
  - exact Hr0.
  - exact Hpn.
Qed.

(** C9, amended.  For a float32 multiplier [mult] other than zero,
    [set_flow] stores the float32 quotients [w / mult] as the weights of
    the local parameter layer, and the flow the layer then produces is the
    float32 product of these weights and [mult].  An entry [w] is read back
    as [w] when neither operation rounds; in general, when neither
    underflows, it is read back up to a relative error of
    [2 ** -23 + 2 ** -48]. *)
Theorem set_flow_then_read :
  forall a init m (warp : list Qc),
    InstanceDense a init = Ok m ->
    ~ (mult a == 0)%Q ->
    f32_exact (mult a) = true ->
    let mu := Q2Qc (mult a) in
    weights (inst_flow_layer (set_flow m warp)) = map (fun w => f32 (w / mu)%Qc) warp /\
    read_flow (set_flow m warp) = map (read_back mu) warp /\
    (forall w : Qc,
        f32_exact w = true -> f32_exact (w / mu)%Qc = true -> read_back mu w = Some w) /\
    (forall w s r : Qc,
        f32 (w / mu)%Qc = Some s -> read_back mu w = Some r ->
        f32_normal (w / mu)%Qc = true -> f32_normal (s * mu)%Qc = true ->
        (Qabs (r - w) <= Qabs w * (pow2 (-23) + pow2 (-48)))%Q).
Proof.
  intros a init m warp H Hm _ mu.
  destruct (InstanceDense_flow_layer H) as (Hmult & Hlayer & _).
  assert (Hnz : mu <> Q2Qc 0).
  { intros E. apply Hm. apply Q2Qc_eq_iff. exact E. }
  unfold read_flow, set_flow, LocalParam_get, LocalParam_set_weights.
  cbn [inst_flow_layer weights multiplier]. rewrite Hmult, Hlayer. fold mu.
  split; [ | split; [ | split ] ].
  - apply map_ext. intros x. apply np_divide_nonzero, Hnz.
  - rewrite map_map. reflexivity.
  - intros w Hw Hq. apply read_back_exact; assumption.
  - intros w s r Hs Hr Hqn Hpn. apply (read_back_error mu w s r); assumption.
Qed.

(** At the default multiplier 1000: 500 is read back as written, and 127
    within the error bound. *)
Lemma set_flow_then_read_witness :
  exists m r,
    InstanceDense (instance_args 1000) [] = Ok m /\
    read_flow (set_flow m (matrix_of_row [500; 127]%Z))
    = [Some (Q2Qc 500); Some r] /\
    (Qabs (r - Q2Qc 127) <= Qabs (Q2Qc 127) * (pow2 (-23) + pow2 (-48)))%Q.
Proof.
  destruct (InstanceDense (instance_args 1000) []) as [m | e] eqn:E;
    [ | vm_compute in E; discriminate E ].
  assert (Hm : ~ (mult (instance_args 1000) == 0)%Q) by (intros H; discriminate H).
  destruct (set_flow_then_read (instance_args 1000) [] m (matrix_of_row [500; 127]%Z)
              E Hm eq_refl) as (_ & Hread & Hexact & Herror).
  destruct (f32 (Q2Qc 127 / Q2Qc (mult (instance_args 1000)))%Qc) as [ s | ] eqn:Hs;
    [ | vm_compute in Hs; discriminate Hs ].
  destruct (read_back (Q2Qc (mult (instance_args 1000))) (Q2Qc 127)) as [ r | ] eqn:Hr;
    [ | vm_compute in Hr; discriminate Hr ].
  exists m, r. split; [ reflexivity | ]. split.
  - rewrite Hread. cbn [map matrix_of_row]. change (Q2Qc (inject_Z 127)) with (Q2Qc 127).
    rewrite Hr. f_equal. apply (Hexact (Q2Qc 500)); reflexivity.
  - apply (Herror (Q2Qc 127) s r Hs Hr); [ reflexivity | ].
    unfold f32 in Hs. vm_compute in Hs. injection Hs as <-. reflexivity.
Defined.

(** C9, as stated, fails twice.  At the default multiplier 1000 the two
    roundings do not cancel: 127 is read back as 127 + 2 ** -17.  At the
    multiplier zero the division leaves non-finite weights. *)
Lemma set_flow_round_trip_counterexample :
  (exists m,
      InstanceDense (instance_args 1000) [] = Ok m /\
      map (option_map this) (read_flow (set_flow m (matrix_of_row [127]%Z)))
      = [Some (16646145 # 131072)%Q] /\
      read_flow (set_flow m (matrix_of_row [127]%Z)) <> map Some (matrix_of_row [127]%Z)) /\
  (exists m,
      InstanceDense (instance_args 0) [] = Ok m /\
      read_flow (set_flow m (matrix_of_row [1]%Z)) = [None] /\
      read_flow (set_flow m (matrix_of_row [1]%Z)) <> map Some (matrix_of_row [1]%Z)).
Proof.
  split.
  - eexists. split; [ reflexivity | ]. split.
    + vm_compute. reflexivity.
    + intros H. apply (f_equal (map (option_map this))) in H. vm_compute in H.
      discriminate H.
  - eexists. split; [ reflexivity | ]. split.
    + reflexivity.
    + intros H. discriminate H.
Qed.

(** ** The mean stream of the template networks *)

(** [TemplateCreation] feeds the negative flow of its bidirectional
    [VxmDense] model to a [MeanStream] layer with [cap=mean_cap]. *)
Lemma TemplateCreation_mean_stream {Unet a m} :
  TemplateCreation Unet a = Ok m ->
  exists vxm y_target neg_flow,
    ref_neg_flow (references vxm) = Some neg_flow /\
    outputs m = [ref_y_source (references vxm); y_target;
                 Apply (MeanStream (mean_cap a)) [neg_flow];
                 ref_pos_flow (references vxm)].
Proof.
  unfold TemplateCreation, neg_flow_of, y_target_of. intros H. build_inv H.
  destruct (ref_neg_flow (references a0)) as [n | ] eqn:En; [ | discriminate E1 ].
  injection E1 as ->. injection H as <-.
  exists a0, a1, a2. split; [ exact En | reflexivity ].
Qed.

(** [ConditionalTemplateCreation] does the same under [use_mean_stream]. *)
Lemma ConditionalTemplateCreation_mean_stream {Unet a m} :
  ConditionalTemplateCreation Unet a = Ok m ->
  use_mean_stream a = true ->
  exists vxm neg_flow,
    ref_neg_flow (references vxm) = Some neg_flow /\
    outputs m = [ref_y_source (references vxm);
                 Apply (MeanStream (c_mean_cap a)) [neg_flow];
                 ref_pos_flow (references vxm); ref_pos_flow (references vxm)].
Proof.
  unfold ConditionalTemplateCreation, neg_flow_of. intros H Hu. rewrite Hu in H.
  build_inv H.
  match goal with
  | E : match ref_neg_flow (references ?v) with _ => _ end = Ok ?n |- _ =>
      destruct (ref_neg_flow (references v)) as [n' | ] eqn:En; [ | discriminate E ];
      injection E as ->; injection H as <-;
      exists v, n; split; [ exact En | reflexivity ]
  end.
Qed.

(* ================================================================== *)
(** * Further properties of the builders *)
(* ================================================================== *)

(** ** VxmDense *)

Lemma tensors_probs {Unet a inputs fp refs} :
  VxmDense_tensors Unet a = Ok (inputs, fp, refs) ->
  use_probs a = true ->
  exists flow_mean flow_logsigma,
    fp = Some (Apply Concatenate [flow_mean; flow_logsigma]).
Proof.
  intros H Hp. unfold VxmDense_tensors in H. rewrite Hp in H.
  build_inv H. injection H as _ <- _. eauto.
Qed.

(** X1.  With [use_probs=True] the regularization output is the
    concatenation of the flow mean and its log-variance, and [reg_field] is
    never looked at: every selector, known or not, gives the same result. *)
Theorem VxmDense_use_probs_ignores_reg_field :
  forall (Unet : UnetArgs -> result UnetModel) (a : VxmDenseArgs) (rf : string),
    use_probs a = true ->
    VxmDense Unet (with_reg_field a rf) = VxmDense Unet a /\
    forall m, VxmDense Unet a = Ok m ->
      exists flow_mean flow_logsigma,
        outputs (vxm_model m)
        = (warped_outputs (references m)
           ++ [Apply Concatenate [flow_mean; flow_logsigma]])%list.
Proof.
  intros Unet a rf Hp.
  assert (Hsame : VxmDense_tensors Unet (with_reg_field a rf) = VxmDense_tensors Unet a)
    by reflexivity.
  unfold VxmDense. rewrite Hsame.
  destruct (VxmDense_tensors Unet a) as [ [[i fp] refs] | e ] eqn:Ht; cbn [bind].
  - destruct (tensors_probs Ht Hp) as (fm & fl & ->). cbn [bind].
    split; [ reflexivity | ].
    intros m Hm. injection Hm as <-. exists fm, fl. reflexivity.
  - split; [ reflexivity | ]. intros m Hm. discriminate Hm.
Qed.

Lemma tensors_flows {Unet a inputs fp refs} :
  VxmDense_tensors Unet a = Ok (inputs, fp, refs) ->
  exists ls,
    forallb is_field_op ls = true /\
    ref_pos_flow refs = apply_chain ls (ref_preint_flow refs) /\
    ref_neg_flow refs
    = (if bidir a then Some (apply_chain ls (Apply Negate [ref_preint_flow refs])) else None) /\
    ref_y_source refs
    = Apply (SpatialTransformer (Some "linear"%string) (fill_value a) None None)
            [ref_source refs; ref_pos_flow refs] /\
    ref_y_target refs
    = option_map (fun n => Apply (SpatialTransformer (Some "linear"%string) (fill_value a)
                                                     None None) [ref_target refs; n])
                 (ref_neg_flow refs).
Proof.
  intros H. unfold VxmDense_tensors in H. cbv zeta in H.
  destruct (0 <? int_steps a)%Z eqn:Hs; cbn [andb] in H.
  - destruct (negb (Qle_bool _ 1)) eqn:Hr in H; build_inv H; injection H as _ _ <-;
      cbn [ref_pos_flow ref_preint_flow ref_neg_flow ref_y_source ref_y_target
           ref_source ref_target].
    all: repeat match goal with
         | E : bind ?r _ = Ok _ |- _ =>
             destruct r eqn:?; cbn [bind] in E; [ | discriminate E ]
         | E : Ok (_, _) = Ok (_, _) |- _ => injection E as <- <-
         end.
    all: first [ refine (ex_intro _ [_; _] (conj _ (conj eq_refl _)))
               | refine (ex_intro _ [_] (conj _ (conj eq_refl _))) ].
    all: try reflexivity.
    all: destruct (bidir a); cbn; auto.
  - build_inv H; injection H as _ _ <-;
      cbn [ref_pos_flow ref_preint_flow ref_neg_flow ref_y_source ref_y_target
           ref_source ref_target].
    all: exists []; destruct (bidir a); cbn; auto 6.
Qed.

(** X2.  A built model warps the source with [pos_flow], which is the
    pre-integration flow passed through a chain of integration and rescaling
    layers.  Under [bidir] the negative flow is the negated pre-integration
    flow passed through the very same chain (negation comes before
    integration), it warps the target, and the model has three outputs;
    without [bidir] there is no negative flow and there are two outputs. *)
Theorem VxmDense_negative_flow_mirrors_positive :
  forall (Unet : UnetArgs -> result UnetModel) (a : VxmDenseArgs) (m : VxmDenseModel),
    VxmDense Unet a = Ok m ->
    let refs := references m in
    let warp img flow :=
      Apply (SpatialTransformer (Some "linear"%string) (fill_value a) None None) [img; flow] in
    exists ls,
      forallb is_field_op ls = true /\
      ref_pos_flow refs = apply_chain ls (ref_preint_flow refs) /\
      ref_y_source refs = warp (ref_source refs) (ref_pos_flow refs) /\
      if bidir a
      then exists neg,
             neg = apply_chain ls (Apply Negate [ref_preint_flow refs]) /\
             ref_neg_flow refs = Some neg /\
             ref_y_target refs = Some (warp (ref_target refs) neg) /\
             List.length (outputs (vxm_model m)) = 3%nat
      else ref_neg_flow refs = None /\
           ref_y_target refs = None /\
           List.length (outputs (vxm_model m)) = 2%nat.
Proof.
  intros Unet a m Hm. cbv zeta.
  destruct (VxmDense_inv Hm) as (inputs & fp & Ht).
  destruct (tensors_flows Ht) as (ls & Hls & Hpos & Hneg & Hys & Hyt).
  exists ls. split; [ exact Hls | ]. split; [ exact Hpos | ]. split; [ exact Hys | ].
  assert (Hlen : List.length (outputs (vxm_model m))
                 = S (List.length (warped_outputs (references m)))).
  { unfold VxmDense in Hm. rewrite Ht in Hm. cbn [bind] in Hm.
    fold (warped_outputs (references m)) in Hm.
    bind_inv Hm. injection Hm as <-. cbn [vxm_model outputs references] in *.
    destruct fp as [ p | ].
    - injection E as Ev. rewrite <- Ev, length_app. cbn [List.length]. apply Nat.add_1_r.
    - repeat match type of E with
             | context [if ?c then _ else _] => destruct c
             end; try discriminate E; injection E as Ev; rewrite <- Ev;
        rewrite length_app; cbn [List.length]; apply Nat.add_1_r. }
  unfold warped_outputs in Hlen.
  destruct (bidir a).
  - eexists. split; [ reflexivity | ]. split; [ exact Hneg | ].
    rewrite Hneg in Hyt. cbn [option_map] in Hyt.
    split; [ exact Hyt | ]. rewrite Hlen, Hyt. reflexivity.
  - split; [ exact Hneg | ]. rewrite Hneg in Hyt. cbn [option_map] in Hyt.
    split; [ exact Hyt | ]. rewrite Hlen, Hyt. reflexivity.
Qed.

(** The theorem on the default model of a 4 by 4 image with
    [use_probs=True], asked for the (unknown) field ['Bogus']. *)
Lemma VxmDense_use_probs_ignores_reg_field_witness :
  let a := with_use_probs (VxmDense_defaults [4; 4]%Z) true in
  VxmDense (unet_of_size [4; 4]%Z) (with_reg_field a "Bogus")
  = VxmDense (unet_of_size [4; 4]%Z) a
  /\ exists m, VxmDense (unet_of_size [4; 4]%Z) a = Ok m
               /\ List.length (outputs (vxm_model m)) = 2%nat.
Proof.
  intros a.
  destruct (VxmDense_use_probs_ignores_reg_field (unet_of_size [4; 4]%Z) a "Bogus" eq_refl)
    as [Hsame Hout].
  split; [ exact Hsame | ].
  destruct (VxmDense (unet_of_size [4; 4]%Z) a) as [ m | e ] eqn:E;
    [ | vm_compute in E; discriminate E ].
  exists m. split; [ reflexivity | ].
  destruct (Hout m eq_refl) as (fm & fl & ->).
  assert (Hm : Ok m = VxmDense (unet_of_size [4; 4]%Z) a) by (symmetry; exact E).
  vm_compute in Hm. injection Hm as ->. reflexivity.
Defined.

(** The theorem on the default bidirectional model of a 4 by 4 image: the
    chain is a rescaling to half size, seven integration steps and the
    rescaling back. *)
Lemma VxmDense_negative_flow_mirrors_positive_witness :
  exists m, VxmDense (unet_of_size [4; 4]%Z) (with_bidir (VxmDense_defaults [4; 4]%Z) true) = Ok m
            /\ exists neg, ref_neg_flow (references m) = Some neg
                           /\ List.length (outputs (vxm_model m)) = 3%nat.
Proof.
  destruct (VxmDense (unet_of_size [4; 4]%Z) (with_bidir (VxmDense_defaults [4; 4]%Z) true))
    as [ m | e ] eqn:E; [ | vm_compute in E; discriminate E ].
  exists m. split; [ reflexivity | ].
  destruct (VxmDense_negative_flow_mirrors_positive _ _ _ E) as (ls & _ & _ & _ & H).
  cbn [bidir with_bidir] in H.
  destruct H as (neg & _ & Hneg & _ & Hlen).
  exists neg. split; [ exact Hneg | exact Hlen ].
Defined.

Lemma array_equal_hd {x y : list Z} :
  array_equal x y = true -> hd_error x = hd_error y.
Proof.
  destruct x as [ | a x ], y as [ | b y ]; cbn; try discriminate; [ reflexivity | ].
  intros H. apply andb_prop in H. destruct H as [H _].
  apply Z.eqb_eq in H. subst. reflexivity.
Qed.

Lemma index0_hd {A : Type} {l : list A} {x : A} :
  index0 l = Ok x -> hd_error l = Some x.
Proof. destruct l; cbn; [ discriminate | ]. intros H. injection H as ->. reflexivity. Qed.

Lemma inject_Z_nonzero {x : Z} : x <> 0%Z -> ~ inject_Z x == 0.
Proof.
  intros H E. apply H. unfold Qeq in E. cbn in E. lia.
Qed.

(** X3.  When integration is on ([int_steps > 0]) at a coarser resolution
    ([int_resolution > 1]), the warp is the U-Net's flow passed through
    rescaling and integration layers whose rescaling factors multiply to
    [inshape[0] / p0], where [p0] is the first spatial size of the U-Net
    output: whatever the intermediate SVF and integration sizes are, the
    factors cancel and the warp is scaled back to the input grid. *)
Theorem VxmDense_rescale_round_trip :
  forall (Unet : UnetArgs -> result UnetModel) (a : VxmDenseArgs) (m : VxmDenseModel)
         (d0 p0 s0 i0 : Z),
    VxmDense Unet a = Ok m ->
    (forall ua u, Unet ua = Ok u -> hd_error (unet_out_size u) = Some p0) ->
    (0 < int_steps a)%Z ->
    Qle_bool (effective_int_resolution a) 1 = false ->
    hd_error (inshape a) = Some d0 ->
    hd_error (rounded_sizes (inshape a) (effective_svf_resolution a)) = Some s0 ->
    hd_error (rounded_sizes (inshape a) (effective_int_resolution a)) = Some i0 ->
    p0 <> 0%Z -> s0 <> 0%Z -> i0 <> 0%Z ->
    exists ls l args,
      ref_pos_flow (references m) = apply_chain ls (Apply l args) /\
      forallb is_field_op ls = true /\
      is_field_op l = false /\
      chain_factor ls == inject_Z d0 / inject_Z p0.
Proof.
  intros Unet a m d0 p0 s0 i0 Hm Hu Hsteps Hres Hd Hs Hi Hp0 Hs0 Hi0.
  destruct (VxmDense_inv Hm) as (inputs & fp & Ht). clear Hm.
  unfold effective_int_resolution, effective_svf_resolution in *.
  apply Z.ltb_lt in Hsteps.
  unfold VxmDense_tensors in Ht. cbv zeta in Ht.
  rewrite Hsteps, Hres in Ht. cbn [andb negb] in Ht.
  set (S := rounded_sizes (inshape a) (if unet_half_res a then 2 else svf_resolution a)) in *.
  set (I := rounded_sizes (inshape a) _) in Hi, Ht.
  destruct (use_probs a); build_inv Ht; injection Ht as _ _ <-; cbn [ref_pos_flow].
  all: repeat match goal with
         | E : bind ?r _ = Ok _ |- _ =>
             destruct r eqn:?; cbn [bind] in E; [ | discriminate E ]
         | E : Ok (_, _) = Ok (_, _) |- _ => injection E as <- <-
         | E : index0 _ = Ok _ |- _ => apply index0_hd in E
         end.
  all: match goal with
       | E : _ = @Ok UnetModel ?u |- _ => pose proof (Hu _ _ E) as Hp
       end.
  all: repeat match goal with
         | E : (if ?c then _ else _) = Ok _ |- _ =>
             let C := fresh "C" in destruct c eqn:C
         | E : bind ?r _ = Ok _ |- _ =>
             destruct r eqn:?; cbn [bind] in E; [ | discriminate E ]
         | E : index0 _ = Ok _ |- _ => apply index0_hd in E
         | E : Ok _ = Ok _ |- _ => injection E as <-
         | C : negb _ = true |- _ => apply negb_true_iff in C
         | C : negb _ = false |- _ => apply negb_false_iff in C
         | C : array_equal _ _ = true |- _ => apply array_equal_hd in C
         end.
  all: repeat match goal with
         | E : hd_error ?x = hd_error ?y, E' : hd_error ?x = Some _ |- _ =>
             rewrite E' in E; symmetry in E
         | E : hd_error ?x = Some ?v, E' : hd_error ?x = Some ?w |- _ =>
             assert (w = v) by congruence; clear E'; first [ subst w | subst v ]
         end.
  all: pose proof (inject_Z_nonzero Hp0); pose proof (inject_Z_nonzero Hs0);
    pose proof (inject_Z_nonzero Hi0).
  all: first
         [ solve [ refine (ex_intro _ [_; _; _; _] (ex_intro _ _ (ex_intro _ _
                     (conj eq_refl (conj eq_refl (conj eq_refl _))))));
                   cbn [chain_factor]; field; auto ]
         | solve [ refine (ex_intro _ [_; _; _] (ex_intro _ _ (ex_intro _ _
                     (conj eq_refl (conj eq_refl (conj eq_refl _))))));
                   cbn [chain_factor]; field; auto ]
         | solve [ refine (ex_intro _ [_; _] (ex_intro _ _ (ex_intro _ _
                     (conj eq_refl (conj eq_refl (conj eq_refl _))))));
                   cbn [chain_factor]; field; auto ] ].
Qed.

(** The theorem on an 8 by 8 image with [svf_resolution=2] and a U-Net
    whose output is at full size: the flow is rescaled by [4/8], integrated,
    and rescaled by [8/4]. *)
Lemma VxmDense_rescale_round_trip_witness :
  let a := with_svf_resolution (VxmDense_defaults [8; 8]%Z) 2 in
  exists m ls l args,
    VxmDense (unet_of_size [8; 8]%Z) a = Ok m /\
    ref_pos_flow (references m) = apply_chain ls (Apply l args) /\
    chain_factor ls == 8 / 8.
Proof.
  intros a.
  destruct (VxmDense (unet_of_size [8; 8]%Z) a) as [ m | e ] eqn:E;
    [ | vm_compute in E; discriminate E ].
  destruct (VxmDense_rescale_round_trip (unet_of_size [8; 8]%Z) a m 8 8 4 4 E)
    as (ls & l & args & Hpos & _ & _ & Hf).
  - intros ua u Hu. injection Hu as <-. reflexivity.
  - reflexivity.
  - reflexivity.
  - reflexivity.
  - reflexivity.
  - reflexivity.
  - discriminate.
  - discriminate.
  - discriminate.
  - exists m, ls, l, args. split; [ reflexivity | ]. split; [ exact Hpos | exact Hf ].
Defined.

(** ** Prediction *)

(** Induction on a tensor, with the hypothesis for every argument. *)
Lemma tensor_induction (P : tensor -> Prop) :
  (forall i, P (Input i)) ->
  (forall l args, Forall P args -> P (Apply l args)) ->
  forall t, P t.
Proof.
  intros Hin Hap.
  fix IH 1. intros [ i | l args ].
  - apply Hin.
  - apply Hap. induction args as [ | t args IHargs ]; constructor.
    + apply IH.
    + exact IHargs.
Qed.

(** The value of a tensor depends on the values fed to its own inputs only. *)
Lemma eval_feed_ext (ext : layer -> list arr -> arr) (f g : kinput -> arr) (t : tensor) :
  (forall i, In i (inputs_of t) -> f i = g i) ->
  eval f ext t = eval g ext t.
Proof.
  induction t as [ i | l args IH ] using tensor_induction; intros H.
  - cbn. apply H. cbn. auto.
  - cbn [eval]. f_equal.
    induction IH as [ | t args Ht _ IHargs ]; cbn [map]; [ reflexivity | ].
    f_equal.
    + apply Ht. intros i Hi. apply H. cbn [inputs_of flat_map]. apply in_or_app. auto.
    + apply IHargs. intros i Hi. apply H. cbn [inputs_of flat_map] in *.
      apply in_or_app. auto.
Qed.

Lemma depends_only_on_apply (ins : list kinput) (l : layer) (args : list tensor) :
  depends_only_on ins (Apply l args) = forallb (depends_only_on ins) args.
Proof.
  unfold depends_only_on. cbn [inputs_of].
  induction args as [ | t args IH ]; cbn [flat_map forallb]; [ reflexivity | ].
  rewrite forallb_app, IH. reflexivity.
Qed.

Lemma depends_only_on_more (ins more : list kinput) (t : tensor) :
  depends_only_on ins t = true -> depends_only_on (ins ++ more) t = true.
Proof.
  unfold depends_only_on. rewrite !forallb_forall. intros H i Hi.
  specialize (H i Hi). unfold is_among in *. rewrite existsb_app, H. reflexivity.
Qed.

(** A model whose outputs hang on its own inputs. *)
Lemma default_input_model_closed (s t : kinput) :
  forallb (depends_only_on [s; t]) [Input s; Input t] = true.
Proof.
  unfold depends_only_on, is_among. cbn [forallb inputs_of existsb].
  rewrite !String.eqb_refl. cbn. rewrite orb_true_r. reflexivity.
Qed.

(** The warp of a dense model hangs on the model's inputs, when the input
    model is closed and the U-Net keeps it so. *)
Lemma tensors_closed {Unet a ins fp refs} :
  VxmDense_tensors Unet a = Ok (ins, fp, refs) ->
  (forall ua u, Unet ua = Ok u ->
                closed_model (u_input_model ua) = true ->
                depends_only_on (inputs (u_input_model ua)) (unet_output u) = true) ->
  match input_model a with
  | Some im => closed_model im = true
  | None => True
  end ->
  depends_only_on ins (ref_pos_flow refs) = true.
Proof.
  intros Ht HU Him.
  unfold VxmDense_tensors in Ht. cbv zeta in Ht.
  destruct (hyp_model a) as [ [hi ht] | ];
    destruct (use_probs a); destruct (0 <? int_steps a)%Z;
    build_inv Ht; injection Ht as <- _ <-; cbn [ref_pos_flow].
  all: match goal with
       | E : _ = @Ok UnetModel ?u |- _ => pose proof (HU _ _ E) as Hc; cbn [u_input_model] in Hc
       end.
  all: match type of Hc with
       | ?P -> _ =>
           assert (Hclosed : P);
           [ destruct (input_model a) as [ im | ];
             [ destruct (outputs im) as [ | ? [ | ? ? ] ] eqn:?; try discriminate;
               match goal with E : Ok _ = Ok _ |- _ => injection E as <- _ _ end; exact Him
             | match goal with E : Ok _ = Ok _ |- _ => injection E as <- _ _ end;
               apply default_input_model_closed ]
           | specialize (Hc Hclosed) ]
       end.
  all: repeat match goal with
         | E : (if ?c then _ else _) = Ok _ |- _ =>
             let C := fresh "C" in destruct c eqn:C
         | E : bind ?r _ = Ok _ |- _ =>
             destruct r eqn:?; cbn [bind] in E; [ | discriminate E ]
         | E : Ok (_, _) = Ok (_, _) |- _ => injection E as <- <-
         | E : Ok _ = Ok _ |- _ => injection E as <-
         end.
  all: repeat match goal with
         | |- context [if ?c then _ else _] => destruct c
         end.
  all: repeat first [ rewrite depends_only_on_apply
                    | progress cbn [forallb]
                    | rewrite andb_true_r ].
  all: first [ rewrite !Hc; reflexivity
             | apply depends_only_on_more with (more := [hi]) in Hc; rewrite !Hc; reflexivity ].
Qed.

Lemma VxmDense_model_inv {Unet a m} :
  VxmDense Unet a = Ok m ->
  exists fp reg,
    VxmDense_tensors Unet a = Ok (inputs (vxm_model m), fp, references m) /\
    outputs (vxm_model m) = (warped_outputs (references m) ++ [reg])%list.
Proof.
  unfold VxmDense. intros H.
  destruct (VxmDense_tensors Unet a) as [ [[ins fp] refs] | e ]; cbn [bind] in H;
    [ | discriminate H ].
  fold (warped_outputs refs) in H.
  bind_inv H. injection H as <-. cbn [vxm_model references inputs outputs].
  exists fp.
  destruct fp as [ p | ].
  - injection E as <-. eauto.
  - repeat match type of E with
           | context [if ?c then _ else _] => destruct c
           end; try discriminate E; injection E as <-; eauto.
Qed.

Lemma tensors_default_inputs {Unet a ins fp refs} :
  VxmDense_tensors Unet a = Ok (ins, fp, refs) ->
  input_model a = None ->
  ref_source refs = Input (default_source_input a) /\
  ref_target refs = Input (default_target_input a) /\
  ins = match hyp_model a with
        | Some (hi, _) =>
            if is_among hi [default_source_input a; default_target_input a]
            then [default_source_input a; default_target_input a]
            else [default_source_input a; default_target_input a; hi]
        | None => [default_source_input a; default_target_input a]
        end.
Proof.
  intros Ht Hin.
  unfold VxmDense_tensors in Ht. cbv zeta in Ht. rewrite Hin in Ht.
  cbn [bind inputs] in Ht.
  unfold default_source_input, default_target_input.
  destruct (hyp_model a) as [ [hi ht] | ];
    build_inv Ht; injection Ht as <- _ <-; cbn [ref_source ref_target];
    repeat split; reflexivity.
Qed.

(** X4.  [register] and [apply_transform] feed two (three) arrays.  A model
    built on its own two inputs and a hypernetwork has a third input, the
    hypernetwork's, so both methods are refused by Keras whatever the arrays
    are. *)
Theorem register_refuses_a_hypernetwork_model :
  forall (Unet : UnetArgs -> result UnetModel) (a : VxmDenseArgs) (m : VxmDenseModel)
         (hyp_input : kinput) (hyp_tensor : tensor),
    VxmDense Unet a = Ok m ->
    input_model a = None ->
    hyp_model a = Some (hyp_input, hyp_tensor) ->
    is_among hyp_input [default_source_input a; default_target_input a] = false ->
    inputs (vxm_model m) = [default_source_input a; default_target_input a; hyp_input] /\
    forall ext src trg img img_input interp_method,
      register ext m src trg
      = Raise (ValueError "Layer expects a different number of inputs") /\
      apply_transform ext m src trg img img_input interp_method
      = Raise (ValueError "Layer expects a different number of inputs").
Proof.
  intros Unet a m hi ht Hm Hin Hhyp Hfresh.
  destruct (VxmDense_model_inv Hm) as (fp & reg & Ht & _).
  destruct (tensors_default_inputs Ht Hin) as (_ & _ & Hins).
  rewrite Hhyp, Hfresh in Hins.
  split; [ exact Hins | ].
  intros ext src trg img ii interp.
  unfold apply_transform, register, predict_on, get_registration_model.
  cbn [inputs outputs index0 bind]. rewrite Hins. split; reflexivity.
Qed.

Lemma feed_of_default (s t ii : kinput) (src trg img : arr) (i : kinput) :
  is_among i [s; t] = true ->
  feed_of ([s; t] ++ [ii]) [src; trg; img] i = feed_of [s; t] [src; trg] i.
Proof.
  unfold is_among. cbn [existsb app feed_of]. rewrite orb_false_r.
  rewrite (String.eqb_sym (input_name i) (input_name s)).
  rewrite (String.eqb_sym (input_name i) (input_name t)).
  destruct (String.eqb (input_name s) (input_name i)); [ reflexivity | ].
  destruct (String.eqb (input_name t) (input_name i)); [ reflexivity | discriminate ].
Qed.

(** X5.  On a model built on its own two inputs, without hypernetwork,
    without [fill_value] and without [use_probs] (whose sampling layer draws
    anew at every prediction), whose U-Net output hangs on these inputs:
    [register] returns the value of [pos_flow], the model's first
    prediction is the source warped by it, and [apply_transform] of the
    source image with the default interpolation returns that same moved
    image. *)
Theorem apply_transform_reproduces_the_moved_image :
  forall (Unet : UnetArgs -> result UnetModel) (a : VxmDenseArgs) (m : VxmDenseModel)
         (ext : layer -> list arr -> arr) (src trg : arr) (img_input : kinput),
    VxmDense Unet a = Ok m ->
    input_model a = None ->
    hyp_model a = None ->
    fill_value a = None ->
    use_probs a = false ->
    (forall ua u, Unet ua = Ok u ->
                  closed_model (u_input_model ua) = true ->
                  depends_only_on (inputs (u_input_model ua)) (unet_output u) = true) ->
    is_among img_input (inputs (vxm_model m)) = false ->
    exists flow moved rest,
      register ext m src trg = Ok [flow] /\
      moved = ext (SpatialTransformer (Some "linear"%string) None None None) [src; flow] /\
      predict_on ext (vxm_model m) [src; trg] = Ok (moved :: rest) /\
      apply_transform ext m src trg src img_input "linear" = Ok [moved].
Proof.
  intros Unet a m ext src trg ii Hm Hin Hhyp Hfill _ HU Hfresh.
  destruct (VxmDense_model_inv Hm) as (fp & reg & Ht & Hout).
  destruct (tensors_default_inputs Ht Hin) as (Hsrc & _ & Hins).
  destruct (tensors_flows Ht) as (ls & _ & _ & _ & Hys & _).
  assert (Hclosed : depends_only_on (inputs (vxm_model m)) (ref_pos_flow (references m))
                    = true).
  { apply (tensors_closed Ht HU). rewrite Hin. exact I. }
  rewrite Hhyp in Hins. rewrite Hfill, Hsrc in Hys.
  set (s := default_source_input a) in *. set (t := default_target_input a) in *.
  set (pos := ref_pos_flow (references m)) in *.
  exists (eval (feed_of [s; t] [src; trg]) ext pos). eexists.
  exists (map (eval (feed_of [s; t] [src; trg]) ext) (tl (outputs (vxm_model m)))).
  split; [ | split; [ reflexivity | split ] ].
  - unfold register, predict_on, get_registration_model, predict.
    cbn [inputs outputs]. rewrite Hins. reflexivity.
  - unfold predict_on, predict. rewrite Hins, Hout.
    unfold warped_outputs. rewrite Hys.
    cbn [List.length Nat.eqb].
    destruct (ref_y_target (references m)); cbn [app map eval apply_layer feed_of tl];
      rewrite String.eqb_refl; reflexivity.
  - unfold apply_transform, predict_on, get_registration_model, predict.
    cbn [inputs outputs index0 bind]. rewrite Hins.
    cbn [List.length Nat.eqb]. fold pos.
    set (f3 := feed_of ([s; t] ++ [ii]) [src; trg; src]).
    assert (Hii : f3 ii = src).
    { rewrite Hins in Hfresh. unfold is_among in Hfresh. cbn [existsb] in Hfresh.
      rewrite orb_false_r in Hfresh. apply orb_false_elim in Hfresh.
      destruct Hfresh as [H1 H2].
      unfold f3. cbn [feed_of app].
      rewrite (String.eqb_sym (input_name s)), H1.
      rewrite (String.eqb_sym (input_name t)), H2.
      rewrite String.eqb_refl. reflexivity. }
    assert (Hpos : eval f3 ext pos = eval (feed_of [s; t] [src; trg]) ext pos).
    { apply eval_feed_ext. intros i Hi.
      apply (feed_of_default s t ii src trg src).
      rewrite Hins in Hclosed. unfold depends_only_on in Hclosed.
      rewrite forallb_forall in Hclosed. apply Hclosed. exact Hi. }
    cbn [map eval apply_layer]. rewrite Hii, Hpos. reflexivity.
Qed.

(** The theorem on the default model of a 4 by 4 image with a hypernetwork. *)
Lemma register_refuses_a_hypernetwork_model_witness :
  exists m,
    VxmDense (unet_of_size [4; 4]%Z) dense_hyper = Ok m /\
    List.length (inputs (vxm_model m)) = 3%nat /\
    register first_argument m (pixel 1) (pixel 2)
    = Raise (ValueError "Layer expects a different number of inputs").
Proof.
  destruct (VxmDense (unet_of_size [4; 4]%Z) dense_hyper) as [ m | e ] eqn:E;
    [ | vm_compute in E; discriminate E ].
  exists m. split; [ reflexivity | ].
  destruct (register_refuses_a_hypernetwork_model
              (unet_of_size [4; 4]%Z) dense_hyper m hyper_input
              (Apply (Network "hypernet") [Input hyper_input]) E eq_refl eq_refl eq_refl)
    as [Hins H].
  split; [ rewrite Hins; reflexivity | ].
  exact (proj1 (H first_argument (pixel 1) (pixel 2) (pixel 3) image_input "linear"%string)).
Defined.

Lemma unet_of_size_closed (size : list Z) (ua : UnetArgs) (u : UnetModel) :
  unet_of_size size ua = Ok u ->
  closed_model (u_input_model ua) = true ->
  depends_only_on (inputs (u_input_model ua)) (unet_output u) = true.
Proof.
  intros H Hc. injection H as <-. cbn [unet_output].
  rewrite depends_only_on_apply. exact Hc.
Qed.

(** The theorem on the default model of a 4 by 4 image, with layers that
    pass their first argument on: the moved image is the source itself. *)
Lemma apply_transform_reproduces_the_moved_image_witness :
  exists m moved rest,
    VxmDense (unet_of_size [4; 4]%Z) (VxmDense_defaults [4; 4]%Z) = Ok m /\
    predict_on first_argument (vxm_model m) [pixel 1; pixel 2] = Ok (moved :: rest) /\
    apply_transform first_argument m (pixel 1) (pixel 2) (pixel 1) image_input "linear"
    = Ok [moved].
Proof.
  destruct (VxmDense (unet_of_size [4; 4]%Z) (VxmDense_defaults [4; 4]%Z))
    as [ m | e ] eqn:E; [ | vm_compute in E; discriminate E ].
  destruct (apply_transform_reproduces_the_moved_image
              (unet_of_size [4; 4]%Z) (VxmDense_defaults [4; 4]%Z) m first_argument
              (pixel 1) (pixel 2) image_input E eq_refl eq_refl eq_refl eq_refl
              (unet_of_size_closed [4; 4]%Z))
    as (flow & moved & rest & _ & _ & Hp & Ha).
  - assert (Hm : Ok m = VxmDense (unet_of_size [4; 4]%Z) (VxmDense_defaults [4; 4]%Z))
      by (symmetry; exact E).
    vm_compute in Hm. injection Hm as ->. reflexivity.
  - exists m, moved, rest. split; [ reflexivity | ]. split; [ exact Hp | exact Ha ].
Defined.

(** ** InstanceDense and Transform *)

Lemma truediv_value (d : Z) (x : number) :
  Qle_bool (number_value x) 1 = false ->
  truediv d x = Ok (inject_Z d / number_value x)%Q.
Proof.
  destruct x as [ n | q ]; cbn [number_value truediv]; intros H.
  - destruct (Z.eqb_spec n 0) as [ -> | _ ]; [ discriminate H | reflexivity ].
  - destruct (Qeq_bool q 0) eqn:E; [ | reflexivity ].
    apply Qeq_bool_iff in E.
    assert (Hle : (q <= 1)%Q) by (rewrite E; discriminate).
    apply Qle_bool_iff in Hle. rewrite Hle in H. discriminate H.
Qed.

Lemma mapM_total {A B : Type} (f : A -> result B) (g : A -> B) (l : list A) :
  (forall x, f x = Ok (g x)) -> mapM f l = Ok (map g l).
Proof.
  intros H. induction l as [ | x l IH ]; cbn [mapM map]; [ reflexivity | ].
  rewrite H, IH. reflexivity.
Qed.

(** X6.  An instance model that integrates ([int_steps > 0]) at a coarser
    resolution ([int_resolution > 1]) is [Transform] with [rescale] set to
    that resolution, applied to the source and the integrated flow: the
    transform input has the shape of the flow layer, and calling the
    transform model on the two tensors rebuilds the instance model's moved
    image. *)
Theorem InstanceDense_is_Transform_of_the_integrated_flow :
  forall (a : InstanceDenseArgs) (init : list weight) (m : InstanceDenseModel) (x : number),
    InstanceDense a init = Ok m ->
    (0 < i_int_steps a)%Z ->
    Qle_bool (instance_resolution a) 1 = false ->
    number_value x = instance_resolution a ->
    let source := KInput "source" (i_inshape a ++ [nb_feats a])%list in
    exists T trf_input,
      Transform (dense_transform_args (i_inshape a) x (nb_feats a)) = Ok T /\
      inputs T = [KInput "scan_input" (i_inshape a ++ [nb_feats a])%list; trf_input] /\
      inst_preint_flow m
      = Apply (LocalParamWithInput (input_shape trf_input) (mult a)) [Input source] /\
      call_model T [Input source;
                    Apply (VecInt "ss" (i_int_steps a)) [inst_preint_flow m]]
      = Ok (firstn 1 (outputs (inst_model m))).
Proof.
  intros a init m x Hm Hsteps Hres Hx source.
  unfold instance_resolution in *.
  unfold InstanceDense in Hm. cbv zeta in Hm.
  apply Z.ltb_lt in Hsteps. rewrite Hsteps, Hres in Hm. cbn [negb] in Hm.
  destruct (Qeq_bool _ 0) eqn:E0 in Hm.
  { apply Qeq_bool_iff in E0.
    assert (Hle : (match i_int_downsize a with Some d => d | None => i_int_resolution a end
                   <= 1)%Q) by (rewrite E0; discriminate).
    apply Qle_bool_iff in Hle. rewrite Hle in Hres. discriminate Hres. }
  cbn [bind] in Hm. injection Hm as <-.
  cbn [inst_preint_flow inst_model outputs firstn].
  unfold Transform, dense_transform_args.
  cbn [tr_affine tr_rescale tr_inshape tr_nb_feats tr_interp_method tr_fill_value].
  rewrite (mapM_total _ (fun d => py_int (inject_Z d / number_value x)%Q)).
  2:{ intros d. rewrite truediv_value by (rewrite Hx; exact Hres). reflexivity. }
  cbn [bind]. do 2 eexists. split; [ reflexivity | ]. split; [ reflexivity | ].
  cbn [input_shape]. rewrite Hx. split; [ reflexivity | ].
  reflexivity.
Qed.

(** The theorem on the 4 by 4 instance model of seven steps at resolution 2,
    with [rescale=2.0]. *)
Lemma InstanceDense_is_Transform_of_the_integrated_flow_witness :
  exists m T trf_input,
    InstanceDense (instance_args 1000) [] = Ok m /\
    Transform (dense_transform_args [4; 4]%Z (PyFloat 2) 1) = Ok T /\
    inputs T = [KInput "scan_input" [4; 4; 1]%Z; trf_input] /\
    input_shape trf_input = [2; 2; 2]%Z.
Proof.
  destruct (InstanceDense (instance_args 1000) []) as [ m | e ] eqn:E;
    [ | vm_compute in E; discriminate E ].
  destruct (InstanceDense_is_Transform_of_the_integrated_flow
              (instance_args 1000) [] m (PyFloat 2) E eq_refl eq_refl eq_refl)
    as (T & trf & HT & Hins & Hflow & _).
  exists m, T, trf. split; [ reflexivity | ]. split; [ exact HT | ]. split; [ exact Hins | ].
  vm_compute in HT. injection HT as <-. injection Hins as <-. reflexivity.
Defined.

(** ** VxmDenseSemiSupervisedSeg *)




(** ** Template models *)

Lemma tensors_given_inputs {Unet a ins fp refs im s t rest} :
  VxmDense_tensors Unet a = Ok (ins, fp, refs) ->
  input_model a = Some im ->
  outputs im = s :: t :: rest ->
  hyp_model a = None ->
  ref_source refs = s /\ ref_target refs = t /\ ins = inputs im.
Proof.
  intros Ht Him Hout Hhyp.
  unfold VxmDense_tensors in Ht. cbv zeta in Ht. rewrite Him, Hout, Hhyp in Ht.
  cbn [bind] in Ht.
  build_inv Ht; injection Ht as <- _ <-; cbn [ref_source ref_target];
    repeat split; reflexivity.
Qed.

(** X8.  [TemplateCreation] is a bidirectional [VxmDense] stacked on the
    atlas layer: without a hypernetwork it succeeds exactly when that inner
    model does, and never lacks the negative flow.  The atlas is the moving
    image and the only model input is the source image, which is the fixed
    target; the four outputs are the warped atlas, the source warped back,
    the mean stream of the negative flow and the positive flow.  Its
    [register], which predicts from two arrays, is refused by Keras for
    every pair of arrays, because the model has one input. *)
Theorem TemplateCreation_stacks_a_bidirectional_VxmDense :
  forall (Unet : UnetArgs -> result UnetModel) (a : TemplateArgs),
    hyp_model (t_kwargs a) = None ->
    (forall e, VxmDense Unet (template_inner_args a) = Raise e ->
               TemplateCreation Unet a = Raise e) /\
    (forall v, VxmDense Unet (template_inner_args a) = Ok v ->
       exists m neg_flow,
         TemplateCreation Unet a = Ok m /\
         ref_neg_flow (references v) = Some neg_flow /\
         ref_source (references v) = template_atlas_tensor a /\
         inputs m = [template_source_input a] /\
         outputs m
         = [Apply (SpatialTransformer (Some "linear"%string) (fill_value (t_kwargs a)) None None)
                  [template_atlas_tensor a; ref_pos_flow (references v)];
            Apply (SpatialTransformer (Some "linear"%string) (fill_value (t_kwargs a)) None None)
                  [Input (template_source_input a); neg_flow];
            Apply (MeanStream (mean_cap a)) [neg_flow];
            ref_pos_flow (references v)] /\
         forall ext src trg,
           template_register ext m (ref_pos_flow (references v)) src trg
           = Raise (ValueError "Layer expects a different number of inputs")).
Proof.
  intros Unet a Hhyp. split.
  - intros e He. unfold TemplateCreation. cbv zeta.
    fold (template_source_input a). fold (template_atlas_tensor a).
    fold (template_inner_args a). rewrite He. reflexivity.
  - intros v Hv.
    destruct (VxmDense_model_inv Hv) as (fp & reg & Ht & _).
    destruct (tensors_flows Ht) as (ls & _ & _ & Hneg & Hys & Hyt).
    destruct (tensors_given_inputs (im := Model [template_source_input a]
                  [template_atlas_tensor a; Input (template_source_input a)])
                Ht eq_refl eq_refl Hhyp) as (Hsrc & Htrg & _).
    cbn [bidir template_inner_args template_vxm_args fill_value] in Hneg, Hys, Hyt.
    unfold TemplateCreation. cbv zeta.
    fold (template_source_input a). fold (template_atlas_tensor a).
    fold (template_inner_args a). rewrite Hv. cbn [bind].
    unfold y_target_of, neg_flow_of. rewrite Hyt, Hneg. cbn [option_map bind].
    do 2 eexists. split; [ reflexivity | ]. split; [ reflexivity | ].
    split; [ exact Hsrc | ]. split; [ reflexivity | ].
    split; [ rewrite Hys, Hsrc, Htrg; reflexivity | ].
    intros ext src trg. reflexivity.
Qed.

(** The theorem on the default template model of a 4 by 4 image. *)
Lemma TemplateCreation_stacks_a_bidirectional_VxmDense_witness :
  exists m,
    TemplateCreation (unet_of_size [4; 4]%Z) template_defaults = Ok m /\
    List.length (inputs m) = 1%nat /\ List.length (outputs m) = 4%nat.
Proof.
  destruct (TemplateCreation_stacks_a_bidirectional_VxmDense
              (unet_of_size [4; 4]%Z) template_defaults eq_refl) as [_ H].
  destruct (VxmDense (unet_of_size [4; 4]%Z) (template_inner_args template_defaults))
    as [ v | e ] eqn:E; [ | vm_compute in E; discriminate E ].
  destruct (H v eq_refl) as (m & neg & Hm & _ & _ & Hin & Hout & _).
  exists m. split; [ exact Hm | ]. rewrite Hin, Hout. split; reflexivity.
Defined.

Lemma getattr_Conv_ok (n : nat) : (1 <= n <= 3)%nat -> getattr_Conv n = Ok tt.
Proof. destruct n as [ | [ | [ | [ | n ] ] ] ]; intros H; try lia; reflexivity. Qed.

Lemma getattr_Conv_fails (n : nat) :
  (n < 1 \/ 3 < n)%nat ->
  getattr_Conv n = Raise (AttributeError ("Conv" ++ fmt_d n ++ "D")%string).
Proof. destruct n as [ | [ | [ | [ | n ] ] ] ]; intros H; try lia; reflexivity. Qed.

(** X9.  [ConditionalTemplateCreation] with [templcondsi=True] never builds.
    On an [inshape] of no axis or of more than three the convolution class
    does not exist ([AttributeError]), whatever the other arguments are;
    on one to three axes the [templcondsi] branch reads the undefined name
    [pout] ([NameError]).  On one to three axes and without [templcondsi]
    nor a hypernetwork, the constructor succeeds exactly when its
    bidirectional inner [VxmDense] does; the model has the three inputs
    (phenotype, atlas, source) and its outputs are the warped atlas, the
    mean stream of the negative flow under [use_mean_stream], and the
    positive flow twice: the source warped back is not an output. *)
Theorem ConditionalTemplateCreation_outputs :
  forall (Unet : UnetArgs -> result UnetModel) (a : ConditionalTemplateArgs),
    let ndims := List.length (c_inshape a) in
    (templcondsi a = true -> forall m, ConditionalTemplateCreation Unet a <> Ok m) /\
    ((ndims < 1 \/ 3 < ndims)%nat ->
       ConditionalTemplateCreation Unet a
       = Raise (AttributeError ("Conv" ++ fmt_d ndims ++ "D")%string)) /\
    ((1 <= ndims <= 3)%nat ->
       (templcondsi a = true ->
          ConditionalTemplateCreation Unet a
          = Raise (NameError "name 'pout' is not defined")) /\
       (templcondsi a = false ->
        hyp_model (c_kwargs a) = None ->
          (forall e, VxmDense Unet (conditional_inner_args a) = Raise e ->
                     ConditionalTemplateCreation Unet a = Raise e) /\
          (forall v, VxmDense Unet (conditional_inner_args a) = Ok v ->
             exists m neg_flow,
               ConditionalTemplateCreation Unet a = Ok m /\
               ref_neg_flow (references v) = Some neg_flow /\
               inputs m = conditional_inputs a /\
               outputs m
               = (ref_y_source (references v)
                  :: (if use_mean_stream a
                      then [Apply (MeanStream (c_mean_cap a)) [neg_flow]] else [])
                  ++ [ref_pos_flow (references v); ref_pos_flow (references v)])%list))).
Proof.
  intros Unet a ndims. split; [ | split ].
  - intros Hc m H. unfold ConditionalTemplateCreation in H. cbv zeta in H.
    destruct (getattr_Conv _); cbn [bind] in H; [ | discriminate H ].
    rewrite Hc in H. discriminate H.
  - intros Hn. unfold ConditionalTemplateCreation. cbv zeta. fold ndims.
    rewrite (getattr_Conv_fails ndims Hn). reflexivity.
  - intros Hn. pose proof (getattr_Conv_ok ndims Hn) as Hconv. split.
    + intros Hc. unfold ConditionalTemplateCreation. cbv zeta. fold ndims.
      rewrite Hconv, Hc. reflexivity.
    + intros Hc _. split.
      * intros e He. unfold ConditionalTemplateCreation. cbv zeta. fold ndims.
        rewrite Hconv, Hc. cbn [bind].
        change (VxmDense Unet _) with (VxmDense Unet (conditional_inner_args a)).
        rewrite He. reflexivity.
      * intros v Hv.
        destruct (VxmDense_model_inv Hv) as (fp & reg & Ht & _).
        destruct (tensors_flows Ht) as (ls & _ & _ & Hneg & _ & _).
        cbn [bidir conditional_inner_args template_vxm_args] in Hneg.
        unfold ConditionalTemplateCreation. cbv zeta. fold ndims.
        rewrite Hconv, Hc. cbn [bind].
        change (VxmDense Unet _) with (VxmDense Unet (conditional_inner_args a)).
        rewrite Hv. cbn [bind]. unfold neg_flow_of. rewrite Hneg. cbn [bind].
        do 2 eexists. split; [ reflexivity | ]. split; [ reflexivity | ].
        split; [ reflexivity | ].
        cbn [outputs]. unfold get_output. destruct (use_mean_stream a); reflexivity.
Qed.

(** The theorem on the default conditional model of a 4 by 4 image, with
    [templcondsi] on and off, and on a model of four axes. *)
Lemma ConditionalTemplateCreation_outputs_witness :
  ConditionalTemplateCreation (unet_of_size [4; 4]%Z) (conditional_defaults true)
  = Raise (NameError "name 'pout' is not defined")
  /\ ConditionalTemplateCreation (unet_of_size [4; 4; 4; 4]%Z) conditional_four_axes
     = Raise (AttributeError "Conv4D")
  /\ exists m,
       ConditionalTemplateCreation (unet_of_size [4; 4]%Z) (conditional_defaults false) = Ok m /\
       List.length (outputs m) = 4%nat.
Proof.
  split; [ | split ].
  - refine (proj1 (proj2 (proj2 (ConditionalTemplateCreation_outputs
                                   (unet_of_size [4; 4]%Z) (conditional_defaults true))) _)
                  eq_refl).
    cbn. lia.
  - refine (proj1 (proj2 (ConditionalTemplateCreation_outputs
                            (unet_of_size [4; 4; 4; 4]%Z) conditional_four_axes)) _).
    cbn. lia.
  - assert (Hn : (1 <= List.length (c_inshape (conditional_defaults false)) <= 3)%nat)
      by (cbn; lia).
    destruct (proj2 (proj2 (proj2 (ConditionalTemplateCreation_outputs
                                     (unet_of_size [4; 4]%Z) (conditional_defaults false)))
                           Hn) eq_refl eq_refl)
      as [_ H].
    destruct (VxmDense (unet_of_size [4; 4]%Z)
                (conditional_inner_args (conditional_defaults false)))
      as [ v | e ] eqn:E; [ | vm_compute in E; discriminate E ].
    destruct (H v eq_refl) as (m & neg & Hm & _ & _ & Hout).
    exists m. split; [ exact Hm | ]. rewrite Hout. reflexivity.
Defined.

(** ** VxmAffineFeatureDetector *)

Lemma model_outputs_ok {out outs : list tensor} :
  model_outputs out = Ok outs -> outs = out /\ out <> [].
Proof.
  destruct out; cbn; [ discriminate | ]. intros H. injection H as <-.
  split; [ reflexivity | discriminate ].
Qed.

Lemma model_outputs_every_other (out : list tensor) :
  out <> [] -> model_outputs (every_other out) = Ok (every_other out).
Proof. destruct out; [ congruence | reflexivity ]. Qed.

Lemma every_other_pairs {A : Type} (l : list A) (k : nat) :
  List.length l = (2 * k)%nat -> List.length (every_other l) = k.
Proof.
  revert l. induction k as [ | k IH ]; intros l H.
  - destruct l; [ reflexivity | discriminate H ].
  - destruct l as [ | x [ | y l ] ]; cbn [List.length] in H; try lia.
    cbn [every_other List.length]. f_equal. apply IH. lia.
Qed.

Lemma detector_inv {cd infer a m} :
  VxmAffineFeatureDetector cd infer a = Ok m ->
  exists im inp_1 inp_2,
    original_inputs a = Ok (im, inp_1, inp_2) /\
    inputs m = inputs im /\
    existsb (Nat.eqb (List.length (spatial_shape infer inp_1))) [2; 3]%nat = true /\
    negb (return_trans_to_half_res a) || half_res a = true /\
    List.length (outputs m)
    = (if aff_bidir a then 2 * affine_output_pairs a else affine_output_pairs a)%nat.
Proof.
  intros H. unfold VxmAffineFeatureDetector in H.
  destruct (original_inputs a) as [ [[im inp_1] inp_2] | e ]; cbn [bind] in H;
    [ | discriminate H ].
  exists im, inp_1, inp_2. split; [ reflexivity | ].
  unfold assert_ in H.
  destruct (existsb _ _) eqn:Hdim in H; cbn [bind] in H; [ | discriminate H ].
  destruct (negb _ || _) eqn:Hhalf in H; cbn [bind] in H; [ | discriminate H ].
  build_inv H. injection H as <-. cbn [inputs outputs].
  split; [ reflexivity | ]. split; [ exact Hdim | ]. split; [ exact Hhalf | ].
  match goal with
  | E : model_outputs ?o = Ok _ |- _ =>
      set (OUT := o) in *; apply model_outputs_ok in E; destruct E as [-> Hne]
  end.
  assert (Hlen : List.length OUT
                 = (if aff_bidir a then 2 * affine_output_pairs a
                    else affine_output_pairs a)%nat).
  { unfold OUT, affine_output_pairs.
    match goal with
    | E : _ = Ok ?l |- context [?l] =>
        assert (Hl : List.length l = (2 * (1 + (if return_moved a then 1 else 0)))%nat);
        [ destruct (return_moved a);
          [ destruct (inputs im) as [ | i1 [ | i2 ins ] ]; try discriminate E | ];
          injection E as <-;
          destruct (make_dense a), (String.eqb cd "float16"), (return_trans_to_half_res a);
          reflexivity
        | ]
    end.
    destruct (aff_bidir a).
    - destruct (return_feat a); rewrite ?length_app, Hl; destruct (return_moved a);
        reflexivity.
    - apply every_other_pairs.
      destruct (return_feat a); rewrite ?length_app, Hl; destruct (return_moved a);
        reflexivity. }
  exact Hlen.
Qed.

(** X10.  The detector builds its outputs in pairs (the two transforms, then
    the two moved images and the two feature maps when asked for), so a
    bidirectional model has twice [1 + return_moved + return_feat] outputs.
    The unidirectional model is built whenever the bidirectional one is, on
    the same inputs, and its outputs are those at the even positions: the
    first of each pair. *)
Theorem VxmAffineFeatureDetector_unidirectional_is_every_other :
  forall (compute_dtype : string) (infer : layer -> list tensor -> list Z)
         (a : AffineArgs) (mb : model),
    VxmAffineFeatureDetector compute_dtype infer (with_aff_bidir a true) = Ok mb ->
    List.length (outputs mb) = (2 * affine_output_pairs a)%nat /\
    exists mu,
      VxmAffineFeatureDetector compute_dtype infer (with_aff_bidir a false) = Ok mu /\
      inputs mu = inputs mb /\
      outputs mu = every_other (outputs mb) /\
      List.length (outputs mu) = affine_output_pairs a.
Proof.
  intros cd infer a mb H.
  unfold VxmAffineFeatureDetector, original_inputs in *.
  cbn [with_aff_bidir in_shape aff_input_model num_chan num_feat enc_nf dec_nf add_nf
       per_level dropout half_res weighted rigid make_dense aff_bidir
       return_trans_to_mid_space return_trans_to_half_res return_moved return_feat] in *.
  repeat match type of H with
         | bind ?r _ = Ok _ =>
             destruct r eqn:?; cbn [bind] in H |- *; [ | discriminate H ]
         | context [let '(_, _) := ?p in _] => destruct p
         end.
  injection H as <-. cbn [inputs outputs].
  match goal with
  | E : model_outputs ?o = Ok _ |- _ =>
      set (OUT := o) in *; apply model_outputs_ok in E; destruct E as [-> Hne]
  end.
  assert (Hlen : List.length OUT = (2 * affine_output_pairs a)%nat).
  { unfold OUT, affine_output_pairs.
    match goal with
    | E : _ = Ok ?l |- context [?l] =>
        assert (Hl : List.length l = (2 * (1 + (if return_moved a then 1 else 0)))%nat);
        [ destruct (return_moved a);
          [ destruct (inputs m) as [ | i1 [ | i2 ins ] ]; try discriminate E | ];
          injection E as <-;
          destruct (make_dense a), (String.eqb cd "float16"), (return_trans_to_half_res a);
          reflexivity
        | ]
    end.
    destruct (return_feat a); rewrite ?length_app, Hl; destruct (return_moved a);
      reflexivity. }
  split; [ exact Hlen | ].
  rewrite (model_outputs_every_other OUT Hne). cbn [bind].
  eexists. split; [ reflexivity | ]. cbn [inputs outputs].
  split; [ reflexivity | ]. split; [ reflexivity | ].
  apply every_other_pairs. exact Hlen.
Qed.

(** The theorem on the default detector of a 4 by 4 image pair. *)
Lemma VxmAffineFeatureDetector_unidirectional_is_every_other_witness :
  exists mb mu,
    VxmAffineFeatureDetector "float32" no_infer
      (with_aff_bidir (Affine_defaults (Some [4; 4]%Z)) true) = Ok mb /\
    VxmAffineFeatureDetector "float32" no_infer
      (with_aff_bidir (Affine_defaults (Some [4; 4]%Z)) false) = Ok mu /\
    List.length (outputs mb) = 2%nat /\
    outputs mu = every_other (outputs mb).
Proof.
  destruct (VxmAffineFeatureDetector "float32" no_infer
              (with_aff_bidir (Affine_defaults (Some [4; 4]%Z)) true))
    as [ mb | e ] eqn:E; [ | vm_compute in E; discriminate E ].
  destruct (VxmAffineFeatureDetector_unidirectional_is_every_other _ _ _ _ E)
    as (Hlen & mu & Hmu & _ & Hout & _).
  exists mb, mu. split; [ reflexivity | ]. split; [ exact Hmu | ].
  split; [ exact Hlen | exact Hout ].
Defined.

(** ** HyperVxmJoint *)

Lemma call_model_length {m args outs} :
  call_model m args = Ok outs -> List.length outs = List.length (outputs m).
Proof.
  unfold call_model. destruct (Nat.eqb _ _); [ | discriminate ].
  intros H. injection H as <-. apply length_map.
Qed.

(** X11.  What every [HyperVxmJoint] that builds satisfies.  The affine
    detector is constructed and called even when the affine step is skipped
    or overridden, with [half_res=False] and [bidir=True] forced, so its
    options [return_trans_to_half_res], [return_moved] and [return_feat]
    cannot be on (the first trips its assertion, the others make it return
    more than the two transforms that are unpacked).  No unknown keyword is
    left, the affine transform is not both passed and skipped, encoder and
    decoder have as many levels, a skipped deformable step comes with the
    affine step and without SVF or warp outputs, and some output is asked
    for. *)
Theorem HyperVxmJoint_builds_only_if :
  forall (compute_dtype : string) (infer : layer -> list tensor -> list Z)
         (a : JointArgs) (m : model),
    HyperVxmJoint compute_dtype infer a = Ok m ->
    return_trans_to_half_res (kwargs_aff a) = false /\
    return_moved (kwargs_aff a) = false /\
    return_feat (kwargs_aff a) = false /\
    kwargs_rest a = [] /\
    (pass_affine a = true -> skip_affine a = false) /\
    List.length (j_enc_nf a) = List.length (j_dec_nf a) /\
    (skip_deform a = true ->
       skip_affine a = false /\ return_svf a = false /\ return_def a = false) /\
    return_tot a || return_def a || return_aff a || return_svf a || j_return_moved a = true /\
    (j_input_model a = None -> aff_input_model (kwargs_aff a) = None ->
     exists s, j_in_shape a = Some s /\ (List.length s = 2%nat \/ List.length s = 3%nat)).
Proof.
  intros cd infer a m H. unfold HyperVxmJoint in H.
  repeat match type of H with
         | bind ?r _ = Ok _ =>
             let E := fresh "E" in destruct r eqn:E; cbn [bind] in H; [ | discriminate H ]
         | context [let '(_, _) := ?p in _] => destruct p
         end.
  clear H.
  (* the affine detector *)
  destruct (detector_inv E1) as (im & i1 & i2 & Horig & _ & Hdim & Hhalf & Hlen).
  cbn [arg_aff_update return_trans_to_half_res half_res aff_bidir] in Hhalf, Hlen.
  rewrite orb_false_r in Hhalf. apply negb_true_iff in Hhalf.
  pose proof (call_model_length E3) as Hcall.
  assert (Hpairs : affine_output_pairs
                     (arg_aff_update (kwargs_aff a)
                        (floordiv2 (spatial_shape infer t0)) (mid_space a)) = 1%nat).
  { destruct a3 as [ | x [ | y [ | z rest ] ] ]; try discriminate E4.
    cbn [List.length] in Hcall. lia. }
  unfold affine_output_pairs in Hpairs.
  cbn [arg_aff_update return_moved return_feat] in Hpairs.
  split; [ exact Hhalf | ].
  split; [ destruct (return_moved (kwargs_aff a)); [ lia | reflexivity ] | ].
  split; [ destruct (return_feat (kwargs_aff a));
           [ destruct (return_moved (kwargs_aff a)); lia | reflexivity ] | ].
  (* the assertions *)
  split; [ destruct (kwargs_rest a); [ reflexivity | discriminate E2 ] | ].
  split.
  { intros Hp. rewrite Hp in E5. unfold assert_ in E5.
    destruct (skip_affine a); [ discriminate E5 | reflexivity ]. }
  split.
  { unfold assert_ in E7. destruct (Nat.eqb _ _) eqn:Hn in E7; [ | discriminate E7 ].
    apply Nat.eqb_eq in Hn. exact Hn. }
  split.
  { intros Hs. rewrite Hs in E8. unfold assert_ in E8.
    destruct (skip_affine a); [ discriminate E8 | ].
    destruct (return_svf a); [ discriminate E8 | ].
    destruct (return_def a); [ discriminate E8 | ]. repeat split. }
  (* the outputs *)
  split.
  { destruct (return_tot a), (return_def a), (return_aff a), (return_svf a),
      (j_return_moved a); try reflexivity.
    destruct (j_bidir a); discriminate E9. }
  (* the dimensions *)
  intros Hin Haff. rewrite Hin in E.
  destruct (j_in_shape a) as [ s | ]; [ | discriminate E ].
  exists s. split; [ reflexivity | ].
  assert (Ht0 : spatial_shape infer t0 = s).
  { injection E as <-. cbn [outputs] in E0.
    destruct (0 <? hyp_num a)%Z; cbn in E0; injection E0 as _ <- _;
      unfold spatial_shape; cbn [static_shape input_shape]; apply removelast_last. }
  unfold original_inputs in Horig.
  cbn [arg_aff_update aff_input_model in_shape num_chan] in Horig.
  rewrite Haff in Horig. cbn in Horig. injection Horig as _ <- _.
  unfold spatial_shape in Hdim. cbn [static_shape input_shape] in Hdim.
  rewrite removelast_last in Hdim. unfold floordiv2 in Hdim.
  rewrite length_map in Hdim. fold (spatial_shape infer t0) in Hdim. rewrite Ht0 in Hdim.
  cbn [existsb] in Hdim. rewrite orb_false_r in Hdim.
  apply orb_prop in Hdim. destruct Hdim as [Hd | Hd]; apply Nat.eqb_eq in Hd; auto.
Qed.

(** The theorem on the default joint model of a 4 by 4 image pair. *)
Lemma HyperVxmJoint_builds_only_if_witness :
  exists m,
    HyperVxmJoint "float32" no_infer (Joint_defaults (Some [4; 4]%Z)) = Ok m /\
    exists s, j_in_shape (Joint_defaults (Some [4; 4]%Z)) = Some s /\
              (List.length s = 2%nat \/ List.length s = 3%nat).
Proof.
  destruct (HyperVxmJoint "float32" no_infer (Joint_defaults (Some [4; 4]%Z)))
    as [ m | e ] eqn:E; [ | vm_compute in E; discriminate E ].
  exists m. split; [ reflexivity | ].
  destruct (HyperVxmJoint_builds_only_if _ _ _ _ E) as (_ & _ & _ & _ & _ & _ & _ & _ & H).
  exact (H eq_refl eq_refl).
Defined.

Lemma arr_neg_involutive (x : arr) : arr_neg (arr_neg x) = x.
Proof.
  unfold arr_neg, arr_map.
  induction x as [ | r x IH ]; cbn [map]; [ reflexivity | ].
  f_equal; [ | exact IH ].
  clear. induction r as [ | p r IH ]; cbn [map]; [ reflexivity | ].
  f_equal; [ apply Qcopp_involutive | exact IH ].
Qed.

Lemma arr_mean_swap (x y : arr) :
  arr_map2 (fun p q => ((p + q) / Q2Qc 2)%Qc) (arr_neg x) y
  = arr_neg (arr_map2 (fun p q => ((p + q) / Q2Qc 2)%Qc) (arr_neg y) x).
Proof.
  unfold arr_neg, arr_map, arr_map2.
  revert y. induction x as [ | r x IH ]; intros [ | s y ]; cbn [map map2]; try reflexivity.
  f_equal; [ | apply IH ].
  clear. revert s. induction r as [ | p r IH ]; intros [ | q s ]; cbn [map map2];
    try reflexivity.
  f_equal; [ | apply IH ].
  unfold Qcdiv. ring.
Qed.

(** X12.  The deformable step is symmetric in its two images: swapping them
    swaps the two velocity fields and the two warps, in value, for all
    inputs and all trained weights.  (The forward field is the mean of the
    forward prediction and the negated reverse prediction, so the swap
    negates it, and the reverse field is its negation.) *)
Theorem deformable_registration_swaps_with_its_images :
  forall (int_steps : Z) (hyp_inp : list tensor) (mov_1 mov_2 : tensor)
         (feed : kinput -> arr) (ext : layer -> list arr -> arr),
    let value := eval feed ext in
    let '(svf_1, svf_2, def_1, def_2) :=
      deformable_registration int_steps hyp_inp mov_1 mov_2 in
    let '(swapped_svf_1, swapped_svf_2, swapped_def_1, swapped_def_2) :=
      deformable_registration int_steps hyp_inp mov_2 mov_1 in
    value swapped_svf_1 = value svf_2 /\
    value swapped_svf_2 = value svf_1 /\
    value swapped_def_1 = value def_2 /\
    value swapped_def_2 = value def_1.
Proof.
  intros int_steps hyp_inp mov_1 mov_2 feed ext value.
  unfold deformable_registration.
  set (forward := Apply (Network "model_def") (hyp_inp ++ [mov_1; mov_2])).
  set (reverse := Apply (Network "model_def") (hyp_inp ++ [mov_2; mov_1])).
  assert (H1 : value (Apply Average [Apply Negate [forward]; reverse])
               = value (Apply Negate [Apply Average [Apply Negate [reverse]; forward]])).
  { unfold value. cbn [eval map apply_layer]. rewrite !arr_average_pair.
    apply arr_mean_swap. }
  assert (H2 : value (Apply Negate [Apply Average [Apply Negate [forward]; reverse]])
               = value (Apply Average [Apply Negate [reverse]; forward])).
  { unfold value in *. cbn [eval map apply_layer] in *. rewrite H1.
    apply arr_neg_involutive. }
  destruct (int_steps =? 0)%Z; cbv beta iota zeta.
  - split; [ exact H1 | ]. split; [ exact H2 | ]. split; [ exact H1 | exact H2 ].
  - split; [ exact H1 | ]. split; [ exact H2 | ].
    unfold value in *. cbn [eval map apply_layer] in *.
    split; f_equal; f_equal; assumption.
Qed.

(** ** Unet *)

(** A loop keeps what each of its steps keeps; [P i] is the invariant before
    step [i]. *)
Lemma foldM_invariant {S A : Type} (f : S -> A -> result S) (P : nat -> S -> Prop)
    (l : list A) (s0 s : S) :
  P 0%nat s0 ->
  (forall i x s1 s2, nth_error l i = Some x -> P i s1 -> f s1 x = Ok s2 -> P (Datatypes.S i) s2) ->
  foldM f l s0 = Ok s ->
  P (List.length l) s.
Proof.
  revert P s0. induction l as [ | x l IH ]; intros P s0 H0 Hstep H.
  - cbn in H. injection H as <-. exact H0.
  - cbn [foldM] in H. destruct (f s0 x) as [ s1 | e ] eqn:E; cbn [bind] in H;
      [ | discriminate H ].
    cbn [List.length].
    apply (IH (fun i => P (Datatypes.S i)) s1).
    + apply (Hstep 0%nat x s0 s1); [ reflexivity | exact H0 | exact E ].
    + intros i y s2 s3 Hn. apply (Hstep (Datatypes.S i)). exact Hn.
    + exact H.
Qed.

(** Every step of a loop that ran to its end succeeded. *)
Lemma foldM_steps {S A : Type} (f : S -> A -> result S) (l : list A) (s0 s : S) :
  foldM f l s0 = Ok s ->
  forall i x, nth_error l i = Some x -> exists s1 s2, f s1 x = Ok s2.
Proof.
  revert s0. induction l as [ | y l IH ]; intros s0 H i x Hn.
  - destruct i; discriminate Hn.
  - cbn [foldM] in H. destruct (f s0 y) as [ s1 | e ] eqn:E; cbn [bind] in H;
      [ | discriminate H ].
    destruct i as [ | i ].
    + injection Hn as <-. eauto.
    + exact (IH s1 H i x Hn).
Qed.

Lemma length_range (n : Z) : List.length (range n) = Z.to_nat n.
Proof. apply length_seq. Qed.

Lemma nth_error_range {n : Z} {i x : nat} :
  nth_error (range n) i = Some x -> x = i /\ (i < Z.to_nat n)%nat.
Proof.
  unfold range. intros H.
  assert (Hi : (i < Z.to_nat n)%nat).
  { rewrite <- (length_seq (Z.to_nat n) 0). apply nth_error_Some. congruence. }
  split; [ | exact Hi ].
  apply (nth_error_nth _ _ 0%nat) in H. rewrite seq_nth in H by exact Hi.
  symmetry. exact H.
Qed.

Lemma range_nth_error {n : Z} {i : nat} :
  (i < Z.to_nat n)%nat -> nth_error (range n) i = Some i.
Proof.
  intros Hi. unfold range.
  rewrite (nth_error_nth' _ 0%nat) by (rewrite length_seq; exact Hi).
  rewrite seq_nth by exact Hi. reflexivity.
Qed.

Lemma item_inv {A : Type} {l : list A} {i : nat} {x : A} :
  item l i = Ok x -> (i < List.length l)%nat.
Proof.
  unfold item. destruct (nth_error l i) eqn:E; [ | discriminate ].
  intros _. apply nth_error_Some. congruence.
Qed.

(** A convolution block keeps the level and the rank. *)
Lemma conv_block_level {infer x nfeat strides name do_res hyp include_activation init y} :
  _conv_block infer x nfeat strides name do_res hyp include_activation init = Ok y ->
  level y = level x /\ rank infer y = rank infer x.
Proof.
  unfold _conv_block. intros H.
  destruct (ndims_of infer x) as [ nd | e ]; cbn [bind] in H; [ | discriminate H ].
  destruct do_res.
  - destruct (negb (nfeat =? channels infer x)%Z).
    + destruct name as [ n | ]; cbn [bind] in H; [ | discriminate H ].
      destruct include_activation; injection H as <-; destruct hyp; cbn;
        destruct (level x) as [ k | ]; cbn; rewrite ?Z.eqb_refl; auto.
    + cbn [bind] in H.
      destruct include_activation; injection H as <-; destruct hyp; cbn;
        destruct (level x) as [ k | ]; cbn; rewrite ?Z.eqb_refl; auto.
  - cbn [bind] in H.
    destruct include_activation; injection H as <-; destruct hyp; cbn; auto.
Qed.

(** The convolutions of one level: they keep level and rank, and they run
    when their features are there. *)
Lemma conv_loop_level {infer} {A : Type} (body : knode -> A -> result knode)
    (l : list A) (x y : knode) :
  (forall u c v, body u c = Ok v -> level v = level u /\ rank infer v = rank infer u) ->
  foldM body l x = Ok y ->
  level y = level x /\ rank infer y = rank infer x.
Proof.
  intros Hbody H.
  apply (foldM_invariant body
           (fun _ s => level s = level x /\ rank infer s = rank infer x) l x y);
    [ auto | | exact H ].
  intros i c s1 s2 _ [Hl Hr] Hs. destruct (Hbody _ _ _ Hs) as [Hl' Hr'].
  split; congruence.
Qed.

Lemma levels_below_S (k : nat) :
  levels_below (S k) = (levels_below k ++ [Some (Z.of_nat k)])%list.
Proof. unfold levels_below. rewrite seq_S, map_app. reflexivity. Qed.

Lemma pop_levels {encs : list knode} {k : nat} {connection rest} :
  map level encs = levels_below (S k) ->
  pop encs = Ok (connection, rest) ->
  level connection = Some (Z.of_nat k) /\ map level rest = levels_below k.
Proof.
  intros Hl Hp. unfold pop in Hp.
  destruct (rev encs) as [ | x r ] eqn:Hrev; [ discriminate Hp | ].
  injection Hp as <- <-.
  assert (Hencs : encs = (rev r ++ [x])%list).
  { rewrite <- (rev_involutive encs), Hrev. reflexivity. }
  rewrite Hencs in Hl |- *. rewrite removelast_last.
  rewrite map_app, levels_below_S in Hl. cbn [map] in Hl.
  apply app_inj_tail in Hl. destruct Hl as [Hrest Hx]. auto.
Qed.

Lemma upsample_block_level {infer x connection factor name y} (k : Z) :
  _upsample_block infer x connection factor name = Ok y ->
  level x = Some (k + 1)%Z -> level connection = Some k ->
  level y = Some k /\ rank infer y = rank infer x.
Proof.
  unfold _upsample_block. intros H Hx Hc.
  destruct (ndims_of infer x) as [ nd | e ]; cbn [bind] in H; [ | discriminate H ].
  injection H as <-. cbn. rewrite Hx, Hc. cbn.
  replace (Z.pred (k + 1)) with k by lia. rewrite Z.eqb_refl. auto.
Qed.

(** The encoder: after [k] levels the tensor is [k] poolings deep and the
    kept outputs are at the levels below. *)
Lemma encoder_inv {infer p ndims enc_nf max_pool L x0 last encs} :
  unet_encoder infer p ndims enc_nf max_pool L x0 = Ok (last, encs) ->
  level x0 = Some 0%Z ->
  level last = Some (Z.of_nat (Z.to_nat (L - 1))) /\
  map level encs = levels_below (Z.to_nat (L - 1)) /\
  rank infer last = rank infer x0.
Proof.
  unfold unet_encoder. intros H H0.
  apply (foldM_invariant _
           (fun k (st : unet_state) =>
              level (fst st) = Some (Z.of_nat k) /\ map level (snd st) = levels_below k
              /\ rank infer (fst st) = rank infer x0)) in H.
  - rewrite length_range in H. exact H.
  - cbn [fst snd]. auto.
  - intros k x [u encs1] st2 Hx (Hl & He & Hr) Hstep. cbn [fst snd] in *.
    match type of Hstep with
    | bind ?r _ = _ => destruct r as [ u' | e ] eqn:Hconv
    end; cbn [bind] in Hstep; [ | discriminate Hstep ].
    apply (conv_loop_level (infer := infer)) in Hconv.
    2:{ intros a c v Hb.
        match type of Hb with
        | bind ?r _ = _ => destruct r
        end; cbn [bind] in Hb; [ | discriminate Hb ].
        exact (conv_block_level Hb). }
    destruct Hconv as [Hc Hrc].
    match type of Hstep with
    | bind ?r _ = _ => destruct r
    end; cbn [bind] in Hstep; [ | discriminate Hstep ].
    injection Hstep as <-. cbn [fst snd level map hd option_map rank].
    rewrite Hc, Hl. cbn [option_map].
    split; [ f_equal; lia | ]. split; [ | congruence ].
    rewrite map_app, He, levels_below_S. cbn [map]. rewrite Hc, Hl. reflexivity.
Qed.

(** What an encoder that ran has found: a pooling size for every level. *)
Lemma encoder_needs {infer p ndims enc_nf max_pool L x0 st} :
  unet_encoder infer p ndims enc_nf max_pool L x0 = Ok st ->
  (Z.to_nat (L - 1) <= List.length max_pool)%nat.
Proof.
  unfold unet_encoder. intros H.
  destruct (Z.to_nat (L - 1)) as [ | d ] eqn:HD; [ lia | ].
  destruct (foldM_steps _ _ _ _ H d d) as ([u encs] & s2 & Hstep).
  { apply range_nth_error. lia. }
  match type of Hstep with
  | bind ?r _ = _ => destruct r
  end; cbn [bind] in Hstep; [ | discriminate Hstep ].
  match type of Hstep with
  | bind ?r _ = _ => destruct r eqn:Hitem
  end; cbn [bind] in Hstep; [ | discriminate Hstep ].
  apply item_inv in Hitem. lia.
Qed.

(** The decoder upsamples at its first [nb_levels - 1 - nb_upsample_skips]
    levels only: from the deepest level it climbs that many levels, and it
    keeps the rank of its tensor. *)
Lemma decoder_inv {infer p dec_nf final_convs max_pool L last encs last' encs'} :
  unet_decoder infer p dec_nf final_convs max_pool L (last, encs) = Ok (last', encs') ->
  let D := Z.to_nat (L - 1) in
  let ups := Z.to_nat (Z.min (Z.of_nat D) (Z.max 0 (L - 1 - p_nb_upsample_skips p))) in
  level last = Some (Z.of_nat D) ->
  map level encs = levels_below D ->
  level last' = Some (Z.of_nat (D - ups)) /\ rank infer last' = rank infer last.
Proof.
  intros H D ups Hl He. unfold unet_decoder in H.
  set (U := (L - 1 - p_nb_upsample_skips p)%Z) in *.
  apply (foldM_invariant _
           (fun j (st : unet_state) =>
              (j <= D)%nat ->
              let c := Z.to_nat (Z.min (Z.of_nat j) (Z.max 0 U)) in
              level (fst st) = Some (Z.of_nat (D - c))
              /\ map level (snd st) = levels_below (D - c)
              /\ rank infer (fst st) = rank infer last)) in H.
  - rewrite length_range in H. fold D in H. cbn [fst snd] in H. cbv zeta in H.
    fold ups in H. destruct H as (H1 & _ & H3); auto.
  - intros _. cbn [fst snd]. cbv zeta.
    replace (Z.to_nat (Z.min (Z.of_nat 0) (Z.max 0 U))) with 0%nat by lia.
    rewrite Nat.sub_0_r. auto.
  - intros j x [u encs1] st2 Hx Hinv Hstep Hj. cbn [fst snd] in *. cbv zeta in *.
    apply nth_error_range in Hx. destruct Hx as [-> Hjlt]. fold D in Hjlt.
    specialize (Hinv ltac:(lia)). destruct Hinv as (Hlu & Heu & Hru).
    match type of Hstep with
    | bind ?r _ = _ => destruct r as [ u' | e ] eqn:Hconv
    end; cbn [bind] in Hstep; [ | discriminate Hstep ].
    apply (conv_loop_level (infer := infer)) in Hconv.
    2:{ intros a c v Hb.
        match type of Hb with
        | bind ?r _ = _ => destruct r
        end; cbn [bind] in Hb; [ | discriminate Hb ].
        exact (conv_block_level Hb). }
    destruct Hconv as [Hc Hrc].
    destruct (Z.of_nat j <? U)%Z eqn:Hup in Hstep.
    + apply Z.ltb_lt in Hup.
      replace (Z.to_nat (Z.min (Z.of_nat j) (Z.max 0 U))) with j in Hlu, Heu by lia.
      replace (Z.to_nat (Z.min (Z.of_nat (S j)) (Z.max 0 U))) with (S j) by lia.
      match type of Hstep with
      | bind ?r _ = _ => destruct r as [ [connection rest] | e ] eqn:Hpop
      end; cbn [bind] in Hstep; [ | discriminate Hstep ].
      replace (D - j)%nat with (S (D - S j)) in Heu by lia.
      destruct (pop_levels Heu Hpop) as [Hcon Hrest].
      match type of Hstep with
      | bind ?r _ = _ => destruct r
      end; cbn [bind] in Hstep; [ | discriminate Hstep ].
      match type of Hstep with
      | bind ?r _ = _ => destruct r as [ up | e ] eqn:Hub
      end; cbn [bind] in Hstep; [ | discriminate Hstep ].
      injection Hstep as <-. cbn [fst snd].
      apply (upsample_block_level (Z.of_nat (D - S j))) in Hub.
      * destruct Hub as [Hu Hr]. split; [ exact Hu | ]. split; [ exact Hrest | congruence ].
      * rewrite Hc, Hlu. f_equal. lia.
      * exact Hcon.
    + apply Z.ltb_ge in Hup. injection Hstep as <-. cbn [fst snd].
      replace (Z.to_nat (Z.min (Z.of_nat (S j)) (Z.max 0 U)))
        with (Z.to_nat (Z.min (Z.of_nat j) (Z.max 0 U))) by lia.
      rewrite Hc. split; [ exact Hlu | ]. split; [ exact Heu | congruence ].
  - rewrite length_range. apply Nat.le_refl.
Qed.

(** What a decoder that ran has found: the features of every level. *)
Lemma decoder_needs {infer p dec_nf final_convs max_pool L st st'} :
  unet_decoder infer p dec_nf final_convs max_pool L st = Ok st' ->
  (0 < p_nb_conv_per_level p)%Z ->
  (Z.to_nat (L - 1) * Z.to_nat (p_nb_conv_per_level p) <= List.length dec_nf)%nat.
Proof.
  unfold unet_decoder. intros H Hn.
  destruct (Z.to_nat (L - 1)) as [ | d ] eqn:HD; [ lia | ].
  destruct (Z.to_nat (p_nb_conv_per_level p)) as [ | c ] eqn:HN; [ lia | ].
  destruct (foldM_steps _ _ _ _ H d d) as ([u encs] & s2 & Hstep).
  { apply range_nth_error. lia. }
  match type of Hstep with
  | bind ?r _ = _ => destruct r eqn:Hconv
  end; cbn [bind] in Hstep; [ | discriminate Hstep ].
  destruct (foldM_steps _ _ _ _ Hconv c c) as (v1 & v2 & Hbody).
  { apply range_nth_error. lia. }
  match type of Hbody with
  | bind ?r _ = _ => destruct r eqn:Hitem
  end; cbn [bind] in Hbody; [ | discriminate Hbody ].
  apply item_inv in Hitem. lia.
Qed.

Lemma final_convs_inv {infer p final_convs last y} :
  unet_final_convs infer p final_convs last = Ok y ->
  level y = level last /\ rank infer y = rank infer last.
Proof.
  unfold unet_final_convs. intros H.
  apply (conv_loop_level (infer := infer)) in H; [ exact H | ].
  intros u [num nf] v Hb. exact (conv_block_level Hb).
Qed.

(** The input of the U-Net is at level 0, once its dimension is accepted. *)
Lemma unet_input_level {infer p unet_input model_inputs ndims} :
  unet_input_of p = Ok (unet_input, model_inputs) ->
  ndims_of infer unet_input = Ok ndims ->
  level unet_input = Some 0%Z.
Proof.
  unfold unet_input_of. intros Hin Hnd.
  destruct (p_input_model p) as [ im | ].
  - destruct (outputs im) as [ | o [ | o' outs ] ]; injection Hin as Hu _;
      subst unet_input; [ vm_compute in Hnd; discriminate Hnd | reflexivity | ].
    cbn. destruct (forallb _ _) eqn:Hall; [ reflexivity | ].
    exfalso. clear - Hall. induction outs as [ | x outs IH ]; cbn in Hall;
      [ discriminate | auto ].
  - destruct (p_inshape p); [ | discriminate Hin ]. injection Hin as Hu _.
    subst unet_input. reflexivity.
Qed.

(** [int(a / n)] for a length [a]: the floor of the quotient for a positive
    [n], and nothing positive for a negative [n]. *)
Lemma py_int_quotient_pos (a : nat) (n : Z) :
  (0 < n)%Z ->
  py_int (inject_Z (Z.of_nat a) / inject_Z n) = (Z.of_nat a / n)%Z.
Proof.
  intros Hn. destruct n as [ | q | q ]; try lia.
  unfold py_int, Qdiv, Qinv, Qmult, inject_Z. cbn [Qnum Qden].
  rewrite Z.mul_1_r, Pos.mul_1_l.
  assert (Hle : Qle_bool 0 (Z.of_nat a # q) = true).
  { apply Qle_bool_iff. unfold Qle. cbn. lia. }
  rewrite Hle. reflexivity.
Qed.

Lemma py_int_quotient_neg (a : nat) (n : Z) :
  (n < 0)%Z ->
  (py_int (inject_Z (Z.of_nat a) / inject_Z n) <= 0)%Z.
Proof.
  intros Hn. destruct n as [ | q | q ]; try lia.
  set (x := (inject_Z (Z.of_nat a) / inject_Z (Z.neg q))%Q).
  assert (Hx : (x <= 0)%Q).
  { unfold x, Qdiv, Qinv, Qmult, inject_Z, Qle. cbn. lia. }
  clearbody x. unfold py_int. destruct (Qle_bool 0 x).
  - assert (H := Qfloor_le x).
    assert (H0 : (inject_Z (Qfloor x) <= 0)%Q) by (eapply Qle_trans; eassumption).
    unfold Qle, inject_Z in H0. cbn [Qnum Qden] in H0. lia.
  - unfold Qceiling.
    assert (H : (0 <= - x)%Q).
    { apply (Qopp_le_compat x 0) in Hx. exact Hx. }
    assert (H0 : (Qfloor 0 <= Qfloor (- x))%Z) by (apply Qfloor_resp_le; exact H).
    change (Qfloor 0) with 0%Z in H0. lia.
Qed.

Lemma Unet_init_inv {infer p g} :
  Unet_init infer p = Ok g ->
  exists unet_input model_inputs enc_nf dec_nf ndims quotient st1 st2 last,
    unet_input_of p = Ok (unet_input, model_inputs) /\
    unet_feature_lists p = Ok (enc_nf, dec_nf) /\
    ndims_of infer unet_input = Ok ndims /\
    truediv (Z.of_nat (List.length enc_nf)) (PyInt (p_nb_conv_per_level p)) = Ok quotient /\
    let nb_levels := (py_int quotient + 1)%Z in
    let max_pool := match p_max_pool p with
                    | PoolInt n => repeat n (Z.to_nat nb_levels)
                    | PoolList l => l
                    end in
    unet_encoder infer p ndims enc_nf max_pool nb_levels unet_input = Ok st1 /\
    unet_decoder infer p (firstn (List.length enc_nf) dec_nf)
                 (skipn (List.length enc_nf) dec_nf) max_pool nb_levels st1 = Ok st2 /\
    unet_final_convs infer p (skipn (List.length enc_nf) dec_nf) (fst st2) = Ok last /\
    level (ug_output g) = level last.
Proof.
  unfold Unet_init. intros H.
  destruct (unet_input_of p) as [ [unet_input model_inputs] | e ] eqn:Hin; cbn [bind] in H;
    [ | discriminate H ].
  destruct (unet_feature_lists p) as [ [enc_nf dec_nf] | e ] eqn:Hf; cbn [bind] in H;
    [ | discriminate H ].
  destruct (ndims_of infer unet_input) as [ ndims | e ] eqn:Hnd; cbn [bind] in H;
    [ | discriminate H ].
  destruct (truediv _ _) as [ quotient | e ] eqn:Hq; cbn [bind] in H; [ | discriminate H ].
  cbv zeta in H.
  destruct (unet_encoder _ _ _ _ _ _ _) as [ st1 | e ] eqn:Henc; cbn [bind] in H;
    [ | discriminate H ].
  destruct (unet_decoder _ _ _ _ _ _ _) as [ [last2 encs2] | e ] eqn:Hdec; cbn [bind] in H;
    [ | discriminate H ].
  destruct (unet_final_convs _ _ _ _) as [ last | e ] eqn:Hfin; cbn [bind] in H;
    [ | discriminate H ].
  injection H as <-. cbn [ug_output].
  exists unet_input, model_inputs, enc_nf, dec_nf, ndims, quotient, st1, (last2, encs2), last.
  split; [ reflexivity | ]. split; [ reflexivity | ]. split; [ exact Hnd | ].
  split; [ exact Hq | ]. cbv zeta.
  split; [ exact Henc | ]. split; [ exact Hdec | ]. split; [ exact Hfin | ].
  destruct (p_final_activation_function p); reflexivity.
Qed.

Lemma truediv_int {d n : Z} {q : Q} :
  truediv d (PyInt n) = Ok q -> n <> 0%Z /\ q = (inject_Z d / inject_Z n)%Q.
Proof.
  unfold truediv. destruct (Z.eqb_spec n 0); [ discriminate | ].
  intros H. injection H as <-. auto.
Qed.

(** X13.  The U-Net is balanced.  When [Unet] builds, every skip connection
    concatenates an upsampled tensor with the encoder output of the same
    resolution level, and the output is [min(depth, max(0,
    nb_upsample_skips))] poolings below the input, where [depth] is the
    number of pooled encoder levels, [int(len(enc_nf) / nb_conv_per_level)].
    A negative [nb_upsample_skips] is as good as zero, and one beyond the
    depth leaves the output at the deepest level. *)
Theorem Unet_output_level :
  forall (infer : layer -> list tensor -> list Z) (p : UnetParams) (g : UnetGraph)
         (enc_nf dec_nf : list Z),
    Unet_init infer p = Ok g ->
    unet_feature_lists p = Ok (enc_nf, dec_nf) ->
    level (ug_output g)
    = Some (Z.min (unet_depth enc_nf (p_nb_conv_per_level p))
                  (Z.max 0 (p_nb_upsample_skips p))).
Proof.
  intros infer p g enc_nf dec_nf H Hf.
  destruct (Unet_init_inv H)
    as (x0 & ins & enc' & dec' & nd & q & [last1 encs1] & [last2 encs2] & last
        & Hin & Hf' & Hnd & Hq & Henc & Hdec & Hfin & Hout).
  rewrite Hf in Hf'. injection Hf' as <- <-. cbv zeta in *. cbn [fst] in Hfin.
  destruct (truediv_int Hq) as [Hn ->].
  destruct (encoder_inv Henc (unet_input_level Hin Hnd)) as (Hl1 & He1 & _).
  destruct (decoder_inv Hdec Hl1 He1) as [Hl2 _].
  destruct (final_convs_inv Hfin) as [Hl3 _].
  rewrite Hout, Hl3, Hl2. f_equal. unfold unet_depth. lia.
Qed.

(** The theorem on the small U-Net: two pooled levels, one upsampling
    skipped, output one level down. *)
Lemma Unet_output_level_witness :
  exists g, Unet_init no_infer (unet_call small_unet) = Ok g /\
            level (ug_output g) = Some 1%Z.
Proof.
  destruct (Unet_init no_infer (unet_call small_unet)) as [ g | e ] eqn:E;
    [ | vm_compute in E; discriminate E ].
  exists g. split; [ reflexivity | ].
  exact (Unet_output_level no_infer (unet_call small_unet) g [4; 8]%Z [8; 4; 2]%Z E eq_refl).
Defined.

Lemma depth_of_quotient (a : nat) (n : Z) :
  n <> 0%Z ->
  let M := py_int (inject_Z (Z.of_nat a) / inject_Z n) in
  (Z.to_nat (M + 1 - 1) * Z.to_nat n <= a)%nat /\
  Z.of_nat (Z.to_nat (M + 1 - 1)) = unet_depth (repeat 0%Z a) n.
Proof.
  intros Hn M. unfold unet_depth. rewrite repeat_length. fold M.
  split; [ | lia ].
  destruct (Z.lt_trichotomy n 0) as [ Hneg | [ H0 | Hpos ] ]; [ | lia | ].
  - pose proof (py_int_quotient_neg a n Hneg) as HM. fold M in HM. lia.
  - pose proof (py_int_quotient_pos a n Hpos) as HM. fold M in HM.
    assert (Hdiv : (n * (Z.of_nat a / n) <= Z.of_nat a)%Z)
      by (apply Z.mul_div_le; exact Hpos).
    assert (H0 : (0 <= Z.of_nat a / n)%Z) by (apply Z.div_pos; lia).
    rewrite HM. replace (Z.of_nat a / n + 1 - 1)%Z with (Z.of_nat a / n)%Z by lia.
    nia.
Qed.

Lemma unet_depth_length (enc_nf : list Z) (n : Z) :
  unet_depth enc_nf n = unet_depth (repeat 0%Z (List.length enc_nf)) n.
Proof. unfold unet_depth. rewrite repeat_length. reflexivity. Qed.

(** X14.  What every [Unet] that builds satisfies: [nb_conv_per_level] is
    not zero (the number of levels divides by it), the decoder has features
    for [depth * nb_conv_per_level] convolutions when [nb_conv_per_level] is
    positive (a negative one builds no level), and a [max_pool] list has a
    size for each of the [depth] levels.  Otherwise the constructor's own
    code raises, whatever the Keras layers accept. *)
Theorem Unet_builds_only_if :
  forall (infer : layer -> list tensor -> list Z) (p : UnetParams) (g : UnetGraph)
         (enc_nf dec_nf : list Z),
    Unet_init infer p = Ok g ->
    unet_feature_lists p = Ok (enc_nf, dec_nf) ->
    let n := p_nb_conv_per_level p in
    let depth := unet_depth enc_nf n in
    n <> 0%Z /\
    ((0 < n)%Z -> (depth * n <= Z.of_nat (List.length dec_nf))%Z) /\
    pool_sizes_cover (p_max_pool p) depth.
Proof.
  intros infer p g enc_nf dec_nf H Hf n depth.
  destruct (Unet_init_inv H)
    as (x0' & ins' & enc' & dec' & nd' & q & st1 & st2 & last
        & Hin' & Hf' & _ & Hq & Henc & Hdec & _).
  rewrite Hf in Hf'. injection Hf' as <- <-. cbv zeta in *.
  destruct (truediv_int Hq) as [Hn ->]. fold n in Hn, Henc, Hdec.
  destruct (depth_of_quotient (List.length enc_nf) n Hn) as [_ HD].
  cbv zeta in HD. rewrite <- unet_depth_length in HD. fold depth in HD.
  split; [ exact Hn | ]. split.
  - intros Hpos. pose proof (decoder_needs Hdec Hpos) as Hd.
    rewrite length_firstn in Hd. fold n in Hd. nia.
  - pose proof (encoder_needs Henc) as Hp. unfold pool_sizes_cover.
    destruct (p_max_pool p); [ exact I | lia ].
Qed.

(** The theorem on the small U-Net, of depth 2 with one convolution per
    level and three decoder features. *)
Lemma Unet_builds_only_if_witness :
  exists g, Unet_init no_infer (unet_call small_unet) = Ok g /\
            (unet_depth [4; 8]%Z 1 * 1 <= 3)%Z.
Proof.
  destruct (Unet_init no_infer (unet_call small_unet)) as [ g | e ] eqn:E;
    [ | vm_compute in E; discriminate E ].
  exists g. split; [ reflexivity | ].
  exact (proj1 (proj2 (Unet_builds_only_if no_infer (unet_call small_unet) g
                         [4; 8]%Z [8; 4; 2]%Z E eq_refl)) eq_refl).
Defined.

Lemma length_flat_map_repeat (l : list Z) (n : nat) :
  List.length (flat_map (fun x => repeat x n) l) = (List.length l * n)%nat.
Proof.
  induction l as [ | x l IH ]; cbn [flat_map List.length]; [ reflexivity | ].
  rewrite length_app, repeat_length, IH. lia.
Qed.

Lemma wrap64_in_range (z : Z) : in_int64 z = true -> wrap64 z = z.
Proof.
  unfold in_int64, wrap64. intros H. apply andb_prop in H. destruct H as [H1 H2].
  apply Z.leb_le in H1. apply Z.ltb_lt in H2.
  rewrite Z.mod_small by lia. lia.
Qed.

(** X15.  With an integer [nb_features], at least one level and at least
    one convolution per level, the feature lists are the per-level features
    [nb_features * feat_mult ** level], each repeated [nb_conv_per_level]
    times: the encoder takes all levels but the last, the decoder all levels
    in reverse.  The number of levels that [Unet] then recomputes from the
    lists is [nb_levels] again, and the decoder is left with exactly
    [nb_conv_per_level] surplus convolutions, of [nb_features] filters. *)
Theorem Unet_integer_features :
  forall (p : UnetParams) (nb_features nb_levels : Z),
    p_nb_features p = Some (FeatInt nb_features) ->
    p_nb_levels p = Some nb_levels ->
    (1 <= nb_levels)%Z ->
    (1 <= p_nb_conv_per_level p)%Z ->
    in_int64 nb_features = true ->
    in_int64 (p_feat_mult p) = true ->
    let n := Z.to_nat (p_nb_conv_per_level p) in
    let feats := level_features nb_features (p_feat_mult p) nb_levels in
    exists enc_nf dec_nf,
      unet_feature_lists p = Ok (enc_nf, dec_nf) /\
      enc_nf = flat_map (fun f => repeat f n) (removelast feats) /\
      dec_nf = flat_map (fun f => repeat f n) (rev feats) /\
      (unet_depth enc_nf (p_nb_conv_per_level p) + 1)%Z = nb_levels /\
      skipn (List.length enc_nf) dec_nf = repeat nb_features n.
Proof.
  intros p nf L Hnf HL HL1 Hn1 Hr1 Hr2 n feats.
  unfold unet_feature_lists. rewrite Hnf, HL, Hr1, Hr2. cbn [andb bind].
  unfold np_repeat. destruct (Z.ltb_spec (p_nb_conv_per_level p) 0) as [ Hneg | _ ];
    [ lia | ].
  cbn [bind]. fold n. fold feats.
  do 2 eexists. split; [ reflexivity | ]. split; [ reflexivity | ].
  split; [ reflexivity | ].
  assert (Hlen : List.length feats = Z.to_nat L).
  { unfold feats, level_features. rewrite length_map. apply length_range. }
  assert (Hfeats : exists rest, feats = nf :: rest).
  { unfold feats, level_features, range.
    destruct (Z.to_nat L) as [ | k ] eqn:Hk; [ lia | ].
    cbn [seq map]. eexists. f_equal.
    cbn [Z.of_nat Z.pow]. rewrite (wrap64_in_range 1) by reflexivity.
    rewrite Z.mul_1_r. apply wrap64_in_range. exact Hr1. }
  destruct Hfeats as [rest Hfeats].
  assert (Hrl : List.length (removelast feats) = (Z.to_nat L - 1)%nat).
  { rewrite Hfeats in Hlen |- *. clear - Hlen. revert nf Hlen.
    generalize (Z.to_nat L). induction rest as [ | y rest IH ]; intros k nf Hlen.
    - cbn in *. lia.
    - cbn [removelast List.length] in *. destruct k as [ | k ]; [ lia | ].
      specialize (IH k y ltac:(lia)). cbn [removelast] in IH.
      destruct rest; cbn [List.length] in *; lia. }
  split.
  - unfold unet_depth. rewrite length_flat_map_repeat, Hrl.
    rewrite py_int_quotient_pos by lia.
    replace (Z.of_nat ((Z.to_nat L - 1) * n)) with ((L - 1) * p_nb_conv_per_level p)%Z
      by (unfold n; nia).
    rewrite Z.div_mul by lia. lia.
  - rewrite length_flat_map_repeat, Hrl.
    rewrite Hfeats. cbn [rev]. rewrite flat_map_app. cbn [flat_map]. rewrite app_nil_r.
    assert (Hrev : ((Z.to_nat L - 1) * n
                    = List.length (flat_map (fun f => repeat f n) (rev rest)))%nat).
    { rewrite length_flat_map_repeat, length_rev.
      rewrite Hfeats in Hlen. cbn [List.length] in Hlen.
      replace (List.length rest) with (Z.to_nat L - 1)%nat by lia. reflexivity. }
    rewrite Hrev, skipn_app, skipn_all, Nat.sub_diag. reflexivity.
Qed.

(** The theorem at [nb_features=4], [feat_mult=2], three levels and two
    convolutions per level: encoder [4, 4, 8, 8], decoder [16, 16, 8, 8, 4,
    4]. *)
Lemma Unet_integer_features_witness :
  unet_feature_lists (unet_call integer_unet)
  = Ok ([4; 4; 8; 8]%Z, [16; 16; 8; 8; 4; 4]%Z).
Proof.
  assert (H1 : (1 <= 3)%Z) by lia.
  assert (H2 : (1 <= p_nb_conv_per_level (unet_call integer_unet))%Z) by (cbn; lia).
  destruct (Unet_integer_features (unet_call integer_unet) 4 3 eq_refl eq_refl H1 H2
              eq_refl eq_refl) as (enc & dec & H & He & Hd & _).
  rewrite H. subst enc dec. reflexivity.
Defined.

(** X16.  [InstanceDense.register] returns the flow that warps the source:
    the model's second prediction (the flow layer's output) when
    [int_steps] is 0, else that flow integrated, and rescaled by
    [int_resolution] when this is above 1.  The model's first prediction is
    the source warped by the registered flow. *)
Theorem instance_register_integrates_the_flow :
  forall (a : InstanceDenseArgs) (init : list weight) (m : InstanceDenseModel)
         (ext : layer -> list arr -> arr) (src : arr),
    InstanceDense a init = Ok m ->
    exists moved preint_flow flow,
      predict_on ext (inst_model m) [src] = Ok [moved; preint_flow] /\
      instance_register ext m src = Ok [flow] /\
      moved = ext (SpatialTransformer (Some "linear"%string) None None None) [src; flow] /\
      flow = (if (0 <? i_int_steps a)%Z
              then let integrated := ext (VecInt "ss" (i_int_steps a)) [preint_flow] in
                   if Qle_bool (instance_resolution a) 1 then integrated
                   else ext (RescaleTransform (instance_resolution a)) [integrated]
              else preint_flow).
Proof.
  intros a init m ext src H. unfold InstanceDense in H. cbv zeta in H.
  fold (instance_resolution a) in H.
  match type of H with
  | bind ?r _ = _ => destruct r as [ shape | e ]
  end; cbn [bind] in H; [ | discriminate H ].
  injection H as <-.
  unfold instance_register, instance_get_registration_model, predict_on, predict.
  cbn [inst_model inst_pos_flow inputs outputs List.length Nat.eqb map].
  destruct (0 <? i_int_steps a)%Z; [ destruct (Qle_bool (instance_resolution a) 1) | ];
    cbn [negb eval map apply_layer feed_of]; rewrite ?String.eqb_refl;
    do 3 eexists; repeat split; reflexivity.
Qed.

(** The theorem on the 4 by 4 instance model of seven steps at resolution 2,
    with layers that pass their first argument on. *)
Lemma instance_register_integrates_the_flow_witness :
  exists m moved preint_flow flow,
    InstanceDense (instance_args 1000) [] = Ok m /\
    predict_on first_argument (inst_model m) [pixel 1] = Ok [moved; preint_flow] /\
    instance_register first_argument m (pixel 1) = Ok [flow].
Proof.
  destruct (InstanceDense (instance_args 1000) []) as [ m | e ] eqn:E;
    [ | vm_compute in E; discriminate E ].
  destruct (instance_register_integrates_the_flow
              (instance_args 1000) [] m first_argument (pixel 1) E)
    as (moved & preint & flow & Hp & Hr & _).
  exists m, moved, preint, flow. split; [ reflexivity | ]. split; [ exact Hp | exact Hr ].
Defined.





Lemma seg_inv {Unet a sm} :
  VxmDenseSemiSupervisedSeg Unet a = Ok sm ->
  VxmDense Unet (seg_vxm_args (seg_inshape a) (seg_nb_unet_features a)
                              (bidir_labels a || seg_bidir a) (seg_kwargs a))
  = Ok (seg_vxm_model sm) /\
  seg_pos_flow sm = ref_pos_flow (references (seg_vxm_model sm)) /\
  exists more, inputs (seg_model sm)
               = (inputs (vxm_model (seg_vxm_model sm)) ++ more)%list.
Proof.
  intros H. unfold VxmDenseSemiSupervisedSeg in H. cbv zeta in H.
  replace (if bidir_labels a then true else seg_bidir a)
    with (bidir_labels a || seg_bidir a) in H by (destruct (bidir_labels a); reflexivity).
  destruct (VxmDense Unet _) as [ v | e ]; cbn [bind] in H; [ | discriminate H ].
  destruct (truediv _ _) as [ factor | e ]; cbn [bind] in H; [ | discriminate H ].
  destruct (bidir_labels a).
  - destruct (neg_flow_of v) as [ neg | e ]; cbn [bind] in H; [ | discriminate H ].
    injection H as <-. cbn [seg_vxm_model seg_pos_flow seg_model inputs].
    split; [ reflexivity | ]. split; [ reflexivity | ].
    rewrite <- app_assoc. eauto.
  - cbn [bind] in H. injection H as <-. cbn [seg_vxm_model seg_pos_flow seg_model inputs].
    split; [ reflexivity | ]. split; [ reflexivity | ]. eauto.
Qed.

(** X18.  The registration model of the semi-supervised model is taken on
    the first two inputs.  Built on its own inputs these are the source and
    target images, whatever label inputs follow, and without a hypernetwork
    the model is the registration model of the inner [VxmDense]: the two
    register alike. *)
Theorem seg_registration_model_is_on_the_images :
  forall (Unet : UnetArgs -> result UnetModel) (a : SegArgs) (sm : SegModel),
    VxmDenseSemiSupervisedSeg Unet a = Ok sm ->
    input_model (seg_kwargs a) = None ->
    let inner := seg_vxm_args (seg_inshape a) (seg_nb_unet_features a)
                              (bidir_labels a || seg_bidir a) (seg_kwargs a) in
    seg_get_registration_model sm
    = Model [default_source_input inner; default_target_input inner]
            [ref_pos_flow (references (seg_vxm_model sm))] /\
    (hyp_model (seg_kwargs a) = None ->
     seg_get_registration_model sm = get_registration_model (seg_vxm_model sm)).
Proof.
  intros Unet a sm H Hin inner.
  destruct (seg_inv H) as (Hv & Hpos & more & Hins). fold inner in Hv.
  destruct (VxmDense_model_inv Hv) as (fp & reg & Ht & _).
  destruct (tensors_default_inputs Ht Hin) as (_ & _ & Hi).
  unfold seg_get_registration_model, get_registration_model.
  rewrite Hpos, Hins, Hi.
  split.
  - f_equal. destruct (hyp_model inner) as [ [hi ht] | ];
      [ destruct (is_among hi _) | ]; reflexivity.
  - intros Hhyp. change (hyp_model inner) with (hyp_model (seg_kwargs a)).
    rewrite Hhyp. reflexivity.
Qed.

(** The theorem on the 4 by 4 model with three labels and
    [bidir_labels=True]: four inputs, two of them in the registration
    model. *)
Lemma seg_registration_model_is_on_the_images_witness :
  exists sm,
    VxmDenseSemiSupervisedSeg (unet_of_size [4; 4]%Z) seg_bidir_labels = Ok sm /\
    seg_get_registration_model sm = get_registration_model (seg_vxm_model sm).
Proof.
  destruct (VxmDenseSemiSupervisedSeg (unet_of_size [4; 4]%Z) seg_bidir_labels)
    as [ sm | e ] eqn:E; [ | vm_compute in E; discriminate E ].
  exists sm. split; [ reflexivity | ].
  exact (proj2 (seg_registration_model_is_on_the_images _ _ _ E eq_refl) eq_refl).
Defined.
